(** * The signaling, negotiation and identity-verification core of heat-ui

    A shallow embedding of [P2PConnector] (the connector that talks to the
    signaling relay and drives the WebRTC negotiation) and of the parts of
    [P2PMessaging] that use it, with the properties of the protocol stated
    over the embedding.

    Conventions.
    - JavaScript objects that are shared and mutated (rooms, peers) live in a
      store and are named by references; closures that capture such an
      object ([requestEnterRoom], the timer callbacks) are represented by
      the captured reference.
    - Calls into collaborators that are outside the connector (the web
      socket, the WebRTC primitives, the hooks of a room) are recorded as
      effects, in the order in which the code makes them.
    - An uncaught JavaScript exception aborts the running handler and keeps
      the mutations made so far. *)

From Stdlib Require Import String Ascii ZArith List Lia Bool.
From stdpp Require Import base option list gmap strings fin_maps.

Local Open Scope string_scope.

(** ** JavaScript array primitives used by the code *)

Module Js.

(** [Array.prototype.sort()] without a comparator, on an array of strings:
    ascending order of the code units. Insertion sort; on the two-element
    arrays of the code any sorting algorithm gives the same array. *)
Fixpoint insert_sorted (x : string) (l : list string) : list string :=
  match l with
  | [] => [x]
  | y :: l' =>
      match String.compare x y with
      | Gt => y :: insert_sorted x l'
      | _ => x :: l
      end
  end.

Fixpoint sort (l : list string) : list string :=
  match l with
  | [] => []
  | x :: l' => insert_sorted x (sort l')
  end.

(** [arr[i]] on an array of strings; out of range reads [undefined], which
    [+] prints as the text "undefined". *)
Definition at_str (l : list string) (i : nat) : string :=
  match nth_error l i with
  | Some s => s
  | None => "undefined"
  end.

(** A JavaScript string is truthy when it is not empty. *)
Definition truthy_str (s : string) : bool :=
  match s with
  | EmptyString => false
  | _ => true
  end.

(** [null], [undefined] and the empty string are falsy. *)
Definition truthy (o : option string) : bool :=
  match o with
  | Some s => truthy_str s
  | None => false
  end.

End Js.

(** ** Data model *)

Inductive OnlineStatus := online | offline.

(** [EnterRoomState = "not" | "entering" | "entered"] *)
Inductive EnterRoomState := st_not | st_entering | st_entered.

Record RoomState := mkRoomState {
  entered : EnterRoomState;
  approved : bool
}.

(** The values the code stores in [peer['connectionRole']]: ['offer'],
    ['answer'], ['no need']; [None] is the property not yet set. *)
Inductive ConnectionRole := role_offer | role_answer | role_no_need.

(** [RTCDataChannel.readyState] *)
Inductive ReadyState := rs_connecting | rs_open | rs_closing | rs_closed.

#[global] Instance OnlineStatus_eq_dec : EqDecision OnlineStatus.
Proof. solve_decision. Defined.

#[global] Instance EnterRoomState_eq_dec : EqDecision EnterRoomState.
Proof. solve_decision. Defined.

#[global] Instance ConnectionRole_eq_dec : EqDecision ConnectionRole.
Proof. solve_decision. Defined.

#[global] Instance ReadyState_eq_dec : EqDecision ReadyState.
Proof. solve_decision. Defined.

(** Modelled from the spec: the Peer class. An opaque connection handle, an
    opaque channel handle, the connection role, and the derived flag that
    [isConnected()] reports; [noNeedReconnect] is the property the
    connector itself adds to a peer. *)
Record Peer := mkPeer {
  peerConnection : option nat;
  dataChannel : option nat;
  connectionRole : option ConnectionRole;
  noNeedReconnect : bool;
  isConnected : bool
}.

(** Modelled from the spec: the Room class. A name, the entry state, the
    allow-list of member public keys, the peers by identity, and the
    observer hooks (here: whether a hook is bound). [proofData] is the
    property the connector adds to a room on the first opened channel. *)
Record Room := mkRoom {
  name : string;
  state : RoomState;
  memberPublicKeys : list string;
  peers : gmap string nat;
  proofData : option (gmap string string);
  onOpenDataChannelHook : bool;
  onCloseDataChannelHook : bool;
  onFailureHook : bool;
  onRejectedHook : bool
}.

(** [ProvingData] *)
Record ProvingData := mkProvingData {
  signatureHex : string;
  dataHex : option string;
  publicKeyHex : string
}.

(** A parsed signaling frame, with the fields the connector and its
    response matchers read, each at the type the code declares for it.
    [None] is a field that is absent. *)
Record Msg := mkMsg {
  msg_type : option string;
  msg_room : string;
  msg_data : option string;
  msg_caller : string;
  msg_reason : string;
  msg_remotePeerIds : option (list string);
  msg_fromPeer : string;
  msg_peerId : option string;
  msg_status : option string;
  msg_label : string;
  msg_candidate : string;
  msg_sdp : string
}.

(** A parsed data-channel message. *)
Record PeerMsg := mkPeerMsg {
  pm_type : option string;
  pm_signature : option string;
  pm_data : option string;
  pm_publicKey : option string;
  pm_rejected : option string;
  pm_room : option string;
  pm_value : option string
}.

(** What a response matcher hands to [resolve]. *)
Inductive Value :=
| VUndefined
| VStr (s : string)
| VArr (l : list string).

#[global] Instance Value_eq_dec : EqDecision Value.
Proof. solve_decision. Defined.

(** The closure [f] that [request] registers: it is its own object (compared
    by reference in [indexOf]), so it carries the identity of the request
    it belongs to. *)
Record Awaiting := mkAwaiting {
  aw_id : nat;
  handleResponse : Msg -> Value
}.

Inductive PromiseState :=
| Pending
| Resolved (v : Value)
| Rejected (err : string).

(** One call of [request]: the promise [p] the matcher resolves, the promise
    [promiseTimeout] returns, and the timer of the latter. *)
Record Request := mkRequest {
  rq_inner : PromiseState;
  rq_outer : PromiseState;
  rq_timer : nat
}.

(** The callbacks handed to [setTimeout], by what they capture. *)
Inductive Task :=
| TEnterTimeout (room : nat)
| TReconnect (peer : nat) (roomName fromPeer : string)
| TPromiseTimeout (request : nat).

(** An object literal that is serialized and sent. *)
Definition Json := list (string * string).

(** Calls that leave the connector. *)
Inductive Effect :=
| SendSignaling (message : list Json)
| ChannelSend (channel : nat) (data : Json)
| ChannelClose (channel : nat)
| PcClose (pc : nat)
| PcCreate (pc : nat) (roomName peerId : string)
| PcCreateDataChannel (pc channel : nat) (label : string)
| PcCreateOffer (pc : nat) (roomName peerId : string)
| PcCreateAnswer (pc : nat) (roomName peerId : string)
| PcSetRemoteDescription (pc : nat) (roomName peerId sdp : string)
| PcAddIceCandidate (pc : nat) (label candidate : string)
| ConfirmIncomingCall (caller roomName : string)
| SignalingError (reason : string)
| RoomOnMessageInternal (room : nat) (msg : PeerMsg) (fromPeerId roomName : string)
| RoomOnOpenDataChannel (room : nat) (peerId : string)
| RoomOnCloseDataChannel (room : nat) (peerId : string)
| RoomOnFailure (room : nat) (peerId : string)
| RoomOnRejected (room : nat) (peerId reason : string)
| RoomProvenPublicKey (room : nat) (peerId : string) (publicKey : option string).

(** The connector, the messenger that owns it, the objects they share, the
    timers of the event loop, and the state of the WebRTC objects the
    connector reads. *)
Record Conn := mkConn {
  (* P2PConnector *)
  rooms : gmap string nat;
  signalingMessageAwaitings : list Awaiting;
  pendingIdentity : option string;
  identity : option string;
  pendingRooms : list nat;
  pendingOnlineStatus : option OnlineStatus;
  _onlineStatus : OnlineStatus;
  (* P2PMessaging *)
  user_publicKey : string;
  user_secretPhrase : string;
  (* objects *)
  roomStore : gmap nat Room;
  peerStore : gmap nat Peer;
  requestStore : gmap nat Request;
  (* event loop *)
  timers : gmap nat (Z * Task);
  nextTimer : nat;
  (* WebRTC *)
  readyStates : gmap nat ReadyState;
  iceConnected : gset nat;
  pcConstructorThrows : bool;
  createDataChannelThrows : bool;
  nextPc : nat;
  nextChannel : nat
}.

(** Collaborators outside the connector. *)
Class Collaborators := {
  (** [heat.crypto.getAccountIdFromPublicKey] *)
  getAccountIdFromPublicKey : string -> string;
  (** [heat.crypto.signBytes(message, secretPhrase)] *)
  signBytes : option string -> string -> string;
  (** [heat.crypto.verifyBytes(signature, data, publicKey)] *)
  verifyBytes : option string -> option string -> option string -> bool;
  (** [converters.stringToHexString] *)
  stringToHexString : string -> string;
  (** [JSON.parse] of a signaling frame; [None] is a [SyntaxError]. *)
  parseSignaling : string -> option Msg;
  (** [JSON.parse] of a data-channel message. *)
  parsePeer : string -> option PeerMsg;
  (** [Room.provenPublicKeyAllowed(room, peerId, publicKey)] *)
  provenPublicKeyAllowed : Room -> string -> option string -> bool;
  (** whether [channel.send(data)] throws *)
  channelSendThrows : nat -> Json -> bool
}.

(** ** Handlers as state transformers *)

Inductive Res (A : Type) :=
| Ok (a : A)
| Throw (err : string).
Arguments Ok {A} a.
Arguments Throw {A} err.

Definition M (A : Type) : Type := Conn -> Res A * Conn * list Effect.

Definition ret {A} (a : A) : M A := fun s => (Ok a, s, []).

Definition bind {A B} (m : M A) (k : A -> M B) : M B :=
  fun s =>
    match m s with
    | (Ok a, s1, out1) =>
        match k a s1 with
        | (r, s2, out2) => (r, s2, (out1 ++ out2)%list)
        end
    | (Throw e, s1, out1) => (Throw e, s1, out1)
    end.

Definition get : M Conn := fun s => (Ok s, s, []).
Definition modify (f : Conn -> Conn) : M unit := fun s => (Ok tt, f s, []).
Definition emit (e : Effect) : M unit := fun s => (Ok tt, s, [e]).
Definition throw {A} (err : string) : M A := fun s => (Throw err, s, []).

(** [try { m } catch (e) { h }] *)
Definition try_catch {A} (m : M A) (h : string -> M A) : M A :=
  fun s =>
    match m s with
    | (Ok a, s1, out1) => (Ok a, s1, out1)
    | (Throw e, s1, out1) =>
        match h e s1 with
        | (r, s2, out2) => (r, s2, (out1 ++ out2)%list)
        end
    end.

Declare Scope conn_scope.
Delimit Scope conn_scope with conn.
Notation "'let!' x ':=' m 'in' k" := (bind m (fun x => k))
  (at level 10, x name, m at level 100, k at level 200) : conn_scope.
Notation "m '>>' k" := (bind m (fun _ => k))
  (at level 100, k at level 200, right associativity) : conn_scope.
Local Open Scope conn_scope.

(** [list.forEach(f)] over a list that the callbacks do not change. *)
Fixpoint forEach {A} (l : list A) (f : A -> M unit) : M unit :=
  match l with
  | [] => ret tt
  | x :: l' => f x >> forEach l' f
  end.

Definition when (b : bool) (m : M unit) : M unit := if b then m else ret tt.

Definition state_of {A} (o : Res A * Conn * list Effect) : Conn := snd (fst o).
Definition effects_of {A} (o : Res A * Conn * list Effect) : list Effect := snd o.
Definition result_of {A} (o : Res A * Conn * list Effect) : Res A := fst (fst o).

(** ** Field updates *)

Definition set_rooms (f : _ -> _) (s : Conn) : Conn :=
  mkConn (f (rooms s)) (signalingMessageAwaitings s) (pendingIdentity s) (identity s) (pendingRooms s) (pendingOnlineStatus s) (_onlineStatus s) (user_publicKey s) (user_secretPhrase s) (roomStore s) (peerStore s) (requestStore s) (timers s) (nextTimer s) (readyStates s) (iceConnected s) (pcConstructorThrows s) (createDataChannelThrows s) (nextPc s) (nextChannel s).

Definition set_signalingMessageAwaitings (f : _ -> _) (s : Conn) : Conn :=
  mkConn (rooms s) (f (signalingMessageAwaitings s)) (pendingIdentity s) (identity s) (pendingRooms s) (pendingOnlineStatus s) (_onlineStatus s) (user_publicKey s) (user_secretPhrase s) (roomStore s) (peerStore s) (requestStore s) (timers s) (nextTimer s) (readyStates s) (iceConnected s) (pcConstructorThrows s) (createDataChannelThrows s) (nextPc s) (nextChannel s).

Definition set_pendingIdentity (f : _ -> _) (s : Conn) : Conn :=
  mkConn (rooms s) (signalingMessageAwaitings s) (f (pendingIdentity s)) (identity s) (pendingRooms s) (pendingOnlineStatus s) (_onlineStatus s) (user_publicKey s) (user_secretPhrase s) (roomStore s) (peerStore s) (requestStore s) (timers s) (nextTimer s) (readyStates s) (iceConnected s) (pcConstructorThrows s) (createDataChannelThrows s) (nextPc s) (nextChannel s).

Definition set_identity (f : _ -> _) (s : Conn) : Conn :=
  mkConn (rooms s) (signalingMessageAwaitings s) (pendingIdentity s) (f (identity s)) (pendingRooms s) (pendingOnlineStatus s) (_onlineStatus s) (user_publicKey s) (user_secretPhrase s) (roomStore s) (peerStore s) (requestStore s) (timers s) (nextTimer s) (readyStates s) (iceConnected s) (pcConstructorThrows s) (createDataChannelThrows s) (nextPc s) (nextChannel s).

Definition set_pendingRooms (f : _ -> _) (s : Conn) : Conn :=
  mkConn (rooms s) (signalingMessageAwaitings s) (pendingIdentity s) (identity s) (f (pendingRooms s)) (pendingOnlineStatus s) (_onlineStatus s) (user_publicKey s) (user_secretPhrase s) (roomStore s) (peerStore s) (requestStore s) (timers s) (nextTimer s) (readyStates s) (iceConnected s) (pcConstructorThrows s) (createDataChannelThrows s) (nextPc s) (nextChannel s).

Definition set_pendingOnlineStatus (f : _ -> _) (s : Conn) : Conn :=
  mkConn (rooms s) (signalingMessageAwaitings s) (pendingIdentity s) (identity s) (pendingRooms s) (f (pendingOnlineStatus s)) (_onlineStatus s) (user_publicKey s) (user_secretPhrase s) (roomStore s) (peerStore s) (requestStore s) (timers s) (nextTimer s) (readyStates s) (iceConnected s) (pcConstructorThrows s) (createDataChannelThrows s) (nextPc s) (nextChannel s).

Definition set_onlineStatus (f : _ -> _) (s : Conn) : Conn :=
  mkConn (rooms s) (signalingMessageAwaitings s) (pendingIdentity s) (identity s) (pendingRooms s) (pendingOnlineStatus s) (f (_onlineStatus s)) (user_publicKey s) (user_secretPhrase s) (roomStore s) (peerStore s) (requestStore s) (timers s) (nextTimer s) (readyStates s) (iceConnected s) (pcConstructorThrows s) (createDataChannelThrows s) (nextPc s) (nextChannel s).

Definition set_roomStore (f : _ -> _) (s : Conn) : Conn :=
  mkConn (rooms s) (signalingMessageAwaitings s) (pendingIdentity s) (identity s) (pendingRooms s) (pendingOnlineStatus s) (_onlineStatus s) (user_publicKey s) (user_secretPhrase s) (f (roomStore s)) (peerStore s) (requestStore s) (timers s) (nextTimer s) (readyStates s) (iceConnected s) (pcConstructorThrows s) (createDataChannelThrows s) (nextPc s) (nextChannel s).

Definition set_peerStore (f : _ -> _) (s : Conn) : Conn :=
  mkConn (rooms s) (signalingMessageAwaitings s) (pendingIdentity s) (identity s) (pendingRooms s) (pendingOnlineStatus s) (_onlineStatus s) (user_publicKey s) (user_secretPhrase s) (roomStore s) (f (peerStore s)) (requestStore s) (timers s) (nextTimer s) (readyStates s) (iceConnected s) (pcConstructorThrows s) (createDataChannelThrows s) (nextPc s) (nextChannel s).

Definition set_requestStore (f : _ -> _) (s : Conn) : Conn :=
  mkConn (rooms s) (signalingMessageAwaitings s) (pendingIdentity s) (identity s) (pendingRooms s) (pendingOnlineStatus s) (_onlineStatus s) (user_publicKey s) (user_secretPhrase s) (roomStore s) (peerStore s) (f (requestStore s)) (timers s) (nextTimer s) (readyStates s) (iceConnected s) (pcConstructorThrows s) (createDataChannelThrows s) (nextPc s) (nextChannel s).

Definition set_timers (f : _ -> _) (s : Conn) : Conn :=
  mkConn (rooms s) (signalingMessageAwaitings s) (pendingIdentity s) (identity s) (pendingRooms s) (pendingOnlineStatus s) (_onlineStatus s) (user_publicKey s) (user_secretPhrase s) (roomStore s) (peerStore s) (requestStore s) (f (timers s)) (nextTimer s) (readyStates s) (iceConnected s) (pcConstructorThrows s) (createDataChannelThrows s) (nextPc s) (nextChannel s).

Definition set_nextTimer (f : _ -> _) (s : Conn) : Conn :=
  mkConn (rooms s) (signalingMessageAwaitings s) (pendingIdentity s) (identity s) (pendingRooms s) (pendingOnlineStatus s) (_onlineStatus s) (user_publicKey s) (user_secretPhrase s) (roomStore s) (peerStore s) (requestStore s) (timers s) (f (nextTimer s)) (readyStates s) (iceConnected s) (pcConstructorThrows s) (createDataChannelThrows s) (nextPc s) (nextChannel s).

Definition set_readyStates (f : _ -> _) (s : Conn) : Conn :=
  mkConn (rooms s) (signalingMessageAwaitings s) (pendingIdentity s) (identity s) (pendingRooms s) (pendingOnlineStatus s) (_onlineStatus s) (user_publicKey s) (user_secretPhrase s) (roomStore s) (peerStore s) (requestStore s) (timers s) (nextTimer s) (f (readyStates s)) (iceConnected s) (pcConstructorThrows s) (createDataChannelThrows s) (nextPc s) (nextChannel s).

Definition set_iceConnected (f : _ -> _) (s : Conn) : Conn :=
  mkConn (rooms s) (signalingMessageAwaitings s) (pendingIdentity s) (identity s) (pendingRooms s) (pendingOnlineStatus s) (_onlineStatus s) (user_publicKey s) (user_secretPhrase s) (roomStore s) (peerStore s) (requestStore s) (timers s) (nextTimer s) (readyStates s) (f (iceConnected s)) (pcConstructorThrows s) (createDataChannelThrows s) (nextPc s) (nextChannel s).

Definition set_pcConstructorThrows (f : _ -> _) (s : Conn) : Conn :=
  mkConn (rooms s) (signalingMessageAwaitings s) (pendingIdentity s) (identity s) (pendingRooms s) (pendingOnlineStatus s) (_onlineStatus s) (user_publicKey s) (user_secretPhrase s) (roomStore s) (peerStore s) (requestStore s) (timers s) (nextTimer s) (readyStates s) (iceConnected s) (f (pcConstructorThrows s)) (createDataChannelThrows s) (nextPc s) (nextChannel s).

Definition set_createDataChannelThrows (f : _ -> _) (s : Conn) : Conn :=
  mkConn (rooms s) (signalingMessageAwaitings s) (pendingIdentity s) (identity s) (pendingRooms s) (pendingOnlineStatus s) (_onlineStatus s) (user_publicKey s) (user_secretPhrase s) (roomStore s) (peerStore s) (requestStore s) (timers s) (nextTimer s) (readyStates s) (iceConnected s) (pcConstructorThrows s) (f (createDataChannelThrows s)) (nextPc s) (nextChannel s).

Definition set_nextPc (f : _ -> _) (s : Conn) : Conn :=
  mkConn (rooms s) (signalingMessageAwaitings s) (pendingIdentity s) (identity s) (pendingRooms s) (pendingOnlineStatus s) (_onlineStatus s) (user_publicKey s) (user_secretPhrase s) (roomStore s) (peerStore s) (requestStore s) (timers s) (nextTimer s) (readyStates s) (iceConnected s) (pcConstructorThrows s) (createDataChannelThrows s) (f (nextPc s)) (nextChannel s).

Definition set_nextChannel (f : _ -> _) (s : Conn) : Conn :=
  mkConn (rooms s) (signalingMessageAwaitings s) (pendingIdentity s) (identity s) (pendingRooms s) (pendingOnlineStatus s) (_onlineStatus s) (user_publicKey s) (user_secretPhrase s) (roomStore s) (peerStore s) (requestStore s) (timers s) (nextTimer s) (readyStates s) (iceConnected s) (pcConstructorThrows s) (createDataChannelThrows s) (nextPc s) (f (nextChannel s)).

Definition set_state (f : _ -> _) (r : Room) : Room :=
  mkRoom (name r) (f (state r)) (memberPublicKeys r) (peers r) (proofData r) (onOpenDataChannelHook r) (onCloseDataChannelHook r) (onFailureHook r) (onRejectedHook r).

Definition set_peers (f : _ -> _) (r : Room) : Room :=
  mkRoom (name r) (state r) (memberPublicKeys r) (f (peers r)) (proofData r) (onOpenDataChannelHook r) (onCloseDataChannelHook r) (onFailureHook r) (onRejectedHook r).

Definition set_proofData (f : _ -> _) (r : Room) : Room :=
  mkRoom (name r) (state r) (memberPublicKeys r) (peers r) (f (proofData r)) (onOpenDataChannelHook r) (onCloseDataChannelHook r) (onFailureHook r) (onRejectedHook r).

Definition set_peerConnection (f : _ -> _) (p : Peer) : Peer :=
  mkPeer (f (peerConnection p)) (dataChannel p) (connectionRole p) (noNeedReconnect p) (isConnected p).

Definition set_dataChannel (f : _ -> _) (p : Peer) : Peer :=
  mkPeer (peerConnection p) (f (dataChannel p)) (connectionRole p) (noNeedReconnect p) (isConnected p).

Definition set_connectionRole (f : _ -> _) (p : Peer) : Peer :=
  mkPeer (peerConnection p) (dataChannel p) (f (connectionRole p)) (noNeedReconnect p) (isConnected p).

Definition set_noNeedReconnect (f : _ -> _) (p : Peer) : Peer :=
  mkPeer (peerConnection p) (dataChannel p) (connectionRole p) (f (noNeedReconnect p)) (isConnected p).

Definition set_isConnected (f : _ -> _) (p : Peer) : Peer :=
  mkPeer (peerConnection p) (dataChannel p) (connectionRole p) (noNeedReconnect p) (f (isConnected p)).

Definition set_entered (e : EnterRoomState) (r : Room) : Room :=
  set_state (fun st => mkRoomState e (approved st)) r.

Definition set_approved (b : bool) (r : Room) : Room :=
  set_state (fun st => mkRoomState (entered st) b) r.

(** ** Shared objects and the event loop *)

(** Reading a property of [undefined] throws a [TypeError]. *)
Definition TypeError : string := "TypeError".

Definition deref {A} (o : option A) : M A :=
  match o with
  | Some a => ret a
  | None => throw TypeError
  end.

Definition readRoom (room : nat) : M Room :=
  let! s := get in deref (roomStore s !! room).

Definition readPeer (peer : nat) : M Peer :=
  let! s := get in deref (peerStore s !! peer).

Definition writeRoom (room : nat) (f : Room -> Room) : M unit :=
  modify (set_roomStore (alter f room)).

Definition writePeer (peer : nat) (f : Peer -> Peer) : M unit :=
  modify (set_peerStore (alter f peer)).

(** [this.rooms.get(roomName)] *)
Definition rooms_get (roomName : string) : M (option nat) :=
  let! s := get in ret (rooms s !! roomName).

(** [this.rooms.set(roomName, room)] *)
Definition rooms_set (roomName : string) (room : nat) : M unit :=
  modify (set_rooms (insert roomName room)).

(** [new p2p.Room(name, connector, storage, user, memberPublicKeys)] *)
Definition newRoom (roomName : string) (members : list string) : M nat :=
  let! s := get in
  let room := fresh (dom (roomStore s)) in
  modify (set_roomStore (insert room
    (mkRoom roomName (mkRoomState st_not false) members ∅ None false false false false))) >>
  ret room.

(** Modelled from the spec: Room.getPeer, the peer of that identity in the
    room's peer map. *)
Definition getPeer (room : nat) (peerId : string) : M (option nat) :=
  let! ro := readRoom room in ret (peers ro !! peerId).

(** Modelled from the spec: Room.createPeer. A peer is identified by its
    identity within the room, so the peer that exists is returned; a new
    one is created when the room has none of that identity; the member
    list is an allow-list when it is not empty. *)
Definition createPeer (room : nat) (peerId publicKey : string) : M (option nat) :=
  let! ro := readRoom room in
  match peers ro !! peerId with
  | Some peer => ret (Some peer)
  | None =>
      if bool_decide (memberPublicKeys ro = [] ∨ publicKey ∈ memberPublicKeys ro) then
        let! s := get in
        let peer := fresh (dom (peerStore s)) in
        modify (set_peerStore (insert peer (mkPeer None None None false false))) >>
        writeRoom room (set_peers (insert peerId peer)) >>
        ret (Some peer)
      else ret None
  end.

(** Modelled from the spec: Room.getDataChannels, the channels of the
    room's peers. *)
Definition getDataChannels (room : nat) : M (list nat) :=
  let! ro := readRoom room in
  let! s := get in
  ret (omap (fun '(_, peer) => peerStore s !! peer ≫= dataChannel) (map_to_list (peers ro))).

Definition setTimeout (task : Task) (ms : Z) : M nat :=
  let! s := get in
  let timer := nextTimer s in
  modify (set_timers (insert timer (ms, task))) >>
  modify (set_nextTimer S) >>
  ret timer.

Definition clearTimeout (timer : nat) : M unit :=
  modify (set_timers (delete timer)).

(** [channel.readyState] *)
Definition readyState (s : Conn) (channel : nat) : ReadyState :=
  default rs_connecting (readyStates s !! channel).

(** [dataChannel.close()] *)
Definition channel_close (channel : nat) : M unit :=
  emit (ChannelClose channel) >>
  modify (set_readyStates (fun m =>
    match default rs_connecting (m !! channel) with
    | rs_closed => m
    | _ => <[channel := rs_closing]> m
    end)).

(** [resolve(v)] of the promise of a request. The [then] callback that
    [promiseTimeout] attached runs as a microtask: it clears the timer and
    resolves the outer promise, which has no effect on a settled one. *)
Definition resolve (request : nat) (v : Value) : M unit :=
  let! s := get in
  match requestStore s !! request with
  | Some rq =>
      match rq_inner rq with
      | Pending =>
          modify (set_requestStore (insert request
            (mkRequest (Resolved v)
               (match rq_outer rq with Pending => Resolved v | o => o end)
               (rq_timer rq)))) >>
          clearTimeout (rq_timer rq)
      | _ => ret tt
      end
  | None => ret tt
  end.

(** [reject(err)] of the promise [promiseTimeout] returned. *)
Definition reject_outer (request : nat) (err : string) : M unit :=
  modify (set_requestStore (alter (fun rq =>
    mkRequest (rq_inner rq)
      (match rq_outer rq with Pending => Rejected err | o => o end)
      (rq_timer rq)) request)).

(** ** P2PConnector *)

Definition MSG_TYPE_CHECK_CHANNEL : string := "CHECK_CHANNEL".
Definition MSG_TYPE_REQUEST_PROOF_IDENTITY : string := "GET_PROOF_IDENTITY".
Definition MSG_TYPE_RESPONSE_PROOF_IDENTITY : string := "PROOF_IDENTITY".
Definition notAcceptedResponse : Value := VStr "notAcceptedResponse_@)(%$#&#&".

Definition status_text (status : OnlineStatus) : string :=
  match status with
  | online => "online"
  | offline => "offline"
  end.

(** The socket is obtained and the batch is sent asynchronously, with the
    channel tag ["webrtc"] put in front; the effect records the call. *)
Definition sendSignalingMessage (message : list Json) : M unit :=
  emit (SendSignaling message).

Definition setup (identity : option string) : M unit :=
  modify (set_pendingIdentity (fun _ => identity)).

(** The closure [sendOnlineStatus] of [setOnlineStatus]. *)
Definition sendOnlineStatus (status : OnlineStatus) : M unit :=
  sendSignalingMessage [[("type", "SET_ONLINE_STATUS"); ("status", status_text status)]].

Definition setOnlineStatus (status : OnlineStatus) : M unit :=
  let! s := get in
  (if Js.truthy (identity s) then sendOnlineStatus status
   else
     sendSignalingMessage [[("type", "WANT_PROVE_IDENTITY")]] >>
     modify (set_pendingOnlineStatus (fun _ => Some status))) >>
  modify (set_onlineStatus (fun _ => status)) >>
  match status with
  | offline => modify (set_identity (fun _ => None))
  | online => ret tt
  end.

(** [signalingMessageAwaitings.indexOf(f)]: the closures are compared by
    reference. *)
Definition indexOf (f : Awaiting) (l : list Awaiting) : option nat :=
  fst <$> list_find (fun g => aw_id g = aw_id f) l.

(** The closure [f] of [request], called with a message. *)
Definition awaiting_call (f : Awaiting) (msg : Msg) : M unit :=
  let v := handleResponse f msg in
  if decide (v = notAcceptedResponse) then ret tt
  else
    resolve (aw_id f) v >>
    let! s := get in
    match indexOf f (signalingMessageAwaitings s) with
    | Some i => modify (set_signalingMessageAwaitings (delete i))
    | None => ret tt
    end.

(** [signalingMessageAwaitings.forEach(f => f(msg))]. The array is the one
    the callbacks splice: [forEach] visits the indices below the length it
    found at the start, and reads each index, if it is still there, at the
    moment it gets to it. *)
Fixpoint forEach_awaitings (n k : nat) (msg : Msg) : M unit :=
  match n with
  | O => ret tt
  | S n' =>
      let! s := get in
      match signalingMessageAwaitings s !! k with
      | Some f => awaiting_call f msg
      | None => ret tt
      end >>
      forEach_awaitings n' (S k) msg
  end.

Definition dispatch_awaitings (msg : Msg) : M unit :=
  let! s := get in
  forEach_awaitings (length (signalingMessageAwaitings s)) 0 msg.

(** [request(request, handleResponse)] wrapped in [promiseTimeout(3000, p)];
    the result names the promise that is returned. The closure [f] is
    pushed and [request()] is called by the executor of the promise [p];
    [promiseTimeout] then arms the timer. An exception of [request()]
    rejects [p], and the [catch] callback that [promiseTimeout] attached
    clears the timer and rejects the outer promise. *)
Definition request (send : M unit) (handleResponse : Msg -> Value) : M nat :=
  let! s := get in
  let rid := fresh (dom (requestStore s)) in
  modify (set_signalingMessageAwaitings (fun l => l ++ [mkAwaiting rid handleResponse])%list) >>
  let! thrown := try_catch (send >> ret None) (fun e => ret (Some e)) in
  let! timer := setTimeout (TPromiseTimeout rid) 3000 in
  match thrown with
  | None => modify (set_requestStore (insert rid (mkRequest Pending Pending timer)))
  | Some e =>
      modify (set_requestStore (insert rid (mkRequest (Rejected e) (Rejected e) timer))) >>
      clearTimeout timer
  end >>
  ret rid.

Definition getPeerOnlineStatus (peerId : string) : M nat :=
  request
    (sendSignalingMessage [[("type", "GET_ONLINE_STATUS"); ("peerId", peerId)]])
    (fun msg =>
       if decide (msg_type msg = Some "ONLINE_STATUS" ∧ msg_peerId msg = Some peerId)
       then match msg_status msg with Some st => VStr st | None => VUndefined end
       else notAcceptedResponse).

Definition getTmp (roomName : string) : M nat :=
  request
    (sendSignalingMessage [[("type", "WHO_ONLINE")]])
    (fun msg =>
       if decide (msg_type msg = Some "WHO_ONLINE")
       then match msg_remotePeerIds msg with Some l => VArr l | None => VUndefined end
       else notAcceptedResponse).

Definition call (toPeerId caller : string) (room : option nat) : M unit :=
  let! room := deref room in
  let! ro := readRoom room in
  sendSignalingMessage
    [[("type", "CALL"); ("toPeerId", toPeerId); ("caller", caller); ("room", name ro)]].

(** The closure [requestEnterRoom] of [enter], which captures [room]. *)
Definition requestEnterRoom (room : nat) : M unit :=
  writeRoom room (set_approved true) >>
  let! ro := readRoom room in
  match entered (state ro) with
  | st_not =>
      writeRoom room (set_entered st_entering) >>
      setTimeout (TEnterTimeout room) 4000 >>
      sendSignalingMessage [[("type", "ROOM"); ("room", name ro)]]
  | _ => ret tt
  end.

(** The callback of the timer that [requestEnterRoom] arms. *)
Definition enterTimeout (room : nat) : M unit :=
  let! ro := readRoom room in
  match entered (state ro) with
  | st_entered => ret tt
  | _ => writeRoom room (set_entered st_not)
  end.

Definition enter (room : nat) (enforce : bool) : M unit :=
  let! ro := readRoom room in
  let! existingRoom := rooms_get (name ro) in
  let! returned :=
    match existingRoom with
    | Some existingRoom =>
        let! ero := readRoom existingRoom in
        match entered (state ero) with
        | st_entered =>
            if enforce then writeRoom existingRoom (set_entered st_not) >> ret false
            else ret true
        | _ => ret false
        end
    | None => ret false
    end in
  if returned : bool then ret tt
  else
    rooms_set (name ro) room >>
    let! s := get in
    if Js.truthy (identity s) then requestEnterRoom room
    else
      modify (set_pendingRooms (fun l => l ++ [room])%list) >>
      sendSignalingMessage [[("type", "WANT_PROVE_IDENTITY")]].

Section Connector.

Context {collaborators : Collaborators}.

(** [P2PMessaging.sign], which the connector holds as [this.sign]. *)
Definition sign (dataHex : option string) : M ProvingData :=
  let! s := get in
  ret (mkProvingData
         (signBytes dataHex (stringToHexString (user_secretPhrase s)))
         dataHex
         (user_publicKey s)).

(** A property whose value is [undefined] is left out by
    [JSON.stringify]. *)
Definition field (key : string) (value : option string) : Json :=
  match value with
  | Some v => [(key, v)]
  | None => []
  end.

Definition askPeerConnection (roomName peerId : string) : M (option nat) :=
  let! room := rooms_get roomName in
  let! room := deref room in
  let! peer := getPeer room peerId in
  let! peer := deref peer in
  let! po := readPeer peer in
  let! s := get in
  match peerConnection po with
  | Some pc =>
      if decide (pc ∈ iceConnected s) then ret tt else emit (PcClose pc)
  | None => ret tt
  end >>
  if pcConstructorThrows s then ret None
  else
    let pc := nextPc s in
    modify (set_nextPc S) >>
    emit (PcCreate pc roomName peerId) >>
    writePeer peer (set_peerConnection (fun _ => Some pc)) >>
    ret (Some pc).

Definition initDataChannel (roomName peerId : string) (dataChannel : nat) : M unit :=
  let! room := rooms_get roomName in
  let! room := deref room in
  let! peer := getPeer room peerId in
  let! peer := deref peer in
  writePeer peer (set_dataChannel (fun _ => Some dataChannel)).

Definition createDataChannel (room peerId : string) (peerConnection : option nat) : M unit :=
  let! s := get in
  match peerConnection with
  | Some pc =>
      if createDataChannelThrows s then ret tt
      else
        let dataChannel := nextChannel s in
        modify (set_nextChannel S) >>
        modify (set_readyStates (insert dataChannel rs_connecting)) >>
        emit (PcCreateDataChannel pc dataChannel (room ++ ":" ++ peerId)) >>
        initDataChannel room peerId dataChannel
  | None => ret tt
  end.

Definition onFailure (roomName peerId : string) : M unit :=
  let! room := rooms_get roomName in
  let! room := deref room in
  let! ro := readRoom room in
  when (onFailureHook ro) (emit (RoomOnFailure room peerId)).

Definition doOffer (roomName peerId : string) (peerConnection : option nat) : M unit :=
  let! room := rooms_get roomName in
  let! room := deref room in
  let! peer := getPeer room peerId in
  let! peer := deref peer in
  writePeer peer (set_connectionRole (fun _ => Some role_offer)) >>
  createDataChannel roomName peerId peerConnection >>
  let! pc := deref peerConnection in
  emit (PcCreateOffer pc roomName peerId).

Definition doAnswer (roomName peerId : string) (peerConnection : nat) : M unit :=
  let! room := rooms_get roomName in
  let! room := deref room in
  let! peer := getPeer room peerId in
  let! peer := deref peer in
  writePeer peer (set_connectionRole (fun role =>
    match role with
    | Some _ => Some role_no_need
    | None => Some role_answer
    end)) >>
  emit (PcCreateAnswer peerConnection roomName peerId).

Definition sendInternal (channel : nat) (data : Json) : M nat :=
  let! s := get in
  match readyState s channel with
  | rs_open =>
      emit (ChannelSend channel data) >>
      ret (if channelSendThrows channel data then 0 else 1)
  | _ => ret 0
  end.

Fixpoint sendAll (channels : list nat) (data : Json) (count : nat) : M nat :=
  match channels with
  | [] => ret count
  | channel :: channels' =>
      let! n := sendInternal channel data in
      sendAll channels' data (count + n)
  end.

(** [roomName && this.rooms.get(roomName)]: the empty name is falsy, and
    the room is not looked up for it. *)
Definition send (roomName : string) (data : Json) (channel : option nat) : M nat :=
  match channel with
  | Some channel => sendInternal channel data
  | None =>
      if Js.truthy_str roomName then
        let! room := rooms_get roomName in
        match room with
        | Some room =>
            let! channels := getDataChannels room in
            sendAll channels data 0
        | None => ret 0
        end
      else ret 0
  end.

(** [random1] is ["" + Math.random()], [random2] is [randomString()]. *)
Definition onOpenDataChannel (roomName peerId : string) (dataChannel : nat)
    (sendCheckingMessage : bool) (random1 random2 : string) : M unit :=
  when sendCheckingMessage (
    let checkChannelMessage :=
      [("type", MSG_TYPE_CHECK_CHANNEL); ("room", roomName); ("value", random1)] in
    sendSignalingMessage [checkChannelMessage] >>
    send roomName checkChannelMessage (Some dataChannel) >> ret tt) >>
  let! room := rooms_get roomName in
  let! room := deref room in
  let! ro := readRoom room in
  when (onOpenDataChannelHook ro) (emit (RoomOnOpenDataChannel room peerId)) >>
  let! peer := getPeer room peerId in
  let! peer := deref peer in
  writePeer peer (set_dataChannel (fun _ => Some dataChannel)) >>
  let challenge := stringToHexString random2 in
  writeRoom room (set_proofData (fun pd => Some (<[peerId := challenge]> (default ∅ pd)))) >>
  let! signedData := sign (Some challenge) in
  let proofRequest :=
    ([("type", MSG_TYPE_REQUEST_PROOF_IDENTITY); ("signature", signatureHex signedData)]
     ++ field "data" (dataHex signedData)
     ++ [("publicKey", publicKeyHex signedData)])%list in
  send roomName proofRequest (Some dataChannel) >> ret tt.

Definition onCloseDataChannel (roomName peerId : string) (dataChannel : nat) : M unit :=
  let! room := rooms_get roomName in
  let! room := deref room in
  let! peer := getPeer room peerId in
  let! peer := deref peer in
  writePeer peer (set_dataChannel (fun _ => None)) >>
  let! ro := readRoom room in
  when (onCloseDataChannelHook ro) (emit (RoomOnCloseDataChannel room peerId)).

(** The parsed message as it is passed on: the fields that are present, and
    the two the connector adds when the room is known. *)
Definition peerMsg_json (msg : PeerMsg) (added : Json) : Json :=
  (field "type" (pm_type msg) ++ field "signature" (pm_signature msg)
   ++ field "data" (pm_data msg) ++ field "publicKey" (pm_publicKey msg)
   ++ field "rejected" (pm_rejected msg) ++ field "room" (pm_room msg)
   ++ field "value" (pm_value msg) ++ added)%list.

(** The branch of [onMessage] for a message of type [PROOF_IDENTITY]. *)
Definition onProofIdentity (roomName peerId : string) (dataChannel : nat)
    (room : option nat) (msg : PeerMsg) : M unit :=
  if Js.truthy (pm_rejected msg) then
    let! room := deref room in
    let! ro := readRoom room in
    when (onRejectedHook ro)
      (emit (RoomOnRejected room peerId (default "" (pm_rejected msg)))) >>
    channel_close dataChannel
  else
    let! room := deref room in
    let! ro := readRoom room in
    let! sent := deref (proofData ro) in
    let rejectedReason :=
      if decide (sent !! peerId ≠ pm_data msg) then
        Some "Received data does not match the sent data"
      else if decide (pm_publicKey msg ≠ Some peerId) then
        Some "Received public key does not match the peer's public key"
      else if decide (Forall (fun member => Some member ≠ pm_publicKey msg) (memberPublicKeys ro)) then
        Some "Received public key is not allowed"
      else None in
    match rejectedReason with
    | Some reason =>
        let response := [("type", MSG_TYPE_RESPONSE_PROOF_IDENTITY); ("rejected", reason)] in
        send roomName response (Some dataChannel) >>
        channel_close dataChannel
    | None =>
        if verifyBytes (pm_signature msg) (pm_data msg) (pm_publicKey msg) then
          writeRoom room (set_proofData (fmap (delete peerId))) >>
          let! ro := readRoom room in
          emit (RoomProvenPublicKey room peerId (pm_publicKey msg)) >>
          if provenPublicKeyAllowed ro peerId (pm_publicKey msg) then ret tt
          else
            let response :=
              [("type", MSG_TYPE_RESPONSE_PROOF_IDENTITY);
               ("rejected", "Public key owner is not allowed to connect")] in
            send roomName response (Some dataChannel) >>
            channel_close dataChannel
        else
          let response :=
            [("type", MSG_TYPE_REQUEST_PROOF_IDENTITY); ("rejected", "Invalid signature")] in
          send roomName response (Some dataChannel) >>
          channel_close dataChannel
    end.

Definition onMessage (roomName peerId : string) (dataChannel : nat) (data : string) : M unit :=
  try_catch
    (let! msg := match parsePeer data with
                 | Some msg => ret msg
                 | None => throw "SyntaxError"
                 end in
     let! room := rooms_get roomName in
     let added :=
       match room with
       | Some _ => [("fromPeerId", peerId); ("roomName", roomName)]
       | None => []
       end in
     match room with
     | Some room => emit (RoomOnMessageInternal room msg peerId roomName)
     | None => ret tt
     end >>
     if decide (pm_type msg = Some MSG_TYPE_CHECK_CHANNEL) then
       sendSignalingMessage [[("room", roomName)]; peerMsg_json msg added]
     else if decide (pm_type msg = Some MSG_TYPE_REQUEST_PROOF_IDENTITY) then
       let! signedData := sign (pm_data msg) in
       let response :=
         ([("type", MSG_TYPE_RESPONSE_PROOF_IDENTITY); ("signature", signatureHex signedData)]
          ++ field "data" (dataHex signedData)
          ++ [("publicKey", publicKeyHex signedData)])%list in
       send roomName response (Some dataChannel) >> ret tt
     else if decide (pm_type msg = Some MSG_TYPE_RESPONSE_PROOF_IDENTITY) then
       onProofIdentity roomName peerId dataChannel room msg
     else ret tt)
    (fun _ => ret tt).

Definition closeRoom (room : nat) : M unit :=
  let! dataChannels := getDataChannels room in
  forEach dataChannels channel_close.

Definition close : M unit :=
  modify (set_identity (fun _ => None)) >>
  modify (set_pendingIdentity (fun _ => None)) >>
  modify (set_pendingRooms (fun _ => [])) >>
  modify (set_pendingOnlineStatus (fun _ => None)) >>
  let! s := get in
  forEach (map_to_list (rooms s)) (fun '(_, room) => closeRoom room).

(** The callback of the timer that the [candidate] branch arms; it captures
    the peer object, the room name and the sender of the candidate. *)
Definition reconnectTimeout (peer : nat) (roomName fromPeer : string) : M unit :=
  let! po := readPeer peer in
  if negb (isConnected po) && bool_decide (connectionRole po = Some role_answer) then
    writePeer peer (set_noNeedReconnect (fun _ => true)) >>
    let! pc := askPeerConnection roomName fromPeer in
    doOffer roomName fromPeer pc
  else ret tt.

Definition is_type (msg : Msg) (t : string) : bool :=
  bool_decide (msg_type msg = Some t).

Definition onSignalingMessage (data : string) : M unit :=
  let! s := get in
  match _onlineStatus s with
  | offline => ret tt
  | online =>
      let! msg := match parseSignaling data with
                  | Some msg => ret msg
                  | None => throw "SyntaxError"
                  end in
      let roomName := msg_room msg in
      if is_type msg "PONG" then ret tt
      else if is_type msg "PROVE_IDENTITY" then
        let! signedData := sign (msg_data msg) in
        sendSignalingMessage
          [([("signatureHex", signatureHex signedData)]
            ++ field "dataHex" (dataHex signedData)
            ++ [("publicKeyHex", publicKeyHex signedData);
                ("type", MSG_TYPE_RESPONSE_PROOF_IDENTITY)])%list]
      else if is_type msg "APPROVED_IDENTITY" then
        let! s := get in
        modify (set_identity (fun _ => pendingIdentity s)) >>
        forEach (pendingRooms s) requestEnterRoom >>
        modify (set_pendingRooms (fun _ => [])) >>
        let! s := get in
        match pendingOnlineStatus s with
        | Some status => sendOnlineStatus status
        | None => ret tt
        end >>
        modify (set_pendingOnlineStatus (fun _ => None))
      else if is_type msg "CALL" then
        emit (ConfirmIncomingCall (msg_caller msg) roomName)
      else if is_type msg "ERROR" then
        emit (SignalingError (msg_reason msg))
      else if is_type msg "WELCOME" then
        let! room := rooms_get roomName in
        let! room := deref room in
        writeRoom room (set_entered st_entered) >>
        let! remotePeerIds := deref (msg_remotePeerIds msg) in
        forEach remotePeerIds (fun peerId =>
          let! peer := createPeer room peerId peerId in
          match peer with
          | Some peer =>
              let! po := readPeer peer in
              if isConnected po then ret tt
              else
                let! pc := askPeerConnection roomName peerId in
                doOffer roomName peerId pc
          | None => ret tt
          end)
      else if is_type msg "offer" then
        let peerId := msg_fromPeer msg in
        let! room := rooms_get roomName in
        let! room := deref room in
        let! peer := createPeer room peerId peerId in
        match peer with
        | Some peer =>
            let! po := readPeer peer in
            if isConnected po then ret tt
            else
              let! pc := askPeerConnection roomName peerId in
              match pc with
              | Some pc => emit (PcSetRemoteDescription pc roomName peerId (msg_sdp msg))
              | None => ret tt
              end
        | None => ret tt
        end
      else if is_type msg "answer" then
        let! room := rooms_get roomName in
        let! room := deref room in
        let! peer := getPeer room (msg_fromPeer msg) in
        match peer with
        | Some peer =>
            let! po := readPeer peer in
            if isConnected po then ret tt
            else
              match peerConnection po with
              | Some pc =>
                  emit (PcSetRemoteDescription pc roomName (msg_fromPeer msg) (msg_sdp msg))
              | None => ret tt
              end
        | None => ret tt
        end
      else if is_type msg "candidate" then
        let! room := rooms_get roomName in
        let! room := deref room in
        let! peer := getPeer room (msg_fromPeer msg) in
        let! peer := deref peer in
        let! po := readPeer peer in
        let! pc := deref (peerConnection po) in
        emit (PcAddIceCandidate pc (msg_label msg) (msg_candidate msg)) >>
        if noNeedReconnect po then ret tt
        else setTimeout (TReconnect peer roomName (msg_fromPeer msg)) 2500 >> ret tt
      else if is_type msg "WRONGROOM" then ret tt
      else dispatch_awaitings msg
  end.

(** ** P2PMessaging *)

Definition generateOneToOneRoomName (peerOnePublicKey peerTwoPublicKey : string) : string :=
  let arr := [getAccountIdFromPublicKey peerOnePublicKey;
              getAccountIdFromPublicKey peerTwoPublicKey] in
  let arr := Js.sort arr in
  Js.at_str arr 0 ++ "-" ++ Js.at_str arr 1.

Definition setupRoom (room : nat) : M nat :=
  writeRoom room (fun r =>
    mkRoom (name r) (state r) (memberPublicKeys r) (peers r) (proofData r)
      true true (onFailureHook r) (onRejectedHook r)) >>
  ret room.

(** Modelled from the spec: Room.enter, which asks the connector to enter
    this room. *)
Definition Room_enter (room : nat) : M unit := enter room false.

Definition getOneToOneRoom (peerId : string) (required : bool) : M (option nat) :=
  let! s := get in
  let roomName := generateOneToOneRoomName (user_publicKey s) peerId in
  let! room := rooms_get roomName in
  let! room :=
    match room with
    | None =>
        if required then
          let! room := newRoom roomName [peerId] in
          let! room := setupRoom room in
          rooms_set roomName room >> ret (Some room)
        else ret None
    | Some room => ret (Some room)
    end in
  match room with
  | Some room =>
      let! ro := readRoom room in
      if Nat.leb (size (peers ro)) 1 then ret (Some room) else ret None
  | None => ret None
  end.

(** [null] is [None]. *)
Definition enterRoom (peerId : string) : M (option nat) :=
  let! s := get in
  match _onlineStatus s with
  | offline => ret None
  | online =>
      let roomName := generateOneToOneRoomName (user_publicKey s) peerId in
      let! room := rooms_get roomName in
      let! room :=
        match room with
        | None =>
            let! room := newRoom roomName [peerId] in
            let! room := setupRoom room in
            rooms_set roomName room >> ret room
        | Some room => ret room
        end in
      let! ro := readRoom room in
      match entered (state ro) with
      | st_not => Room_enter room
      | _ => ret tt
      end >>
      ret (Some room)
  end.

Definition P2PMessaging_call (peerId : string) : M (option nat) :=
  let! room := enterRoom peerId in
  let! s := get in
  call peerId (user_publicKey s) room >>
  ret room.

Definition createRoomOnIncomingCall (roomName peerId : string) : M nat :=
  let! room := rooms_get roomName in
  match room with
  | None =>
      let! room := newRoom roomName [peerId] in
      let! room := setupRoom room in
      rooms_set roomName room >> ret room
  | Some room => ret room
  end.

(** ** The event loop *)

Inductive Event :=
(* calls of the application layer *)
| EvSetup (identity : option string)
| EvSetOnlineStatus (status : OnlineStatus)
| EvEnterRoom (peerId : string)
| EvCall (peerId : string)
| EvGetOneToOneRoom (peerId : string) (required : bool)
| EvGetPeerOnlineStatus (peerId : string)
| EvGetTmp (roomName : string)
| EvSendMessage (roomName : string) (message : Json)
| EvClose
(* the web socket and the timers *)
| EvSignalingMessage (data : string)
| EvTimer (timer : nat)
(* continuations of promises *)
| EvCallConfirmed (roomName caller : string)
| EvRemoteDescriptionSet (roomName peerId : string) (pc : nat)
| EvRemoteDescriptionFailed (room : nat) (peerId : string)
| EvLocalDescriptionSet (roomName peerId description : string)
| EvNegotiationFailed (roomName peerId : string)
(* callbacks of a peer connection and of a data channel *)
| EvIceCandidate (roomName peerId label id candidate : string)
| EvDataChannel (peer : nat) (roomName peerId : string) (dataChannel : nat)
| EvIceDisconnected (peer : nat) (roomName peerId : string)
| EvOpenDataChannel (roomName peerId : string) (dataChannel : nat)
    (sendCheckingMessage : bool) (random1 random2 : string)
| EvCloseDataChannel (roomName peerId : string) (dataChannel : nat)
| EvChannelMessage (roomName peerId : string) (dataChannel : nat) (data : string)
(* changes of what the connector reads from WebRTC and from a peer *)
| EvReadyState (dataChannel : nat) (readyState : ReadyState)
| EvIceConnected (pc : nat) (connected : bool)
| EvPeerIsConnected (peer : nat) (connected : bool)
| EvWebRtcFaults (pcConstructorThrows createDataChannelThrows : bool).

Definition runTask (task : Task) : M unit :=
  match task with
  | TEnterTimeout room => enterTimeout room
  | TReconnect peer roomName fromPeer => reconnectTimeout peer roomName fromPeer
  | TPromiseTimeout request => reject_outer request "promise timeout"
  end.

Definition fireTimer (timer : nat) : M unit :=
  let! s := get in
  match timers s !! timer with
  | Some (_, task) => clearTimeout timer >> runTask task
  | None => ret tt
  end.

Definition handle (ev : Event) : M unit :=
  match ev with
  | EvSetup identity => setup identity
  | EvSetOnlineStatus status => setOnlineStatus status
  | EvEnterRoom peerId => enterRoom peerId >> ret tt
  | EvCall peerId => P2PMessaging_call peerId >> ret tt
  | EvGetOneToOneRoom peerId required => getOneToOneRoom peerId required >> ret tt
  | EvGetPeerOnlineStatus peerId => getPeerOnlineStatus peerId >> ret tt
  | EvGetTmp roomName => getTmp roomName >> ret tt
  | EvSendMessage roomName message => send roomName message None >> ret tt
  | EvClose => close
  | EvSignalingMessage data => onSignalingMessage data
  | EvTimer timer => fireTimer timer
  | EvCallConfirmed roomName caller =>
      let! room := createRoomOnIncomingCall roomName caller in
      enter room true
  | EvRemoteDescriptionSet roomName peerId pc => doAnswer roomName peerId pc
  | EvRemoteDescriptionFailed room peerId =>
      let! ro := readRoom room in
      when (onFailureHook ro) (emit (RoomOnFailure room peerId))
  | EvLocalDescriptionSet roomName peerId description =>
      sendSignalingMessage
        [[("room", roomName); ("toPeerId", peerId)]; [("description", description)]]
  | EvNegotiationFailed roomName peerId => onFailure roomName peerId
  | EvIceCandidate roomName peerId label id candidate =>
      sendSignalingMessage
        [[("room", roomName); ("toPeerId", peerId)];
         [("type", "candidate"); ("label", label); ("id", id); ("candidate", candidate)]]
  | EvDataChannel peer roomName peerId dataChannel =>
      initDataChannel roomName peerId dataChannel >>
      writePeer peer (set_dataChannel (fun _ => Some dataChannel))
  | EvIceDisconnected peer roomName peerId =>
      let! po := readPeer peer in
      match dataChannel po with
      | Some channel => channel_close channel >> onCloseDataChannel roomName peerId channel
      | None => ret tt
      end
  | EvOpenDataChannel roomName peerId dataChannel sendCheckingMessage random1 random2 =>
      onOpenDataChannel roomName peerId dataChannel sendCheckingMessage random1 random2
  | EvCloseDataChannel roomName peerId dataChannel =>
      onCloseDataChannel roomName peerId dataChannel
  | EvChannelMessage roomName peerId dataChannel data =>
      onMessage roomName peerId dataChannel data
  | EvReadyState dataChannel readyState =>
      modify (set_readyStates (insert dataChannel readyState))
  | EvIceConnected pc connected =>
      modify (set_iceConnected (fun pcs =>
        if connected then {[pc]} ∪ pcs else pcs ∖ {[pc]}))
  | EvPeerIsConnected peer connected =>
      writePeer peer (set_isConnected (fun _ => connected))
  | EvWebRtcFaults pcThrows dcThrows =>
      modify (set_pcConstructorThrows (fun _ => pcThrows)) >>
      modify (set_createDataChannelThrows (fun _ => dcThrows))
  end.

(** One turn of the event loop: an exception that no handler catches ends
    the turn and leaves the state as the handler left it. *)
Definition step (s : Conn) (ev : Event) : Conn := state_of (handle ev s).

Definition output (s : Conn) (ev : Event) : list Effect := effects_of (handle ev s).

Definition run (s : Conn) (evs : list Event) : Conn := foldl step s evs.

(** The state of a connector that was just constructed. *)
Definition initial (publicKey secretPhrase : string) : Conn :=
  mkConn ∅ [] None None [] None offline publicKey secretPhrase
    ∅ ∅ ∅ ∅ 0 ∅ ∅ false false 0 0.

End Connector.

(** ** A concrete set of collaborators, for the examples *)

Definition demo_msg (type : string) : Msg :=
  mkMsg (Some type) "" None "" "" None "" None None "" "" "".

Definition demo_status (peerId status : string) : Msg :=
  mkMsg (Some "ONLINE_STATUS") "" None "" "" None "" (Some peerId) (Some status) "" "" "".

Definition demo_candidate (roomName fromPeer : string) : Msg :=
  mkMsg (Some "candidate") roomName None "" "" None fromPeer None None "0" "candidate" "".

Definition demo_offer (roomName fromPeer : string) : Msg :=
  mkMsg (Some "offer") roomName None "" "" None fromPeer None None "" "" "sdp".

Definition demo_proof (signature data publicKey : string) : PeerMsg :=
  mkPeerMsg (Some "PROOF_IDENTITY") (Some signature) (Some data) (Some publicKey) None None None.

(** The frames are named by short texts; a signature is good when it is the
    text ["signed:"] followed by the key. *)
Definition demo : Collaborators := {|
  getAccountIdFromPublicKey := fun publicKey => publicKey;
  signBytes := fun _ secretPhrase => "signed:" ++ secretPhrase;
  verifyBytes := fun signature _ publicKey =>
    bool_decide (signature = (fun key => "signed:" ++ key) <$> publicKey);
  stringToHexString := fun text => text;
  parseSignaling := fun data =>
    if decide (data = "approved") then Some (demo_msg "APPROVED_IDENTITY")
    else if decide (data = "B online") then Some (demo_status "B" "online")
    else if decide (data = "candidate") then Some (demo_candidate "A-B" "B")
    else if decide (data = "offer") then Some (demo_offer "A-B" "B")
    else None;
  parsePeer := fun data =>
    if decide (data = "proof of C") then Some (demo_proof "signed:C" "challenge" "C")
    else if decide (data = "stale proof of B") then Some (demo_proof "signed:B" "old" "B")
    else None;
  provenPublicKeyAllowed := fun _ _ _ => true;
  channelSendThrows := fun _ _ => false
|}.

(** ** Vocabulary of the statements *)

(** The rejection that [onMessage] sends to the peer. *)
Definition rejection (reason : string) : Json :=
  [("type", MSG_TYPE_RESPONSE_PROOF_IDENTITY); ("rejected", reason)].

(** The join request of a room. *)
Definition joinRequest (roomName : string) : Effect :=
  SendSignaling [[("type", "ROOM"); ("room", roomName)]].

Definition wantProveIdentity : Effect :=
  SendSignaling [[("type", "WANT_PROVE_IDENTITY")]].

(** The entry state of the room object [room]. *)
Definition enteredOf (s : Conn) (room : nat) : option EnterRoomState :=
  (fun ro => entered (state ro)) <$> roomStore s !! room.

(** The name of the room object [room]. *)
Definition roomNameOf (s : Conn) (room : nat) : string :=
  default "" (name <$> roomStore s !! room).

(** Whether the room object [room] is in the entry state ["not"]. *)
Definition awaitsEntry (s : Conn) (room : nat) : bool :=
  bool_decide (enteredOf s room = Some st_not).

(** A queue without the repetitions of an earlier element. *)
Fixpoint firstOccurrences (queue : list nat) : list nat :=
  match queue with
  | [] => []
  | room :: queue' => room :: filter (fun other => other ≠ room) (firstOccurrences queue')
  end.

(** The state that [requestEnterRoom] leaves for a room that is in the
    store. *)
Definition requestedEntry (room : nat) (s : Conn) : Conn :=
  if awaitsEntry s room then
    set_nextTimer S
      (set_timers (insert (nextTimer s) (4000%Z, TEnterTimeout room))
        (set_roomStore (alter (set_entered st_entering) room)
          (set_roomStore (alter (set_approved true) room) s)))
  else set_roomStore (alter (set_approved true) room) s.


(** The matcher [f] accepts [msg]: its result is not the sentinel. *)
Definition accepts (msg : Msg) (f : Awaiting) : Prop :=
  handleResponse f msg ≠ notAcceptedResponse.

#[global] Instance accepts_dec (msg : Msg) (f : Awaiting) : Decision (accepts msg f).
Proof. unfold accepts. apply _. Defined.

(** The message types that a branch of [onSignalingMessage] handles. *)
Definition handledTypes : list string :=
  ["PONG"; "PROVE_IDENTITY"; "APPROVED_IDENTITY"; "CALL"; "ERROR"; "WELCOME";
   "offer"; "answer"; "candidate"; "WRONGROOM"].

Definition unhandled (msg : Msg) : Prop :=
  Forall (fun t => msg_type msg ≠ Some t) handledTypes.

(** What [resolve(v)] makes of a request. *)
Definition settledBy (v : Value) (rq : Request) : Request :=
  match rq_inner rq with
  | Pending =>
      mkRequest (Resolved v)
        (match rq_outer rq with Pending => Resolved v | o => o end) (rq_timer rq)
  | _ => rq
  end.

(** The list of matchers without the first one that accepts [msg]. *)
Fixpoint removeFirstAccepting (msg : Msg) (l : list Awaiting) : list Awaiting :=
  match l with
  | [] => []
  | f :: l' => if decide (accepts msg f) then l' else f :: removeFirstAccepting msg l'
  end.

(** The dispatch of an unhandled message as the specification words it:
    exactly the first matcher that accepts is removed, and no matcher that
    stays is resolved by the message. *)
Definition removesExactlyFirst {collaborators : Collaborators}
    (s : Conn) (data : string) (msg : Msg) : Prop :=
  let s' := step s (EvSignalingMessage data) in
  aw_id <$> signalingMessageAwaitings s' =
    aw_id <$> removeFirstAccepting msg (signalingMessageAwaitings s) ∧
  ∀ f, f ∈ removeFirstAccepting msg (signalingMessageAwaitings s) →
       requestStore s' !! aw_id f = requestStore s !! aw_id f.

(** The state after the closure [f] was called with [msg]. *)
Definition called (f : Awaiting) (msg : Msg) (s : Conn) : Conn :=
  state_of (awaiting_call f msg s).

(** The state after [forEach] visited the [n] indices from [k] on. *)
Fixpoint swept (n k : nat) (msg : Msg) (s : Conn) : Conn :=
  match n with
  | O => s
  | S n' =>
      swept n' (S k) msg
        (match signalingMessageAwaitings s !! k with
         | Some f => called f msg s
         | None => s
         end)
  end.

(** Three requests are pending: for the online status of ["B"], of ["C"]
    and of ["B"] again. *)
Definition threePending : Conn :=
  @run demo (initial "A" "secret")
    [EvSetOnlineStatus online;
     EvGetPeerOnlineStatus "B"; EvGetPeerOnlineStatus "C"; EvGetPeerOnlineStatus "B"].

(** ** Invariants of handlers *)

(** [m], started in [s], ends normally in a state and with a result that
    satisfy [Q], or throws in a state that satisfies [E]. *)
Definition wp {A} (m : M A) (Q : A -> Conn -> Prop) (E : Conn -> Prop) (s : Conn) : Prop :=
  match m s with
  | (Ok a, s', _) => Q a s'
  | (Throw _, s', _) => E s'
  end.

(** [m] keeps [I], also when it throws. *)
Definition keeps {A} (I : Conn -> Prop) (m : M A) : Prop :=
  ∀ s, I s → wp m (fun _ => I) I s.

(** What a run keeps true of the request [rid] with the timer [timer] when
    its matcher never accepts: the matcher is registered, the promise of
    the matcher is pending, and the promise that was returned is pending
    with the timer armed, or rejected by the timer. *)
Definition awaitingTimeout (rid timer : nat) (s : Conn) : Prop :=
  (∃ f, f ∈ signalingMessageAwaitings s ∧ aw_id f = rid) ∧
  (∀ g msg, g ∈ signalingMessageAwaitings s → aw_id g = rid →
            handleResponse g msg = notAcceptedResponse) ∧
  (∃ rq, requestStore s !! rid = Some rq ∧ rq_inner rq = Pending ∧ rq_timer rq = timer ∧
         ((rq_outer rq = Pending ∧
           timers s !! timer = Some (3000%Z, TPromiseTimeout rid)) ∨
          (rq_outer rq = Rejected "promise timeout" ∧ timers s !! timer = None))) ∧
  timer < nextTimer s ∧
  (∀ rid' rq', requestStore s !! rid' = Some rq' → rid' ≠ rid → rq_timer rq' ≠ timer) ∧
  (∀ t ms, timers s !! t = Some (ms, TPromiseTimeout rid) → t = timer).

(** The requests, their matchers and their timers fit together: a matcher
    and a timer belong to a request that exists, and the timer of a request
    was handed out by [setTimeout]. *)
Definition requestsWf (s : Conn) : Prop :=
  (∀ f, f ∈ signalingMessageAwaitings s → aw_id f ∈ dom (requestStore s)) ∧
  (∀ rid rq, requestStore s !! rid = Some rq → rq_timer rq < nextTimer s) ∧
  (∀ t ms rid, timers s !! t = Some (ms, TPromiseTimeout rid) →
               rid ∈ dom (requestStore s)).

(** The request as the specification words it: once the timer has fired,
    the promise is rejected and the matcher is gone from the list. *)
Definition deregisteredOnTimeout {collaborators : Collaborators}
    (s : Conn) (message : list Json) (h : Msg -> Value) : Prop :=
  let o := request (sendSignalingMessage message) h s in
  let rid := fresh (dom (requestStore s)) in
  let s' := step (state_of o) (EvTimer (nextTimer s)) in
  rq_outer <$> requestStore s' !! rid = Some (Rejected "promise timeout") ∧
  rid ∉ aw_id <$> signalingMessageAwaitings s'.

(** ** Vocabulary of the reconnection *)

(** The peer object [peer] is the peer [peerId] of the room that is
    registered under [roomName]. *)
Definition registered (s : Conn) (roomName peerId : string) (peer : nat) : Prop :=
  ∃ room ro,
    rooms s !! roomName = Some room ∧ roomStore s !! room = Some ro ∧
    peers ro !! peerId = Some peer.

(** A room is registered under its own name, and the peer that a pending
    reconnection timer captured is the registered peer it names. *)
Definition wellFormed (s : Conn) : Prop :=
  (∀ roomName room, rooms s !! roomName = Some room →
     ∃ ro, roomStore s !! room = Some ro ∧ name ro = roomName) ∧
  (∀ timer ms peer roomName fromPeer,
     timers s !! timer = Some (ms, TReconnect peer roomName fromPeer) →
     registered s roomName fromPeer peer).

(** The role of a peer that made an offer: ['offer'] or ['no need']. *)
Definition offered (po : Peer) : Prop :=
  connectionRole po = Some role_offer ∨ connectionRole po = Some role_no_need.

Definition offering (peer : nat) (s : Conn) : Prop :=
  ∃ po, peerStore s !! peer = Some po ∧ offered po.

(** The event [ev] is a reconnection timer of [peer] that finds the peer
    not connected and in the role ['answer'], so that its callback makes
    the offer again. *)
Definition reconnects (s : Conn) (ev : Event) (peer : nat) : bool :=
  match ev with
  | EvTimer timer =>
      match timers s !! timer with
      | Some (_, TReconnect p _ _) =>
          bool_decide (p = peer) &&
          match peerStore s !! p with
          | Some po =>
              negb (isConnected po) && bool_decide (connectionRole po = Some role_answer)
          | None => false
          end
      | _ => false
      end
  | _ => false
  end.

(** What the turn of [ev] emits when [ev] is the firing of a reconnection
    timer that captured the peer object [peer]; nothing for another
    event. *)
Definition reoffer {collaborators : Collaborators}
    (s : Conn) (ev : Event) (peer : nat) : list Effect :=
  match ev with
  | EvTimer timer =>
      match timers s !! timer with
      | Some (_, TReconnect p _ _) => if decide (p = peer) then output s ev else []
      | _ => []
      end
  | _ => []
  end.

(** Everything that the reconnection timers of [peer] emit in a run. *)
Fixpoint reoffers {collaborators : Collaborators}
    (s : Conn) (evs : list Event) (peer : nat) : list Effect :=
  match evs with
  | [] => []
  | ev :: evs' => reoffer s ev peer ++ reoffers (step s ev) evs' peer
  end.

(** How many offers are created in [out]. *)
Fixpoint offersIn (out : list Effect) : nat :=
  match out with
  | [] => 0
  | PcCreateOffer _ _ _ :: out' => S (offersIn out')
  | _ :: out' => offersIn out'
  end.

(** The connection that [askPeerConnection] closes: the one the peer has,
    unless its ICE state is ['connected']. *)
Definition closedConnection (s : Conn) (po : Peer) : list Effect :=
  match peerConnection po with
  | Some old => if decide (old ∈ iceConnected s) then [] else [PcClose old]
  | None => []
  end.

(** The peer object [peer] has just been made the offerer by the
    reconnection: its role is ['offer'] and its one-shot flag is set. *)
Definition reoffered (peer : nat) (s : Conn) : Prop :=
  ∃ po, peerStore s !! peer = Some po ∧
        connectionRole po = Some role_offer ∧ noNeedReconnect po = true.

(** ** States of the examples *)

(** ["A"] is online with its identity approved. *)
Definition approvedA : Conn :=
  @run demo (initial "A" "secret")
    [EvSetup (Some "A"); EvSetOnlineStatus online; EvSignalingMessage "approved"].

(** ["A"] has entered the room with ["B"], has answered the offer of ["B"],
    and the data channel 7 has opened with the challenge ["challenge"]. *)
Definition channelOpen : Conn :=
  @run demo approvedA
    [EvEnterRoom "B"; EvSignalingMessage "offer"; EvRemoteDescriptionSet "A-B" "B" 0;
     EvOpenDataChannel "A-B" "B" 7 false "0.5" "challenge"; EvReadyState 7 rs_open].

(** The room with ["B"] exists and has not been entered. *)
Definition roomCreated : Conn :=
  @run demo approvedA [EvGetOneToOneRoom "B" true].


(** ["A"] has answered the offer of ["B"]. *)
Definition answering : list Event :=
  [EvSetup (Some "A"); EvSetOnlineStatus online; EvSignalingMessage "approved";
   EvEnterRoom "B"; EvSignalingMessage "offer"; EvRemoteDescriptionSet "A-B" "B" 0].

(** Three candidates arrive, and the three timers fire. *)
Definition candidates : list Event :=
  [EvSignalingMessage "candidate"; EvSignalingMessage "candidate";
   EvSignalingMessage "candidate"; EvTimer 1; EvTimer 2; EvTimer 3].

(** ** Vocabulary of the identity proofs between peers *)

(** The proof request that [onOpenDataChannel] sends. *)
Definition proofRequest (signedData : ProvingData) : Json :=
  ([("type", MSG_TYPE_REQUEST_PROOF_IDENTITY); ("signature", signatureHex signedData)]
   ++ field "data" (dataHex signedData)
   ++ [("publicKey", publicKeyHex signedData)])%list.

(** The proof that [onMessage] sends in answer to a proof request. *)
Definition proofResponse (signedData : ProvingData) : Json :=
  ([("type", MSG_TYPE_RESPONSE_PROOF_IDENTITY); ("signature", signatureHex signedData)]
   ++ field "data" (dataHex signedData)
   ++ [("publicKey", publicKeyHex signedData)])%list.

(** What [sign] makes of [data] for the user of the connector [s]. *)
Definition signedBy {collaborators : Collaborators} (s : Conn) (data : option string) :
    ProvingData :=
  mkProvingData (signBytes data (stringToHexString (user_secretPhrase s))) data
    (user_publicKey s).

(** The parsed form of a proof. *)
Definition proofOf (signedData : ProvingData) : PeerMsg :=
  mkPeerMsg (Some MSG_TYPE_RESPONSE_PROOF_IDENTITY) (Some (signatureHex signedData))
    (dataHex signedData) (Some (publicKeyHex signedData)) None None None.

(** What [onMessage] hands to the room before it looks at the type. *)
Definition handedToRoom (s : Conn) (roomName peerId : string) (msg : PeerMsg) : list Effect :=
  match rooms s !! roomName with
  | Some room => [RoomOnMessageInternal room msg peerId roomName]
  | None => []
  end.

(** The challenge that the room registered under [roomName] has recorded
    for [peerId]. *)
Definition challengeOf (s : Conn) (roomName peerId : string) : option string :=
  rooms s !! roomName ≫= fun room =>
  roomStore s !! room ≫= fun ro =>
  proofData ro ≫= fun sent => sent !! peerId.

(** The notice of a bad signature, which the code sends with the type of a
    proof request. *)
Definition invalidSignature : Json :=
  [("type", MSG_TYPE_REQUEST_PROOF_IDENTITY); ("rejected", "Invalid signature")].

(** The reason for which the three checks that come before the signature
    reject a proof, if one does. *)
Definition rejectedReason (ro : Room) (sent : gmap string string) (peerId : string)
    (msg : PeerMsg) : option string :=
  if decide (sent !! peerId ≠ pm_data msg) then
    Some "Received data does not match the sent data"
  else if decide (pm_publicKey msg ≠ Some peerId) then
    Some "Received public key does not match the peer's public key"
  else if decide (Forall (fun member => Some member ≠ pm_publicKey msg) (memberPublicKeys ro)) then
    Some "Received public key is not allowed"
  else None.

(** ** The web socket of the connector *)

(** [getWebSocket], [sendSignalingMessage], [pingSignalingServer] and
    [onSignalingChannelClosed], with the promise of the socket, the
    callbacks that [then] attached to it while it was pending, and the
    keepalive interval. A promise and the socket its executor creates
    share one number. *)
Module Signaling.

(** The callbacks that the code attaches to the promise of a socket: the
    one of [sendSignalingMessage], which sends, and the one of [close],
    which closes the socket. *)
Inductive Callback :=
| ThenSend (message : list Json)
| ThenClose.

Inductive SocketPromise :=
| Connecting (callbacks : list Callback)
| Fulfilled
| Broken.

(** Calls on a web socket. [WsSend] is [websocket.send] of the batch with
    the tag put in front. *)
Inductive Wire :=
| WsNew (socket : nat)
| WsSend (socket : nat) (tag : string) (message : list Json)
| WsClose (socket : nat).

Record Link := mkLink {
  webSocketPromise : option nat;
  (** [null], [true] or [false] *)
  signalingReady : option bool;
  pingSignalingInterval : option nat;
  promises : gmap nat SocketPromise;
  (** the sockets whose [onmessage] and [onclose] are set *)
  listening : gset nat;
  (** the intervals of [$interval] that have not been cancelled *)
  intervals : gset nat;
  (** whether [new WebSocket(url)] throws *)
  webSocketThrows : bool;
  nextSocket : nat;
  nextInterval : nat
}.

Definition initial : Link := mkLink None None None ∅ ∅ ∅ false 0 0.

(** The executor of the promise that [getWebSocket] creates. An exception
    of the constructor rejects the promise. *)
Definition newWebSocket (l : Link) : nat * Link * list Wire :=
  let p := nextSocket l in
  if webSocketThrows l then
    (p,
     mkLink (Some p) (signalingReady l) (pingSignalingInterval l)
       (<[p := Broken]> (promises l)) (listening l) (intervals l)
       (webSocketThrows l) (S p) (nextInterval l),
     [])
  else
    (p,
     mkLink (Some p) (signalingReady l) (pingSignalingInterval l)
       (<[p := Connecting []]> (promises l)) (listening l) (intervals l)
       (webSocketThrows l) (S p) (nextInterval l),
     [WsNew p]).

Definition getWebSocket (l : Link) : nat * Link * list Wire :=
  match webSocketPromise l with
  | Some p =>
      if decide (signalingReady l = Some false) then newWebSocket l
      else (p, l, [])
  | None => newWebSocket l
  end.

(** What a callback does with the socket it is given. *)
Definition fulfil (socket : nat) (callback : Callback) : Wire :=
  match callback with
  | ThenSend message => WsSend socket "webrtc" message
  | ThenClose => WsClose socket
  end.

(** [promise.then(callback, ...)]: the callback waits while the promise is
    pending, runs when it is fulfilled, and is dropped when it is
    rejected. *)
Definition then_ (p : nat) (callback : Callback) (l : Link) : Link * list Wire :=
  match promises l !! p with
  | Some (Connecting callbacks) =>
      (mkLink (webSocketPromise l) (signalingReady l) (pingSignalingInterval l)
         (<[p := Connecting (callbacks ++ [callback])]> (promises l))
         (listening l) (intervals l) (webSocketThrows l) (nextSocket l) (nextInterval l),
       [])
  | Some Fulfilled => (l, [fulfil p callback])
  | Some Broken => (l, [])
  | None => (l, [])
  end.

Definition sendSignalingMessage (message : list Json) (l : Link) : Link * list Wire :=
  let '(p, l1, out1) := getWebSocket l in
  let '(l2, out2) := then_ p (ThenSend message) l1 in
  (l2, (out1 ++ out2)%list).

Definition pingSignalingServer (l : Link) : Link * list Wire :=
  match signalingReady l with
  | Some true => sendSignalingMessage [[("type", "PING")]] l
  | _ => (l, [])
  end.

Definition onSignalingChannelClosed (l : Link) : Link :=
  mkLink (webSocketPromise l) (Some false) (pingSignalingInterval l) (promises l)
    (listening l)
    (match pingSignalingInterval l with
     | Some interval => intervals l ∖ {[interval]}
     | None => intervals l
     end)
    (webSocketThrows l) (nextSocket l) (nextInterval l).

(** [socket.onopen]. [resolve] does nothing to a promise that is settled;
    a socket that was never made has no handler. *)
Definition onopen (socket : nat) (l : Link) : Link * list Wire :=
  let interval := nextInterval l in
  let cancelled :=
    match pingSignalingInterval l with
    | Some old => intervals l ∖ {[old]}
    | None => intervals l
    end in
  let ready (promises' : gmap nat SocketPromise) :=
    mkLink (webSocketPromise l) (Some true) (Some interval) promises'
      ({[socket]} ∪ listening l) ({[interval]} ∪ cancelled)
      (webSocketThrows l) (nextSocket l) (S interval) in
  match promises l !! socket with
  | Some (Connecting callbacks) =>
      (ready (<[socket := Fulfilled]> (promises l)), fulfil socket <$> callbacks)
  | Some _ => (ready (promises l), [])
  | None => (l, [])
  end.

(** [socket.onerror] *)
Definition onerror (socket : nat) (l : Link) : Link :=
  match promises l !! socket with
  | Some (Connecting _) =>
      mkLink (webSocketPromise l) (signalingReady l) (pingSignalingInterval l)
        (<[socket := Broken]> (promises l)) (listening l) (intervals l)
        (webSocketThrows l) (nextSocket l) (nextInterval l)
  | _ => l
  end.

(** [socket.onclose], which is set when the socket opens. *)
Definition onclose (socket : nat) (l : Link) : Link :=
  if decide (socket ∈ listening l) then onSignalingChannelClosed l else l.

(** The end of [close]: the socket is closed when the channel is ready. *)
Definition close (l : Link) : Link * list Wire :=
  match signalingReady l with
  | Some true =>
      let '(p, l1, out1) := getWebSocket l in
      let '(l2, out2) := then_ p ThenClose l1 in
      (l2, (out1 ++ out2)%list)
  | _ => (l, [])
  end.

Inductive Event :=
| Send (message : list Json)
| Close
| Open (socket : nat)
| Error (socket : nat)
| Closed (socket : nat)
| Tick (interval : nat)
| WebSocketThrows (throws : bool).

Definition handle (ev : Event) (l : Link) : Link * list Wire :=
  match ev with
  | Send message => sendSignalingMessage message l
  | Close => close l
  | Open socket => onopen socket l
  | Error socket => (onerror socket l, [])
  | Closed socket => (onclose socket l, [])
  | Tick interval =>
      if decide (interval ∈ intervals l) then pingSignalingServer l else (l, [])
  | WebSocketThrows throws =>
      (mkLink (webSocketPromise l) (signalingReady l) (pingSignalingInterval l)
         (promises l) (listening l) (intervals l) throws (nextSocket l) (nextInterval l),
       [])
  end.

(** The state after a run, and the calls on the sockets in their order. *)
Fixpoint run (l : Link) (evs : list Event) : Link * list Wire :=
  match evs with
  | [] => (l, [])
  | ev :: evs' =>
      let '(l1, out1) := handle ev l in
      let '(l2, out2) := run l1 evs' in
      (l2, (out1 ++ out2)%list)
  end.

(** A socket opens, or closes after it was open. *)
Definition isOpen (ev : Event) : Prop :=
  match ev with
  | Open _ => True
  | _ => False
  end.

End Signaling.

(** ** Queries of the application layer *)

(** [P2PMessaging.isPeerConnected]. [peer && peer.isConnected()] is
    [undefined] when the room has no such peer: [None] here. *)
Definition isPeerConnected {collaborators : Collaborators} (peerId : string) :
    M (option bool) :=
  let! room := getOneToOneRoom peerId false in
  match room with
  | Some room =>
      let! peer := getPeer room peerId in
      match peer with
      | Some peer => let! po := readPeer peer in ret (Some (isConnected po))
      | None => ret None
      end
  | None => ret (Some false)
  end.

(** [UserContactsComponent.p2pStatus] of the contact with that public key;
    [None] is [undefined]. *)
Definition p2pStatus {collaborators : Collaborators} (publicKey : string) :
    M (option string) :=
  let! room := getOneToOneRoom publicKey false in
  match room with
  | Some room =>
      let! peer := getPeer room publicKey in
      let! connected :=
        match peer with
        | Some peer => let! po := readPeer peer in ret (isConnected po)
        | None => ret false
        end in
      if connected : bool then ret (Some "channelOpened")
      else
        let! ro := readRoom room in
        if decide (entered (state ro) ≠ st_not) then ret (Some "roomRegistered")
        else ret None
  | None => ret None
  end.

(** Whether the peer [peerId] of the room is there and connected. *)
Definition connectedPeer (s : Conn) (ro : Room) (peerId : string) : Res (option bool) :=
  match peers ro !! peerId with
  | Some peer =>
      match peerStore s !! peer with
      | Some po => Ok (Some (isConnected po))
      | None => Throw TypeError
      end
  | None => Ok None
  end.

(** ** The popup of a new message *)

(** [text.lastIndexOf(c)] for a single character; [-1] when there is
    none. *)
Fixpoint lastIndexOf (c : ascii) (text : string) : Z :=
  match text with
  | EmptyString => -1
  | String a text' =>
      match lastIndexOf c text' with
      | Zneg _ => if decide (a = c) then 0 else -1
      | i => i + 1
      end
  end%Z.

(** The excerpt of the text that [displayNewMessagePopup] shows. *)
Definition popupExcerpt (msgText : string) : string :=
  let text := substring 0 50 msgText in
  if (50 <? String.length msgText)%nat then
    let lastSpaceIndex := Z.max (lastIndexOf " " text) 30 in
    substring 0 (Z.to_nat lastSpaceIndex) text ++ " ..."
  else text.

(** The quotation mark. *)
Definition quote : string := String (ascii_of_nat 34) EmptyString.

(** [P2PMessaging.displayNewMessagePopup]: the text of the toast that is
    shown, if one is. *)
Definition displayNewMessagePopup {collaborators : Collaborators}
    (type text : option string) (fromPeerId : string) : option string :=
  if bool_decide (type = Some "chat") && Js.truthy text then
    let account := getAccountIdFromPublicKey fromPeerId in
    Some ("New message from " ++ account ++ ": " ++ quote
          ++ popupExcerpt (default "" text) ++ quote)
  else None.

(** ** Vocabulary of the handshake with the relay *)

(** The proof that answers [PROVE_IDENTITY]: what [sign] returned, with
    the type added. *)
Definition relayProof (signedData : ProvingData) : Effect :=
  SendSignaling
    [([("signatureHex", signatureHex signedData)]
      ++ field "dataHex" (dataHex signedData)
      ++ [("publicKeyHex", publicKeyHex signedData);
          ("type", MSG_TYPE_RESPONSE_PROOF_IDENTITY)])%list].

Definition setOnlineStatusMessage (status : OnlineStatus) : Effect :=
  SendSignaling [[("type", "SET_ONLINE_STATUS"); ("status", status_text status)]].

(** The message of [call]. *)
Definition callMessage (toPeerId caller roomName : string) : Effect :=
  SendSignaling
    [[("type", "CALL"); ("toPeerId", toPeerId); ("caller", caller); ("room", roomName)]].

(** The room that [new p2p.Room(...)] and [setupRoom] make. *)
Definition freshRoom (roomName peerId : string) : Room :=
  mkRoom roomName (mkRoomState st_not false) [peerId] ∅ None true true false false.


(** The entry state of the room that is registered under [roomName]. *)
Definition entryOf (s : Conn) (roomName : string) : option EnterRoomState :=
  rooms s !! roomName ≫= enteredOf s.

(** ** What every run keeps true of the identity *)

(** A connector that is offline has no identity attached; once an identity
    is attached nothing waits for the approval; and every room whose entry
    waits is a room object that exists. *)
Definition statusInvariant (s : Conn) : Prop :=
  (_onlineStatus s = offline → identity s = None) ∧
  (Js.truthy (identity s) = true → pendingRooms s = [] ∧ pendingOnlineStatus s = None) ∧
  Forall (fun room => is_Some (roomStore s !! room)) (pendingRooms s).

(** ** Vocabulary of sending and closing *)





(** Whether [channel.send] goes through. *)
Definition delivers {collaborators : Collaborators} (s : Conn) (data : Json) (channel : nat) :
    Prop :=
  readyState s channel = rs_open ∧ channelSendThrows channel data = false.

#[global] Instance delivers_dec {collaborators : Collaborators} (s : Conn) (data : Json)
    (channel : nat) : Decision (delivers s data channel).
Proof. unfold delivers. apply _. Defined.

(** ** A second set of collaborators, for the further examples *)

(** A signature names what was signed and the key that signed it. *)
Definition scripted_signature (data : option string) (key : string) : string :=
  "sig(" ++ default "undefined" data ++ ")by " ++ key.

Definition scripted_welcome (roomName : string) (remotePeerIds : list string) : Msg :=
  mkMsg (Some "WELCOME") roomName None "" "" (Some remotePeerIds) "" None None "" "" "".

Definition scripted_call (roomName caller : string) : Msg :=
  mkMsg (Some "CALL") roomName None caller "" None "" None None "" "" "".

Definition scripted_challenge (data : string) : Msg :=
  mkMsg (Some "PROVE_IDENTITY") "" (Some data) "" "" None "" None None "" "" "".

Definition scripted_request (data key : string) : PeerMsg :=
  mkPeerMsg (Some MSG_TYPE_REQUEST_PROOF_IDENTITY)
    (Some (scripted_signature (Some data) key)) (Some data) (Some key) None None None.

Definition scripted_proof (signature data key : string) : PeerMsg :=
  mkPeerMsg (Some MSG_TYPE_RESPONSE_PROOF_IDENTITY) (Some signature) (Some data) (Some key)
    None None None.

Definition scripted_rejection (reason : string) : PeerMsg :=
  mkPeerMsg (Some MSG_TYPE_RESPONSE_PROOF_IDENTITY) None None None (Some reason) None None.

(** The frames are named by short texts. The secret phrase of a user of
    the examples is the public key, so that a signature verifies when it
    names the data and the key. *)
Definition scripted : Collaborators := {|
  getAccountIdFromPublicKey := fun publicKey => publicKey;
  signBytes := scripted_signature;
  verifyBytes := fun signature data publicKey =>
    bool_decide (signature = scripted_signature data <$> publicKey);
  stringToHexString := fun text => text;
  parseSignaling := fun data =>
    if decide (data = "prove") then Some (scripted_challenge "nonce")
    else if decide (data = "approved") then Some (demo_msg "APPROVED_IDENTITY")
    else if decide (data = "welcome") then Some (scripted_welcome "A-B" ["B"])
    else if decide (data = "call") then Some (scripted_call "A-B" "B")
    else if decide (data = "candidate") then Some (demo_candidate "A-B" "B")
    else if decide (data = "B online") then Some (demo_status "B" "online")
    else None;
  parsePeer := fun data =>
    if decide (data = "request") then Some (scripted_request "challenge" "A")
    else if decide (data = "proof") then
      Some (scripted_proof (scripted_signature (Some "challenge") "B") "challenge" "B")
    else if decide (data = "forged") then Some (scripted_proof "nonsense" "challenge" "B")
    else if decide (data = "turned down") then Some (scripted_rejection "busy")
    else None;
  provenPublicKeyAllowed := fun _ _ _ => true;
  channelSendThrows := fun _ _ => false
|}.

(** The user with that key is online with the identity approved. *)
Definition scriptedOnline (publicKey : string) : Conn :=
  @run scripted (initial publicKey publicKey)
    [EvSetup (Some publicKey); EvSetOnlineStatus online; EvSignalingMessage "approved"].

(** ["A"] is entering the room with ["B"]. *)
Definition entering : Conn :=
  @run scripted (scriptedOnline "A") [EvEnterRoom "B"].

(** The relay has welcomed ["A"] in the room, where ["B"] is; ["A"] has
    made the offer, and the data channel 0 has become open. *)
Definition offerMade : Conn :=
  @run scripted entering [EvSignalingMessage "welcome"; EvReadyState 0 rs_open].

(** The channel has opened, with the challenge ["challenge"]. *)
Definition proving : Conn :=
  @run scripted offerMade [EvOpenDataChannel "A-B" "B" 0 false "0.5" "challenge"].

(** The same, with the member list of the room emptied. *)
Definition memberless : Conn :=
  set_roomStore
    (alter (fun ro =>
       mkRoom (name ro) (state ro) [] (peers ro) (proofData ro) (onOpenDataChannelHook ro)
         (onCloseDataChannelHook ro) (onFailureHook ro) (onRejectedHook ro)) 0)
    proving.

(** ["B"] with an open channel 3. *)
Definition answerer : Conn :=
  @run scripted (scriptedOnline "B") [EvReadyState 3 rs_open].

(** A socket has opened and has closed. *)
Definition reconnecting : Signaling.Link :=
  (Signaling.run Signaling.initial
     [Signaling.Send [[("type", "WANT_PROVE_IDENTITY")]]; Signaling.Open 0;
      Signaling.Closed 0]).1.

(** A text of 60 characters. *)
Definition longText : string :=
  "The quick brown fox jumps over the lazy dog, again and again".

(** * Properties *)

Section Properties.

Context {collaborators : Collaborators}.

Local Open Scope list_scope.

(** ** The canonical name of a one-to-one room *)

Lemma sort_pair (a b : string) :
  Js.sort [a; b] = match String.compare a b with Gt => [b; a] | _ => [a; b] end.
Proof. reflexivity. Qed.

(** C3. The name of the one-to-one room of two public keys does not depend
    on their order: it is the two derived account identifiers, sorted, with
    ["-"] between them. *)
Theorem generateOneToOneRoomName_symmetric (A B : string) :
  generateOneToOneRoomName A B = generateOneToOneRoomName B A ∧
  ∃ lo hi,
    generateOneToOneRoomName A B = (lo ++ "-" ++ hi)%string ∧
    [lo; hi] ≡ₚ [getAccountIdFromPublicKey A; getAccountIdFromPublicKey B] ∧
    String.compare lo hi ≠ Gt.
Proof.
  unfold generateOneToOneRoomName.
  set (a := getAccountIdFromPublicKey A). set (b := getAccountIdFromPublicKey B).
  rewrite !sort_pair, (String.compare_antisym b a).
  destruct (String.compare a b) eqn:Hab; simpl.
  - apply String.compare_eq_iff in Hab as ->. split; [done|].
    exists b, b. split_and!; [done..|].
    destruct (String.compare b b) eqn:Hbb; try done.
    pose proof (String.compare_antisym b b) as Hrefl. by rewrite Hbb in Hrefl.
  - split; [done|]. exists a, b. split_and!; [done..|]. by rewrite Hab.
  - split; [done|]. exists b, a. split_and!; [done| apply Permutation_swap |].
    by rewrite (String.compare_antisym b a), Hab.
Qed.

(** ** Going offline *)

(** C9. While the messenger is offline, [enterRoom] returns [null]: no room
    is created and nothing is sent. *)
Theorem enterRoom_offline (s : Conn) (peerId : string) :
  _onlineStatus s = offline →
  enterRoom peerId s = (Ok None, s, []).
Proof. intros Hoff. unfold enterRoom, bind, get. by rewrite Hoff. Qed.

(** C10. While the connector is offline, a signaling frame is dropped before
    it is parsed: whatever the frame is, well formed or not, the handler
    returns normally, the connector is unchanged and nothing leaves it. *)
Theorem onSignalingMessage_offline (s : Conn) (data : string) :
  _onlineStatus s = offline →
  onSignalingMessage data s = (Ok tt, s, []) ∧
  step s (EvSignalingMessage data) = s ∧
  output s (EvSignalingMessage data) = [].
Proof.
  intros Hoff.
  assert (onSignalingMessage data s = (Ok tt, s, [])) as Hdrop.
  { unfold onSignalingMessage, bind, get. by rewrite Hoff. }
  unfold step, output, handle. by rewrite Hdrop.
Qed.

(** ** The identity proof of a peer *)

Lemma onMessage_proof (s : Conn) (roomName peerId : string) (ch : nat)
    (data : string) (msg : PeerMsg) (room : nat) :
  parsePeer data = Some msg →
  pm_type msg = Some MSG_TYPE_RESPONSE_PROOF_IDENTITY →
  rooms s !! roomName = Some room →
  onMessage roomName peerId ch data s =
    match onProofIdentity roomName peerId ch (Some room) msg s with
    | (_, s', out) => (Ok tt, s', RoomOnMessageInternal room msg peerId roomName :: out)
    end.
Proof.
  intros Hparse Htype Hroom.
  unfold onMessage, try_catch, bind at 1. rewrite Hparse. cbn.
  unfold bind at 1. unfold rooms_get, bind at 1, get, ret. cbn. rewrite Hroom. cbn.
  unfold bind at 1, emit. cbn.
  rewrite Htype.
  repeat (case_decide; [discriminate|]).
  case_decide; [|done].
  destruct (onProofIdentity _ _ _ _ _ s) as [[[[]|e] s'] out]; by rewrite ?app_nil_r.
Qed.

Lemma sendInternal_open (s : Conn) (ch : nat) (data : Json) :
  readyState s ch = rs_open →
  sendInternal ch data s =
    (Ok (if channelSendThrows ch data then 0 else 1), s, [ChannelSend ch data]).
Proof. intros Hopen. unfold sendInternal, bind, get, emit, ret. by rewrite Hopen. Qed.

Lemma onProofIdentity_rejects (s : Conn) (roomName peerId : string) (ch room : nat)
    (msg : PeerMsg) (ro : Room) (sent : gmap string string) :
  Js.truthy (pm_rejected msg) = false →
  roomStore s !! room = Some ro →
  proofData ro = Some sent →
  readyState s ch = rs_open →
  sent !! peerId ≠ pm_data msg ∨ pm_publicKey msg ≠ Some peerId →
  ∃ reason,
    onProofIdentity roomName peerId ch (Some room) msg s =
      (Ok tt, state_of (channel_close ch s),
       [ChannelSend ch (rejection reason); ChannelClose ch]).
Proof.
  intros Hrej Hro Hsent Hopen Hbad.
  unfold onProofIdentity. rewrite Hrej.
  unfold bind at 1. cbn. unfold bind at 1, readRoom, bind at 1, get, deref, ret. cbn.
  rewrite Hro. cbn. rewrite Hsent. cbn.
  assert (∃ reason,
    (if decide (sent !! peerId ≠ pm_data msg)
     then Some "Received data does not match the sent data"
     else if decide (pm_publicKey msg ≠ Some peerId)
          then Some "Received public key does not match the peer's public key"
          else if decide (Forall (λ member, Some member ≠ pm_publicKey msg) (memberPublicKeys ro))
               then Some "Received public key is not allowed"
               else None) = Some reason) as [reason ->].
  { repeat case_decide; eauto. by destruct Hbad. }
  exists reason. unfold bind. by rewrite (sendInternal_open s _ _ Hopen).
Qed.

(** C1. A proof response (a message of type [PROOF_IDENTITY] that is not
    itself a rejection notice) arrives on an open channel of a room that
    recorded challenges. If its signature is correct but its public key is
    not the peer id of the connection, one rejection is sent to the peer,
    the channel is closed, and the proof is not accepted: the room's
    verdict on the key is not asked and the recorded challenge stays. *)
Theorem proof_with_foreign_key_rejected (s : Conn) (roomName peerId : string)
    (ch : nat) (data : string) (msg : PeerMsg) (room : nat) (ro : Room)
    (sent : gmap string string) :
  parsePeer data = Some msg →
  pm_type msg = Some MSG_TYPE_RESPONSE_PROOF_IDENTITY →
  Js.truthy (pm_rejected msg) = false →
  rooms s !! roomName = Some room →
  roomStore s !! room = Some ro →
  proofData ro = Some sent →
  readyState s ch = rs_open →
  verifyBytes (pm_signature msg) (pm_data msg) (pm_publicKey msg) = true →
  pm_publicKey msg ≠ Some peerId →
  ∃ reason,
    onMessage roomName peerId ch data s =
      (Ok tt, state_of (channel_close ch s),
       [RoomOnMessageInternal room msg peerId roomName;
        ChannelSend ch (rejection reason);
        ChannelClose ch]) ∧
    roomStore (state_of (channel_close ch s)) = roomStore s ∧
    peerStore (state_of (channel_close ch s)) = peerStore s.
Proof.
  intros Hparse Htype Hrej Hroom Hro Hsent Hopen _ Hkey.
  destruct (onProofIdentity_rejects s roomName peerId ch room msg ro sent)
    as [reason Hrun]; auto.
  exists reason. by rewrite (onMessage_proof _ _ _ _ _ _ _ Hparse Htype Hroom), Hrun.
Qed.

(** C2. A proof response arrives on an open channel of a room that recorded
    challenges. If the data it echoes is not the challenge recorded for
    that peer, the rejection is sent to the peer, the channel is closed,
    and the proof is not accepted. *)
Theorem proof_with_wrong_challenge_rejected (s : Conn) (roomName peerId : string)
    (ch : nat) (data : string) (msg : PeerMsg) (room : nat) (ro : Room)
    (sent : gmap string string) :
  parsePeer data = Some msg →
  pm_type msg = Some MSG_TYPE_RESPONSE_PROOF_IDENTITY →
  Js.truthy (pm_rejected msg) = false →
  rooms s !! roomName = Some room →
  roomStore s !! room = Some ro →
  proofData ro = Some sent →
  readyState s ch = rs_open →
  sent !! peerId ≠ pm_data msg →
  onMessage roomName peerId ch data s =
    (Ok tt, state_of (channel_close ch s),
     [RoomOnMessageInternal room msg peerId roomName;
      ChannelSend ch (rejection "Received data does not match the sent data");
      ChannelClose ch]) ∧
  roomStore (state_of (channel_close ch s)) = roomStore s ∧
  peerStore (state_of (channel_close ch s)) = peerStore s.
Proof.
  intros Hparse Htype Hrej Hroom Hro Hsent Hopen Hdata.
  rewrite (onMessage_proof _ _ _ _ _ _ _ Hparse Htype Hroom).
  unfold onProofIdentity. rewrite Hrej.
  unfold bind at 1. cbn. unfold bind at 1, readRoom, bind at 1, get, deref, ret. cbn.
  rewrite Hro. cbn. rewrite Hsent. cbn.
  case_decide; [|done].
  unfold bind. by rewrite (sendInternal_open s _ _ Hopen).
Qed.

(** ** Entering a room *)

Lemma requestEnterRoom_run (s : Conn) (room : nat) :
  is_Some (roomStore s !! room) →
  requestEnterRoom room s =
    (Ok tt, requestedEntry room s,
     if awaitsEntry s room then [joinRequest (roomNameOf s room)] else []).
Proof.
  intros [ro Hro].
  unfold requestEnterRoom, requestedEntry, awaitsEntry, enteredOf, roomNameOf.
  unfold bind at 1. cbn. unfold bind at 1, readRoom, bind at 1, get, deref. cbn.
  rewrite lookup_alter_eq, Hro. cbn.
  destruct (entered (state ro)) eqn:Hentered; cbn; done.
Qed.

Lemma requestedEntry_lookup (s : Conn) (room x : nat) :
  roomStore (requestedEntry room s) !! x =
    (if decide (room = x)
     then fun ro => mkRoom (name ro)
            (mkRoomState
               (match entered (state ro) with st_not => st_entering | e => e end) true)
            (memberPublicKeys ro) (peers ro) (proofData ro) (onOpenDataChannelHook ro)
            (onCloseDataChannelHook ro) (onFailureHook ro) (onRejectedHook ro)
     else id) <$> roomStore s !! x.
Proof.
  unfold requestedEntry, awaitsEntry, enteredOf.
  case_decide as Hx.
  - subst x. destruct (roomStore s !! room) as [ro|] eqn:Hro; cbn.
    + case_bool_decide as Hent; cbn; rewrite ?lookup_alter_eq, ?Hro; cbn.
      * injection Hent as ->. done.
      * destruct ro as [? [[] ?]]; cbn in *; done.
    + case_bool_decide; cbn; by rewrite ?lookup_alter_eq, ?Hro.
  - case_bool_decide; cbn; rewrite ?lookup_alter_ne by done;
      by destruct (roomStore s !! x).
Qed.

Lemma requestedEntry_is_Some (s : Conn) (room x : nat) :
  is_Some (roomStore (requestedEntry room s) !! x) ↔ is_Some (roomStore s !! x).
Proof. rewrite requestedEntry_lookup. by rewrite fmap_is_Some. Qed.

Lemma requestedEntry_name (s : Conn) (room x : nat) :
  roomNameOf (requestedEntry room s) x = roomNameOf s x.
Proof.
  unfold roomNameOf. rewrite requestedEntry_lookup.
  destruct (roomStore s !! x); cbn; [|done]. by case_decide.
Qed.

Lemma requestedEntry_awaits (s : Conn) (room x : nat) :
  awaitsEntry (requestedEntry room s) x = awaitsEntry s x && bool_decide (x ≠ room).
Proof.
  unfold awaitsEntry, enteredOf. rewrite requestedEntry_lookup.
  destruct (roomStore s !! x) as [ro|]; cbn.
  - case_decide as Hx; cbn.
    + subst x. rewrite (bool_decide_eq_false_2 (room ≠ room)) by (intros Hne; by apply Hne).
      rewrite andb_false_r. apply bool_decide_eq_false_2.
      destruct (entered (state ro)); naive_solver.
    + rewrite (bool_decide_eq_true_2 (x ≠ room)) by (intros ->; by apply Hx).
      by rewrite andb_true_r.
  - by case_bool_decide.
Qed.



Lemma requestedEntry_frame (s : Conn) (room : nat) :
  identity (requestedEntry room s) = identity s ∧
  pendingIdentity (requestedEntry room s) = pendingIdentity s ∧
  pendingRooms (requestedEntry room s) = pendingRooms s ∧
  pendingOnlineStatus (requestedEntry room s) = pendingOnlineStatus s ∧
  _onlineStatus (requestedEntry room s) = _onlineStatus s.
Proof. unfold requestedEntry. by destruct (awaitsEntry s room). Qed.

Lemma flush_run (queue : list nat) (s : Conn) :
  Forall (fun room => is_Some (roomStore s !! room)) queue →
  forEach queue requestEnterRoom s =
    (Ok tt,
     foldl (fun acc room => state_of (requestEnterRoom room acc)) s queue,
     map (fun room => joinRequest (roomNameOf s room))
       (filter (fun room => awaitsEntry s room) (firstOccurrences queue))).
Proof.
  revert s. induction queue as [|room queue IH]; intros s Hvalid; [done|].
  apply Forall_cons in Hvalid as [Hroom Hvalid].
  cbn [forEach foldl firstOccurrences]. unfold bind.
  rewrite (requestEnterRoom_run s room Hroom). cbn [state_of fst snd].
  rewrite IH; last first.
  { eapply Forall_impl; [done|]. intros x. by rewrite requestedEntry_is_Some. }
  f_equal.
  assert (filter (fun x => awaitsEntry (requestedEntry room s) x) (firstOccurrences queue)
          = filter (fun x => awaitsEntry s x)
              (filter (fun x => x ≠ room) (firstOccurrences queue))) as ->.
  { rewrite list_filter_filter. apply list_filter_iff. intros x.
    rewrite requestedEntry_awaits, andb_True, bool_decide_spec. done. }
  erewrite map_ext; last by (intros x; rewrite requestedEntry_name).
  destruct (awaitsEntry s room) eqn:Hawaits.
  - rewrite filter_cons. case_decide as Hd; [done|]. by rewrite Hawaits in Hd.
  - rewrite filter_cons. case_decide as Hd; [|done]. by rewrite Hawaits in Hd.
Qed.

Lemma flushed_requestedEntry (queue : list nat) (s : Conn) :
  Forall (fun room => is_Some (roomStore s !! room)) queue →
  foldl (fun acc room => state_of (requestEnterRoom room acc)) s queue =
  foldl (fun acc room => requestedEntry room acc) s queue.
Proof.
  revert s. induction queue as [|room queue IH]; intros s Hvalid; [done|].
  apply Forall_cons in Hvalid as [Hroom Hvalid]. cbn [foldl].
  rewrite (requestEnterRoom_run s room Hroom). cbn [state_of fst snd].
  apply IH. eapply Forall_impl; [done|]. intros x. by rewrite requestedEntry_is_Some.
Qed.




Arguments requestEnterRoom : simpl never.

Ltac bdec :=
  repeat first [ rewrite bool_decide_eq_true_2 by done
               | rewrite bool_decide_eq_false_2 by done ].

Ltac munfold :=
  unfold bind, get, modify, emit, ret, throw, deref, readRoom, readPeer,
    writeRoom, writePeer, rooms_get, rooms_set, when, try_catch.

(** [enter] with a room that is not being entered for the first time by
    another object of the same name: the room is registered and, with an
    identity attached, asked to enter at once. *)
Lemma enter_run (s : Conn) (room : nat) (ro : Room) (enforce : bool) :
  roomStore s !! room = Some ro →
  entered (state ro) ≠ st_entered →
  Js.truthy (identity s) = true →
  rooms s !! name ro = None ∨ rooms s !! name ro = Some room →
  enter room enforce s = requestEnterRoom room (set_rooms (insert (name ro) room) s).
Proof.
  intros Hro Hent Hid Hreg. unfold enter. munfold. cbn. rewrite Hro. cbn.
  destruct Hreg as [-> | ->]; cbn; rewrite ?Hro; cbn.
  - rewrite Hid. by destruct (requestEnterRoom _ _) as [[[[]|] ?] ?].
  - destruct (entered (state ro)) eqn:?; try done; cbn; rewrite Hid;
      by destruct (requestEnterRoom _ _) as [[[[]|] ?] ?].
Qed.

Lemma enter_not_entered (s : Conn) (room : nat) (ro : Room) (enforce : bool) :
  roomStore s !! room = Some ro →
  entered (state ro) = st_not →
  Js.truthy (identity s) = true →
  rooms s !! name ro = None ∨ rooms s !! name ro = Some room →
  ∃ s1,
    enter room enforce s = (Ok tt, s1, [joinRequest (name ro)]) ∧
    roomStore s1 !! room = Some (set_entered st_entering (set_approved true ro)) ∧
    identity s1 = identity s ∧
    rooms s1 !! name ro = Some room ∧
    timers s1 = <[nextTimer s := (4000%Z, TEnterTimeout room)]> (timers s) ∧
    nextTimer s1 = S (nextTimer s).
Proof.
  intros Hro Hent Hid Hreg.
  rewrite (enter_run s room ro enforce) by (done || by rewrite Hent).
  rewrite requestEnterRoom_run by (cbn; by rewrite Hro).
  unfold requestedEntry, awaitsEntry, enteredOf, roomNameOf. cbn.
  rewrite Hro. cbn. rewrite Hent. cbn. bdec. cbn.
  eexists. split; [done|]. cbn. split_and!; try done.
  - by rewrite !lookup_alter_eq, Hro.
  - by rewrite lookup_insert_eq.
Qed.

Lemma enter_entering (s : Conn) (room : nat) (ro : Room) (enforce : bool) :
  roomStore s !! room = Some ro →
  entered (state ro) = st_entering →
  Js.truthy (identity s) = true →
  rooms s !! name ro = None ∨ rooms s !! name ro = Some room →
  ∃ s1,
    enter room enforce s = (Ok tt, s1, []) ∧
    roomStore s1 !! room = Some (set_approved true ro) ∧
    identity s1 = identity s ∧
    rooms s1 !! name ro = Some room ∧
    timers s1 = timers s ∧
    nextTimer s1 = nextTimer s.
Proof.
  intros Hro Hent Hid Hreg.
  rewrite (enter_run s room ro enforce) by (done || by rewrite Hent).
  rewrite requestEnterRoom_run by (cbn; by rewrite Hro).
  unfold requestedEntry, awaitsEntry, enteredOf, roomNameOf. cbn.
  rewrite Hro. cbn. rewrite Hent. cbn. bdec. cbn.
  eexists. split; [done|]. cbn. split_and!; try done.
  - by rewrite !lookup_alter_eq, Hro.
  - by rewrite lookup_insert_eq.
Qed.

Lemma enterTimeout_fires (s : Conn) (timer : nat) (ms : Z) (room : nat) (ro : Room) :
  timers s !! timer = Some (ms, TEnterTimeout room) →
  roomStore s !! room = Some ro →
  entered (state ro) ≠ st_entered →
  ∃ s1,
    fireTimer timer s = (Ok tt, s1, []) ∧
    roomStore s1 !! room = Some (set_entered st_not ro) ∧
    identity s1 = identity s ∧
    rooms s1 = rooms s.
Proof.
  intros Htimer Hro Hent. unfold fireTimer, clearTimeout, runTask, enterTimeout.
  munfold. cbn. rewrite Htimer. cbn. rewrite Hro. cbn.
  destruct (entered (state ro)) eqn:Hentered; try done; cbn;
    (eexists; split; [done|]; cbn; split_and!; try done;
     by rewrite lookup_alter_eq, Hro).
Qed.

(** [enter] by cases. *)
Lemma enter_cases (s : Conn) (room : nat) (enforce : bool) :
  let rest ro s0 :=
    (if Js.truthy (identity s0) then requestEnterRoom room
     else modify (set_pendingRooms (fun l => l ++ [room])%list) >>
          sendSignalingMessage [[("type", "WANT_PROVE_IDENTITY")]])
      (set_rooms (insert (name ro) room) s0) in
  enter room enforce s =
    match roomStore s !! room with
    | None => (Throw TypeError, s, [])
    | Some ro =>
        match rooms s !! name ro with
        | None => rest ro s
        | Some existing =>
            match roomStore s !! existing with
            | None => (Throw TypeError, s, [])
            | Some ero =>
                match entered (state ero) with
                | st_entered =>
                    if enforce
                    then rest ro (set_roomStore (alter (set_entered st_not) existing) s)
                    else (Ok tt, s, [])
                | _ => rest ro s
                end
            end
        end
    end.
Proof.
  intros rest. unfold enter. munfold. cbn.
  destruct (roomStore s !! room) as [ro|]; cbn; [|done].
  destruct (rooms s !! name ro) as [existing|]; cbn.
  - destruct (roomStore s !! existing) as [ero|]; cbn; [|done].
    destruct (entered (state ero)); cbn; try destruct enforce; cbn; unfold rest; cbn;
      try done;
      match goal with |- context [Js.truthy ?i] => destruct (Js.truthy i) end;
      try done; by destruct (requestEnterRoom _ _) as [[[[]|] ?] ?].
  - unfold rest; cbn.
    match goal with |- context [Js.truthy ?i] => destruct (Js.truthy i) end;
      try done; by destruct (requestEnterRoom _ _) as [[[[]|] ?] ?].
Qed.

(** Entering a room that is being entered sends no join request, whatever
    the rest of the connector is. *)
Lemma enter_while_entering (s : Conn) (room : nat) (enforce : bool) :
  enteredOf s room = Some st_entering →
  Forall (fun e => e = wantProveIdentity) (effects_of (enter room enforce s)) ∧
  enteredOf (state_of (enter room enforce s)) room = Some st_entering.
Proof.
  unfold enteredOf. intros Hent.
  destruct (roomStore s !! room) as [ro|] eqn:Hro; [|done].
  injection Hent as Hent.
  assert (∀ s0, roomStore s0 !! room = Some ro →
    let o := (if Js.truthy (identity s0) then requestEnterRoom room
              else modify (set_pendingRooms (fun l => l ++ [room])%list) >>
                   sendSignalingMessage [[("type", "WANT_PROVE_IDENTITY")]])
               (set_rooms (insert (name ro) room) s0) in
    Forall (fun e => e = wantProveIdentity) (effects_of o) ∧
    (fun ro => entered (state ro)) <$> roomStore (state_of o) !! room = Some st_entering)
    as Hrest.
  { intros s0 Hs0. cbn.
    destruct (Js.truthy (identity s0)).
    - rewrite requestEnterRoom_run by (cbn; by rewrite Hs0).
      unfold requestedEntry, awaitsEntry, enteredOf. cbn. rewrite Hs0. cbn.
      rewrite Hent. bdec. cbn.
      split; [done|]. by rewrite lookup_alter_eq, Hs0; cbn; rewrite Hent.
    - munfold. unfold sendSignalingMessage. munfold. cbn. rewrite Hs0. cbn. rewrite Hent.
      split; [|done]. by repeat constructor. }
  rewrite enter_cases. cbn zeta. rewrite Hro.
  destruct (rooms s !! name ro) as [existing|] eqn:Hreg; [|by apply Hrest].
  destruct (roomStore s !! existing) as [ero|] eqn:Hero; [|by (cbn; rewrite Hro; cbn; rewrite Hent)].
  destruct (entered (state ero)) eqn:Hentered; try by apply Hrest.
  destruct enforce; [|by (cbn; rewrite Hro; cbn; rewrite Hent)].
  apply Hrest. cbn. rewrite lookup_alter_ne; [done|]. intros ->. congruence.
Qed.

(** C4. A room in the entry state ["not"] is entered by a connector with an
    attached identity: one join request leaves, the room is ["entering"]
    and a timer of 4000 ms is armed. Entering again while the room is
    ["entering"] sends nothing. When the timer fires and no [WELCOME] has
    made the room ["entered"], the room is back in ["not"], and the next
    [enter] sends a join request again. The last two parts hold in any
    state of the connector: an [enter] of a room that is ["entering"] never
    sends a join request, and the timer of such a room puts it back to
    ["not"]. *)
Theorem enter_twice_one_join_request (s : Conn) (room : nat) (ro : Room)
    (enforce1 enforce2 enforce3 : bool) :
  roomStore s !! room = Some ro →
  entered (state ro) = st_not →
  Js.truthy (identity s) = true →
  rooms s !! name ro = None ∨ rooms s !! name ro = Some room →
  (∃ s1 s2 s3 s4,
     enter room enforce1 s = (Ok tt, s1, [joinRequest (name ro)]) ∧
     enteredOf s1 room = Some st_entering ∧
     timers s1 !! nextTimer s = Some (4000%Z, TEnterTimeout room) ∧
     enter room enforce2 s1 = (Ok tt, s2, []) ∧
     enteredOf s2 room = Some st_entering ∧
     fireTimer (nextTimer s) s2 = (Ok tt, s3, []) ∧
     enteredOf s3 room = Some st_not ∧
     enter room enforce3 s3 = (Ok tt, s4, [joinRequest (name ro)]) ∧
     enteredOf s4 room = Some st_entering) ∧
  (∀ s' enforce,
     enteredOf s' room = Some st_entering →
     Forall (fun e => e = wantProveIdentity) (effects_of (enter room enforce s')) ∧
     enteredOf (state_of (enter room enforce s')) room = Some st_entering) ∧
  (∀ s' timer ms,
     timers s' !! timer = Some (ms, TEnterTimeout room) →
     enteredOf s' room = Some st_entering →
     effects_of (fireTimer timer s') = [] ∧
     enteredOf (state_of (fireTimer timer s')) room = Some st_not).
Proof.
  intros Hro Hent Hid Hreg. split_and!.
  - destruct (enter_not_entered s room ro enforce1 Hro Hent Hid Hreg)
      as (s1 & Hrun1 & Hro1 & Hid1 & Hreg1 & Htimers1 & _).
    destruct (enter_entering s1 room _ enforce2 Hro1 eq_refl) as
      (s2 & Hrun2 & Hro2 & Hid2 & Hreg2 & Htimers2 & _); [congruence|by right|].
    assert (timers s2 !! nextTimer s = Some (4000%Z, TEnterTimeout room)) as Htimer
      by by rewrite Htimers2, Htimers1, lookup_insert_eq.
    destruct (enterTimeout_fires s2 (nextTimer s) 4000 room _ Htimer Hro2)
      as (s3 & Hrun3 & Hro3 & Hid3 & Hreg3); [done|].
    destruct (enter_not_entered s3 room _ enforce3 Hro3 eq_refl) as
      (s4 & Hrun4 & Hro4 & _); [congruence|right; by rewrite Hreg3|].
    exists s1, s2, s3, s4. unfold enteredOf.
    rewrite Hro1, Hro2, Hro3, Hro4, Htimers1, lookup_insert_eq. done.
  - intros s' enforce. apply enter_while_entering.
  - intros s' timer ms Htimer Hentering. unfold enteredOf in *.
    destruct (roomStore s' !! room) as [ro'|] eqn:Hro'; [|done].
    injection Hentering as Hentering.
    destruct (enterTimeout_fires s' timer ms room ro' Htimer Hro') as (s1 & Hrun & Hro1 & _);
      [congruence|].
    rewrite Hrun. cbn. by rewrite Hro1.
Qed.

(** ** Dispatch to the pending requests *)

Lemma resolve_run (s : Conn) (rid : nat) (v : Value) :
  ∃ s', resolve rid v s = (Ok tt, s', []) ∧
    signalingMessageAwaitings s' = signalingMessageAwaitings s ∧
    _onlineStatus s' = _onlineStatus s ∧
    (∀ rid', requestStore s' !! rid' =
       if decide (rid' = rid) then settledBy v <$> requestStore s !! rid
       else requestStore s !! rid').
Proof.
  unfold resolve, clearTimeout. munfold. cbn.
  destruct (requestStore s !! rid) as [rq|] eqn:Hrq; cbn.
  - destruct (rq_inner rq) eqn:Hinner; cbn; eexists; (split; [done|]); cbn;
      (split_and!; [done..|]); intros rid'; case_decide; subst;
      rewrite ?lookup_insert_eq, ?lookup_insert_ne, ?Hrq by done;
      unfold settledBy; cbn; by rewrite ?Hinner.
  - eexists. split; [done|]. split_and!; [done..|]. intros rid'.
    case_decide; subst; by rewrite ?Hrq.
Qed.

Lemma awaiting_call_run (s : Conn) (f : Awaiting) (msg : Msg) :
  awaiting_call f msg s = (Ok tt, called f msg s, []).
Proof.
  unfold called, awaiting_call. case_decide; [done|].
  destruct (resolve_run s (aw_id f) (handleResponse f msg)) as (s1 & Hrun & _).
  unfold bind. rewrite Hrun. unfold get. cbn.
  by destruct (indexOf f (signalingMessageAwaitings s1)).
Qed.

Lemma called_rejecting (s : Conn) (f : Awaiting) (msg : Msg) :
  ¬ accepts msg f → called f msg s = s.
Proof.
  unfold accepts, called, awaiting_call. intros Hno.
  by rewrite decide_True by by destruct (decide (handleResponse f msg = notAcceptedResponse)); [|done].
Qed.

Lemma called_accepting (s : Conn) (f : Awaiting) (msg : Msg) :
  accepts msg f →
  signalingMessageAwaitings (called f msg s) =
    match indexOf f (signalingMessageAwaitings s) with
    | Some i => delete i (signalingMessageAwaitings s)
    | None => signalingMessageAwaitings s
    end ∧
  (∀ rid, requestStore (called f msg s) !! rid =
     if decide (rid = aw_id f)
     then settledBy (handleResponse f msg) <$> requestStore s !! aw_id f
     else requestStore s !! rid).
Proof.
  unfold accepts, called, awaiting_call. intros Hyes.
  rewrite decide_False by done.
  destruct (resolve_run s (aw_id f) (handleResponse f msg)) as (s1 & Hrun & Haw & _ & Hrq).
  unfold bind. rewrite Hrun. unfold get. cbn. rewrite Haw.
  destruct (indexOf f (signalingMessageAwaitings s)); cbn; by rewrite ?Haw.
Qed.

Lemma called_sublist (s : Conn) (f : Awaiting) (msg : Msg) :
  signalingMessageAwaitings (called f msg s) `sublist_of` signalingMessageAwaitings s.
Proof.
  destruct (decide (accepts msg f)) as [Hyes|Hno].
  - destruct (called_accepting s f msg Hyes) as [-> _].
    destruct (indexOf _ _); [apply sublist_delete|done].
  - by rewrite called_rejecting.
Qed.

Lemma called_requestStore (s : Conn) (f : Awaiting) (msg : Msg) (rid : nat) :
  rid ≠ aw_id f → requestStore (called f msg s) !! rid = requestStore s !! rid.
Proof.
  intros Hne. destruct (decide (accepts msg f)) as [Hyes|Hno].
  - destruct (called_accepting s f msg Hyes) as [_ ->]. by rewrite decide_False.
  - by rewrite called_rejecting.
Qed.

Lemma forEach_awaitings_run (n k : nat) (msg : Msg) (s : Conn) :
  forEach_awaitings n k msg s = (Ok tt, swept n k msg s, []).
Proof.
  revert k s. induction n as [|n IH]; intros k s; [done|].
  cbn [forEach_awaitings swept]. unfold bind at 1. unfold bind at 1, get.
  destruct (signalingMessageAwaitings s !! k) as [f|]; cbn.
  - rewrite awaiting_call_run. cbn. by rewrite IH.
  - by rewrite IH.
Qed.

Lemma swept_sublist (n k : nat) (msg : Msg) (s : Conn) :
  signalingMessageAwaitings (swept n k msg s) `sublist_of` signalingMessageAwaitings s.
Proof.
  revert k s. induction n as [|n IH]; intros k s; [done|]. cbn [swept].
  etrans; [apply IH|]. destruct (_ !! k); [apply called_sublist|done].
Qed.

Lemma swept_requestStore (n k : nat) (msg : Msg) (s : Conn) (rid : nat) :
  rid ∉ aw_id <$> signalingMessageAwaitings s →
  requestStore (swept n k msg s) !! rid = requestStore s !! rid.
Proof.
  revert k s. induction n as [|n IH]; intros k s Hrid; [done|]. cbn [swept].
  destruct (signalingMessageAwaitings s !! k) as [f|] eqn:Hf; [|by apply IH].
  rewrite IH.
  - apply called_requestStore. intros ->. apply Hrid.
    apply list_elem_of_fmap_2. by eapply list_elem_of_lookup_2.
  - intros Hin. apply Hrid. eapply elem_of_sublist; [done|].
    apply fmap_sublist, called_sublist.
Qed.

(** With closures that are distinct objects, [indexOf] finds the closure
    itself. *)
Lemma indexOf_middle (l1 l2 : list Awaiting) (f : Awaiting) :
  NoDup (aw_id <$> (l1 ++ f :: l2)) → indexOf f (l1 ++ f :: l2) = Some (length l1).
Proof.
  intros Hnodup. unfold indexOf.
  assert (list_find (fun g => aw_id g = aw_id f) (l1 ++ f :: l2) = Some (length l1, f))
    as ->; [|done].
  apply list_find_Some. split_and!; [by apply list_lookup_middle|done|].
  intros j g Hj Hlt Heq.
  rewrite fmap_app, fmap_cons in Hnodup. apply NoDup_app in Hnodup as (_ & Hdisj & _).
  apply (Hdisj (aw_id g)).
  - apply list_elem_of_fmap_2. rewrite lookup_app_l in Hj by done.
    by eapply list_elem_of_lookup_2.
  - rewrite Heq. left.
Qed.

Lemma swept_keeps_rejecting (n k : nat) (msg : Msg) (s : Conn) (g : Awaiting) :
  NoDup (aw_id <$> signalingMessageAwaitings s) →
  g ∈ signalingMessageAwaitings s →
  ¬ accepts msg g →
  g ∈ signalingMessageAwaitings (swept n k msg s).
Proof.
  revert k s. induction n as [|n IH]; intros k s Hnodup Hg Hno; [done|]. cbn [swept].
  destruct (signalingMessageAwaitings s !! k) as [f|] eqn:Hf; [|by apply IH].
  apply IH; [| |done].
  - eapply sublist_NoDup; [done|]. apply fmap_sublist, called_sublist.
  - destruct (decide (accepts msg f)) as [Hyes|Hno']; [|by rewrite called_rejecting].
    destruct (called_accepting s f msg Hyes) as [-> _].
    apply list_elem_of_lookup_2 in Hf as Hfin.
    apply list_elem_of_split in Hfin as (l1 & l2 & Hsplit).
    rewrite Hsplit in *. rewrite indexOf_middle, delete_middle by done.
    apply elem_of_app in Hg as [Hg|Hg]; [set_solver|].
    apply elem_of_cons in Hg as [->|Hg]; [done|set_solver].
Qed.

Lemma swept_skip (l0 l1 rest : list Awaiting) (n : nat) (msg : Msg) (s : Conn) :
  signalingMessageAwaitings s = l0 ++ l1 ++ rest →
  Forall (fun g => ¬ accepts msg g) l1 →
  swept (length l1 + n) (length l0) msg s = swept n (length l0 + length l1) msg s.
Proof.
  revert l0. induction l1 as [|g l1 IH]; intros l0 Hs Hno.
  - cbn. by rewrite Nat.add_0_r.
  - apply Forall_cons in Hno as [Hg Hno]. cbn [length Nat.add swept].
    change ((g :: l1) ++ rest) with (g :: (l1 ++ rest)) in Hs.
    rewrite Hs, list_lookup_middle by done. rewrite called_rejecting by done.
    specialize (IH (l0 ++ [g])). rewrite length_app in IH. cbn in IH.
    rewrite Nat.add_1_r in IH. rewrite IH; [f_equal; lia| |done].
    by rewrite Hs, <- app_assoc.
Qed.

Lemma swept_first_accepting (l1 l2 : list Awaiting) (f : Awaiting) (msg : Msg) (s : Conn) :
  signalingMessageAwaitings s = l1 ++ f :: l2 →
  NoDup (aw_id <$> signalingMessageAwaitings s) →
  Forall (fun g => ¬ accepts msg g) l1 →
  accepts msg f →
  let s' := swept (length (signalingMessageAwaitings s)) 0 msg s in
  ((aw_id f ∉ aw_id <$> signalingMessageAwaitings s') ∧
   requestStore s' !! aw_id f =
     settledBy (handleResponse f msg) <$> requestStore s !! aw_id f).
Proof.
  intros Hs Hnodup Hno Hyes s'. unfold s'.
  assert (length (signalingMessageAwaitings s) = length l1 + S (length l2)) as ->
    by by rewrite Hs, length_app.
  rewrite (swept_skip [] l1 (f :: l2)) by done. cbn [length Nat.add swept].
  assert (signalingMessageAwaitings s !! length l1 = Some f) as ->
    by by rewrite Hs, list_lookup_middle.
  destruct (called_accepting s f msg Hyes) as [Hlist Hstore].
  assert (indexOf f (signalingMessageAwaitings s) = Some (length l1)) as Hindex
    by (rewrite Hs in Hnodup |- *; by apply indexOf_middle).
  rewrite Hindex in Hlist. rewrite Hs in Hnodup.
  rewrite Hs, delete_middle in Hlist.
  assert (aw_id f ∉ aw_id <$> signalingMessageAwaitings (called f msg s)) as Hgone.
  { rewrite Hlist. rewrite fmap_app, fmap_cons in Hnodup.
    apply NoDup_app in Hnodup as (_ & Hdisj & Hnodup2).
    apply NoDup_cons in Hnodup2 as [Hnotin _].
    rewrite fmap_app. intros [Hin|Hin]%elem_of_app; [|done].
    apply (Hdisj _ Hin). left. }
  split.
  - intros Hin. apply Hgone. eapply elem_of_sublist; [done|].
    apply fmap_sublist, swept_sublist.
  - rewrite swept_requestStore by done. by rewrite Hstore, decide_True.
Qed.

Lemma onSignalingMessage_unhandled (s : Conn) (data : string) (msg : Msg) :
  _onlineStatus s = online →
  parseSignaling data = Some msg →
  unhandled msg →
  onSignalingMessage data s =
    (Ok tt, swept (length (signalingMessageAwaitings s)) 0 msg s, []).
Proof.
  intros Honline Hparse Hun. unfold unhandled, handledTypes in Hun.
  repeat (apply Forall_cons in Hun as [? Hun]).
  unfold onSignalingMessage. unfold bind at 1, get. rewrite Honline, Hparse.
  unfold bind at 1, ret. unfold is_type.
  rewrite !bool_decide_eq_false_2 by done.
  unfold dispatch_awaitings, bind, get. by rewrite forEach_awaitings_run.
Qed.

(** A matcher that accepts and stands behind one that does not is reached
    by the sweep, whatever the matchers in front of these two do. *)
Lemma swept_accepting_after_rejecting (n : nat) (l0 l1 l2 : list Awaiting) (f : Awaiting)
    (msg : Msg) (s : Conn) :
  signalingMessageAwaitings s = l0 ++ l1 ++ f :: l2 →
  NoDup (aw_id <$> signalingMessageAwaitings s) →
  (length (l1 ++ f :: l2) ≤ n)%nat →
  accepts msg f →
  (∀ p, last l1 = Some p → ¬ accepts msg p) →
  (aw_id f ∉ aw_id <$> signalingMessageAwaitings (swept n (length l0) msg s)) ∧
  requestStore (swept n (length l0) msg s) !! aw_id f =
    settledBy (handleResponse f msg) <$> requestStore s !! aw_id f.
Proof.
  revert l0 l1 s. induction n as [|n IH]; intros l0 l1 s Hs Hnodup Hn Hyes Hlast.
  { rewrite length_app in Hn. cbn in Hn. lia. }
  cbn [swept].
  destruct l1 as [|x l1].
  - change ([] ++ f :: l2) with (f :: l2) in Hs.
    rewrite Hs, list_lookup_middle by done.
    destruct (called_accepting s f msg Hyes) as [Hlist Hstore].
    assert (indexOf f (signalingMessageAwaitings s) = Some (length l0)) as Hindex
      by (rewrite Hs in Hnodup |- *; by apply indexOf_middle).
    rewrite Hindex in Hlist. rewrite Hs in Hnodup.
    rewrite Hs, delete_middle in Hlist.
    assert (aw_id f ∉ aw_id <$> signalingMessageAwaitings (called f msg s)) as Hgone.
    { rewrite Hlist. rewrite fmap_app, fmap_cons in Hnodup.
      apply NoDup_app in Hnodup as (_ & Hdisj & Hnodup2).
      apply NoDup_cons in Hnodup2 as [Hnotin _].
      rewrite fmap_app. intros [Hin|Hin]%elem_of_app; [|done].
      apply (Hdisj _ Hin). left. }
    split.
    + intros Hin. apply Hgone. eapply elem_of_sublist; [done|].
      apply fmap_sublist, swept_sublist.
    + rewrite swept_requestStore by done. by rewrite Hstore, decide_True.
  - change ((x :: l1) ++ f :: l2) with (x :: (l1 ++ f :: l2)) in Hs, Hn.
    rewrite Hs, list_lookup_middle by done.
    assert (aw_id x ≠ aw_id f) as Hxf.
    { rewrite Hs in Hnodup. rewrite fmap_app, fmap_cons in Hnodup.
      apply NoDup_app in Hnodup as (_ & _ & Hnodup).
      apply NoDup_cons in Hnodup as [Hnotin _]. intros Heq. apply Hnotin.
      rewrite Heq, fmap_app, fmap_cons. apply elem_of_app. right. left. }
    cbn [length] in Hn.
    destruct (decide (accepts msg x)) as [Hx|Hx].
    + destruct l1 as [|y l1]; [by destruct (Hlast x)|].
      destruct (called_accepting s x msg Hx) as [Hlist Hstore].
      assert (indexOf x (signalingMessageAwaitings s) = Some (length l0)) as Hindex
        by (rewrite Hs in Hnodup |- *; by apply indexOf_middle).
      rewrite Hindex, Hs, delete_middle in Hlist.
      change ((y :: l1) ++ f :: l2) with ([y] ++ l1 ++ f :: l2) in Hlist.
      rewrite app_assoc in Hlist.
      replace (S (length l0)) with (length (l0 ++ [y]))
        by (rewrite length_app; cbn; lia).
      destruct (IH (l0 ++ [y]) l1 (called x msg s) Hlist) as [Hgone Hsettled].
      * eapply sublist_NoDup; [done|]. apply fmap_sublist, called_sublist.
      * cbn in Hn. lia.
      * done.
      * intros p Hp. apply Hlast. destruct l1; [done|]. exact Hp.
      * split; [done|]. by rewrite Hsettled, Hstore, decide_False.
    + rewrite called_rejecting by done.
      replace (S (length l0)) with (length (l0 ++ [x]))
        by (rewrite length_app; cbn; lia).
      apply (IH (l0 ++ [x]) l1 s); [|done|lia|done|].
      * by rewrite Hs, <- app_assoc.
      * intros p Hp. apply Hlast. destruct l1; [done|]. exact Hp.
Qed.

(** The request of a matcher that stays is not touched. *)
Lemma swept_staying_untouched (n k : nat) (msg : Msg) (s : Conn) (rid : nat) :
  NoDup (aw_id <$> signalingMessageAwaitings s) →
  rid ∈ aw_id <$> signalingMessageAwaitings (swept n k msg s) →
  requestStore (swept n k msg s) !! rid = requestStore s !! rid.
Proof.
  revert k s. induction n as [|n IH]; intros k s Hnodup Hstays; [done|].
  cbn [swept] in *.
  destruct (signalingMessageAwaitings s !! k) as [f|] eqn:Hf; [|by apply IH].
  assert (NoDup (aw_id <$> signalingMessageAwaitings (called f msg s))) as Hnodup'
    by (eapply sublist_NoDup; [done|]; apply fmap_sublist, called_sublist).
  rewrite IH by done.
  destruct (decide (accepts msg f)) as [Hyes|Hno]; [|by rewrite called_rejecting].
  apply called_requestStore. intros ->.
  assert (aw_id f ∈ aw_id <$> signalingMessageAwaitings (called f msg s)) as Hin
    by (eapply elem_of_sublist; [done|]; apply fmap_sublist, swept_sublist).
  destruct (called_accepting s f msg Hyes) as [Hlist _]. rewrite Hlist in Hin.
  apply list_elem_of_lookup_2 in Hf as Hfin.
  apply list_elem_of_split in Hfin as (l1 & l2 & Hsplit). rewrite Hsplit in *.
  rewrite indexOf_middle, delete_middle in Hin by done.
  rewrite fmap_app, fmap_cons in Hnodup.
  apply NoDup_app in Hnodup as (_ & Hdisj & Hnodup2).
  apply NoDup_cons in Hnodup2 as [Hnotin _].
  rewrite fmap_app in Hin. apply elem_of_app in Hin as [Hin|Hin]; [|done].
  apply (Hdisj _ Hin). left.
Qed.

(** C6, as the code has it by design. A message that no branch of
    [onSignalingMessage] handles reaches an online connector whose pending
    matchers are distinct closures. The matchers are tried in the order of
    their registration. Those that stay are in their old order, and their
    requests are as they were; every matcher that does not accept the
    message stays. A matcher that accepts the message and is the first of
    the list, or stands directly behind a matcher that does not accept it,
    is removed, and its promise, if it was pending, is resolved with the
    value the matcher returned: this holds for the first matcher that
    accepts, and for every later one of that kind as well, so the dispatch
    does not stop at the first. Requests without a matcher in the list are
    not touched. *)
Theorem dispatch_removes_first_accepting (s : Conn) (data : string) (msg : Msg) :
  _onlineStatus s = online →
  parseSignaling data = Some msg →
  unhandled msg →
  NoDup (aw_id <$> signalingMessageAwaitings s) →
  ∃ s',
    onSignalingMessage data s = (Ok tt, s', []) ∧
    signalingMessageAwaitings s' `sublist_of` signalingMessageAwaitings s ∧
    (∀ g, g ∈ signalingMessageAwaitings s → ¬ accepts msg g →
          g ∈ signalingMessageAwaitings s') ∧
    (∀ l1 f l2,
       signalingMessageAwaitings s = l1 ++ f :: l2 →
       accepts msg f →
       (∀ p, last l1 = Some p → ¬ accepts msg p) →
       (aw_id f ∉ aw_id <$> signalingMessageAwaitings s') ∧
       requestStore s' !! aw_id f =
         settledBy (handleResponse f msg) <$> requestStore s !! aw_id f) ∧
    (∀ g, g ∈ signalingMessageAwaitings s' →
          requestStore s' !! aw_id g = requestStore s !! aw_id g) ∧
    (∀ rid, rid ∉ aw_id <$> signalingMessageAwaitings s →
            requestStore s' !! rid = requestStore s !! rid).
Proof.
  intros Honline Hparse Hun Hnodup.
  exists (swept (length (signalingMessageAwaitings s)) 0 msg s). split_and!.
  - by apply onSignalingMessage_unhandled.
  - apply swept_sublist.
  - intros g Hg Hno. by apply swept_keeps_rejecting.
  - intros l1 f l2 Hs Hyes Hlast.
    apply (swept_accepting_after_rejecting _ [] l1 l2); try done.
    by rewrite Hs.
  - intros g Hg. apply swept_staying_untouched; [done|]. by apply list_elem_of_fmap_2.
  - intros rid Hrid. by apply swept_requestStore.
Qed.

(** ** The rules of [wp] *)

Lemma wp_ret {A} (a : A) Q E s : Q a s → wp (ret a) Q E s.
Proof. done. Qed.

Lemma wp_bind {A B} (m : M A) (k : A → M B) Q E s :
  wp m (fun a s' => wp (k a) Q E s') E s → wp (bind m k) Q E s.
Proof.
  unfold wp, bind. destruct (m s) as [[[a|e] s1] out1]; [|done].
  by destruct (k a s1) as [[[b|e] s2] out2].
Qed.

Lemma wp_get Q E s : Q s s → wp get Q E s.
Proof. done. Qed.

Lemma wp_modify f Q E s : Q tt (f s) → wp (modify f) Q E s.
Proof. done. Qed.

Lemma wp_emit e Q E s : Q tt s → wp (emit e) Q E s.
Proof. done. Qed.

Lemma wp_throw {A} e (Q : A → Conn → Prop) E s : E s → wp (throw e) Q E s.
Proof. done. Qed.

Lemma wp_deref {A} (o : option A) Q E s :
  (∀ a, o = Some a → Q a s) → (o = None → E s) → wp (deref o) Q E s.
Proof. destruct o; cbn; auto. Qed.

Lemma wp_try_catch {A} (m : M A) (h : string → M A) Q E s :
  wp m Q (fun s' => ∀ e, wp (h e) Q E s') s → wp (try_catch m h) Q E s.
Proof.
  unfold wp, try_catch. destruct (m s) as [[[a|e] s1] out1]; [done|].
  intros Hh. specialize (Hh e). by destruct (h e s1) as [[[b|e'] s2] out2].
Qed.

Lemma wp_mono {A} (m : M A) (Q Q' : A → Conn → Prop) (E E' : Conn → Prop) s :
  wp m Q E s → (∀ a s', Q a s' → Q' a s') → (∀ s', E s' → E' s') → wp m Q' E' s.
Proof. unfold wp. destruct (m s) as [[[a|e] s1] out1]; auto. Qed.

Lemma wp_forEach {A} (l : list A) (f : A → M unit) (I : Conn → Prop) s :
  (∀ x, x ∈ l → keeps I (f x)) → I s → wp (forEach l f) (fun _ => I) I s.
Proof.
  revert s. induction l as [|x l IH]; intros s Hf HI; [done|].
  cbn [forEach]. apply wp_bind.
  eapply wp_mono; [apply (Hf x); [left|done]| |done].
  cbn beta. intros _ s' HI'. apply IH; [|done]. intros y Hy. apply Hf. by right.
Qed.

Lemma keeps_state {A} (I : Conn → Prop) (m : M A) s : keeps I m → I s → I (state_of (m s)).
Proof.
  unfold keeps, wp, state_of. intros Hm HI. specialize (Hm s HI).
  by destruct (m s) as [[[a|e] s1] out1].
Qed.

(** Projections of updated records. *)
Ltac conn_simpl :=
  cbn [rooms signalingMessageAwaitings pendingIdentity identity pendingRooms
       pendingOnlineStatus _onlineStatus user_publicKey user_secretPhrase
       roomStore peerStore requestStore timers nextTimer readyStates
       iceConnected pcConstructorThrows createDataChannelThrows nextPc nextChannel
       set_rooms set_signalingMessageAwaitings set_pendingIdentity set_identity
       set_pendingRooms set_pendingOnlineStatus set_onlineStatus set_roomStore
       set_peerStore set_requestStore set_timers set_nextTimer set_readyStates
       set_iceConnected set_pcConstructorThrows set_createDataChannelThrows
       set_nextPc set_nextChannel
       name state memberPublicKeys peers proofData onOpenDataChannelHook
       onCloseDataChannelHook onFailureHook onRejectedHook
       set_state set_peers set_proofData set_entered set_approved entered approved
       peerConnection dataChannel connectionRole noNeedReconnect isConnected
       set_peerConnection set_dataChannel set_connectionRole set_noNeedReconnect
       set_isConnected rq_inner rq_outer rq_timer aw_id handleResponse
       fst snd state_of effects_of result_of] in *.

(** One step of the symbolic execution of a handler. *)
Ltac wp_step :=
  cbv beta;
  lazymatch goal with
  | |- wp (bind _ _) _ _ _ => apply wp_bind
  | |- wp (ret _) _ _ _ => apply wp_ret
  | |- wp get _ _ _ => apply wp_get
  | |- wp (modify _) _ _ _ => apply wp_modify
  | |- wp (emit _) _ _ _ => apply wp_emit
  | |- wp (throw _) _ _ _ => apply wp_throw
  | |- wp (deref _) _ _ _ => apply wp_deref; [intros ? ?|intros ?]
  | |- wp (try_catch _ _) _ _ _ => apply wp_try_catch
  | |- wp (when _ _) _ _ _ => unfold when
  | |- wp (readRoom _) _ _ _ => unfold readRoom
  | |- wp (readPeer _) _ _ _ => unfold readPeer
  | |- wp (rooms_get _) _ _ _ => unfold rooms_get
  | |- wp (getPeer _ _) _ _ _ => unfold getPeer
  | |- wp (sendSignalingMessage _) _ _ _ => unfold sendSignalingMessage
  | |- wp (if ?b then _ else _) _ _ _ => destruct b eqn:?
  | |- wp (match ?x with _ => _ end) _ _ _ => destruct x eqn:?
  | |- wp (let '(_, _) := ?x in _) _ _ _ => destruct x eqn:?
  | |- ∀ _, _ => intro
  end.

(** Handlers that only read and emit keep every invariant. *)

Lemma keeps_sendInternal (I : Conn → Prop) (channel : nat) (data : Json) :
  keeps I (sendInternal channel data).
Proof. intros s HI. unfold sendInternal. by repeat wp_step. Qed.

Lemma keeps_sendAll (I : Conn → Prop) (channels : list nat) (data : Json) (count : nat) :
  keeps I (sendAll channels data count).
Proof.
  revert count. induction channels as [|channel channels IH]; intros count s HI; [done|].
  cbn [sendAll]. apply wp_bind.
  eapply wp_mono; [by apply keeps_sendInternal| |done].
  cbv beta. intros n s' HI'. by apply IH.
Qed.

Lemma keeps_getDataChannels (I : Conn → Prop) (room : nat) :
  keeps I (getDataChannels room).
Proof. intros s HI. unfold getDataChannels. by repeat wp_step. Qed.

Lemma keeps_send (I : Conn → Prop) (roomName : string) (data : Json) (channel : option nat) :
  keeps I (send roomName data channel).
Proof.
  intros s HI. unfold send. destruct channel; [by apply keeps_sendInternal|].
  destruct (Js.truthy_str roomName); [|by apply wp_ret].
  repeat wp_step; [|done].
  eapply wp_mono; [by apply keeps_getDataChannels| |done].
  cbv beta. intros channels s' HI'. by apply keeps_sendAll.
Qed.

Lemma keeps_sign (I : Conn → Prop) (data : option string) : keeps I (sign data).
Proof. intros s HI. unfold sign. by repeat wp_step. Qed.

(** A call of a handler that keeps the invariant. *)
Ltac wp_premise :=
  first [ eassumption
        | multimatch goal with H : ?J _ |- ?J _ => exact H end
        | eauto ].

Ltac wp_call lemma :=
  eapply wp_mono;
  [ eapply lemma; wp_premise
  | cbv beta; intros ? ? ?
  | cbv beta; intros ? ?; try eassumption ].

Ltac wp_forEach_call I :=
  eapply wp_mono;
  [ apply (wp_forEach _ _ I); [intros ? ? ? ?|eassumption]
  | cbv beta; intros ? ? ?
  | cbv beta; intros ? ?; try eassumption ].

(** Calls that every invariant allows. *)
Ltac wp_readonly I :=
  lazymatch goal with
  | |- wp (send _ _ _) _ _ _ => wp_call (keeps_send I)
  | |- wp (sendInternal _ _) _ _ _ => wp_call (keeps_sendInternal I)
  | |- wp (sign _) _ _ _ => wp_call (keeps_sign I)
  | |- wp (getDataChannels _) _ _ _ => wp_call (keeps_getDataChannels I)
  end.

(** The definitions of the handlers. *)
Ltac wp_unfold :=
  lazymatch goal with
  | |- wp ?m _ _ _ =>
      lazymatch m with
      | writeRoom _ _ => unfold writeRoom
      | writePeer _ _ => unfold writePeer
      | rooms_set _ _ => unfold rooms_set
      | newRoom _ _ => unfold newRoom
      | createPeer _ _ _ => unfold createPeer
      | channel_close _ => unfold channel_close
      | setup _ => unfold setup
      | sendOnlineStatus _ => unfold sendOnlineStatus
      | setOnlineStatus _ => unfold setOnlineStatus
      | call _ _ _ => unfold call
      | requestEnterRoom _ => unfold requestEnterRoom
      | enterTimeout _ => unfold enterTimeout
      | enter _ _ => unfold enter
      | askPeerConnection _ _ => unfold askPeerConnection
      | initDataChannel _ _ _ => unfold initDataChannel
      | createDataChannel _ _ _ => unfold createDataChannel
      | onFailure _ _ => unfold onFailure
      | doOffer _ _ _ => unfold doOffer
      | doAnswer _ _ _ => unfold doAnswer
      | onOpenDataChannel _ _ _ _ _ _ => unfold onOpenDataChannel
      | onCloseDataChannel _ _ _ => unfold onCloseDataChannel
      | onProofIdentity _ _ _ _ _ => unfold onProofIdentity
      | onMessage _ _ _ _ => unfold onMessage
      | closeRoom _ => unfold closeRoom
      | close => unfold close
      | reconnectTimeout _ _ _ => unfold reconnectTimeout
      | onSignalingMessage _ => unfold onSignalingMessage
      | dispatch_awaitings _ => unfold dispatch_awaitings
      | setupRoom _ => unfold setupRoom
      | Room_enter _ => unfold Room_enter
      | getOneToOneRoom _ _ => unfold getOneToOneRoom
      | enterRoom _ => unfold enterRoom
      | P2PMessaging_call _ => unfold P2PMessaging_call
      | createRoomOnIncomingCall _ _ => unfold createRoomOnIncomingCall
      | getPeerOnlineStatus _ => unfold getPeerOnlineStatus
      | getTmp _ => unfold getTmp
      | runTask _ => unfold runTask
      | handle _ => unfold handle
      | setTimeout _ _ => unfold setTimeout
      | clearTimeout _ => unfold clearTimeout
      | resolve _ _ => unfold resolve
      | reject_outer _ _ => unfold reject_outer
      | awaiting_call _ _ => unfold awaiting_call
      | fireTimer _ => unfold fireTimer
      | request _ _ => unfold request
      end
  end.

(** A step of the execution that does not split the goal. *)
Ltac wp_pure_step :=
  cbv beta;
  lazymatch goal with
  | |- wp (bind _ _) _ _ _ => apply wp_bind
  | |- wp (ret _) _ _ _ => apply wp_ret
  | |- wp get _ _ _ => apply wp_get
  | |- wp (modify _) _ _ _ => apply wp_modify
  | |- wp (emit _) _ _ _ => apply wp_emit
  | |- wp (throw _) _ _ _ => apply wp_throw
  | |- wp (deref (Some _)) _ _ _ => apply wp_deref; [intros ? [= <-]|intros [=]]
  | |- wp (deref None) _ _ _ => apply wp_deref; [intros ? [=]|intros _]
  end.

(** ** A request whose matcher never accepts *)

Section AwaitingTimeout.

Variables rid timer : nat.

Local Abbreviation I := (awaitingTimeout rid timer).

Lemma awaitingTimeout_setTimeout (task : Task) (ms : Z) :
  (∀ r, task = TPromiseTimeout r → r ≠ rid) →
  keeps I (setTimeout task ms).
Proof.
  intros Htask s (HA & HB & (rq & Hrq & Hin & Htm & Hout) & HD & HE & HF).
  unfold setTimeout. repeat wp_step.
  split_and!; conn_simpl; try done.
  - exists rq. split_and!; [done..|].
    by rewrite lookup_insert_ne by lia.
  - lia.
  - intros t ms' [[_ Heq]|[_ Hold]]%lookup_insert_Some; [|by eapply HF].
    injection Heq as _ Heq. by destruct (Htask rid).
Qed.

Lemma awaitingTimeout_clearTimeout (t : nat) :
  t ≠ timer → keeps I (clearTimeout t).
Proof.
  intros Hne s (HA & HB & (rq & Hrq & Hin & Htm & Hout) & HD & HE & HF).
  unfold clearTimeout. repeat wp_step.
  split_and!; conn_simpl; try done.
  - exists rq. split_and!; [done..|]. by rewrite lookup_delete_ne.
  - intros t' ms' [_ Hold]%lookup_delete_Some. by eapply HF.
Qed.

Lemma awaitingTimeout_resolve (rid' : nat) (v : Value) :
  rid' ≠ rid → keeps I (resolve rid' v).
Proof.
  intros Hne s HI. unfold resolve. repeat wp_step; try done.
  destruct HI as (HA & HB & (rq & Hrq & Hin & Htm & Hout) & HD & HE & HF).
  assert (rq_timer r ≠ timer) as Htimer by by eapply HE.
  split_and!; conn_simpl; try done.
  - exists rq. split_and!; [by rewrite lookup_insert_ne|done..|].
    by rewrite lookup_delete_ne.
  - intros rid'' rq'' [[<- <-]|[_ Hold]]%lookup_insert_Some ?; [done|by eapply HE].
  - intros t' ms' [_ Hold]%lookup_delete_Some. by eapply HF.
Qed.

Lemma awaitingTimeout_reject_outer (rid' : nat) (err : string) :
  rid' ≠ rid → keeps I (reject_outer rid' err).
Proof.
  intros Hne s (HA & HB & (rq & Hrq & Hin & Htm & Hout) & HD & HE & HF).
  unfold reject_outer. repeat wp_step.
  split_and!; conn_simpl; try done.
  - exists rq. split_and!; [by rewrite lookup_alter_ne|done..].
  - intros rid'' rq''. rewrite lookup_alter_Some.
    intros [(<- & rq0 & Hrq0 & ->)|[_ Hold]] ?; conn_simpl; by eapply HE.
Qed.

Lemma elem_of_delete_other {A} (l : list A) (i : nat) (x y : A) :
  x ∈ l → l !! i = Some y → x ≠ y → x ∈ delete i l.
Proof.
  intros [j Hj]%list_elem_of_lookup_1 Hi Hne.
  destruct (decide (j < i)).
  - apply (list_elem_of_lookup_2 _ j). by rewrite list_lookup_delete_lt.
  - assert (j ≠ i) by (intros ->; congruence).
    apply (list_elem_of_lookup_2 _ (pred j)). rewrite list_lookup_delete_ge by lia.
    by replace (S (pred j)) with j by lia.
Qed.

Lemma awaitingTimeout_awaiting_call (g : Awaiting) (msg : Msg) (s : Conn) :
  I s → g ∈ signalingMessageAwaitings s → wp (awaiting_call g msg) (fun _ => I) I s.
Proof.
  intros HI Hg. unfold awaiting_call.
  destruct (decide (aw_id g = rid)) as [Heq|Hne].
  { pose proof HI as (HA & HB & _). rewrite (HB g msg Hg Heq).
    rewrite decide_True by done. by apply wp_ret. }
  case_decide; [by apply wp_ret|].
  apply wp_bind.
  destruct (resolve_run s (aw_id g) (handleResponse g msg)) as (s1 & Hrun & Haw & _).
  pose proof (keeps_state I _ s (awaitingTimeout_resolve (aw_id g) (handleResponse g msg) Hne) HI)
    as HI1.
  unfold wp at 1. rewrite Hrun in *. conn_simpl.
  repeat wp_step; [|done].
  destruct HI1 as ((f & Hf & Hfid) & HB & HC & HD & HE & HF).
  unfold indexOf in *.
  destruct (list_find _ _) as [[i x]|] eqn:Hfind; [|done].
  apply list_find_Some in Hfind as (Hi & Hx & _). injection Heqo as <-.
  split_and!; conn_simpl; try done.
  - exists f. split; [|done]. eapply elem_of_delete_other; [done..|].
    intros ->. congruence.
  - intros g' msg' Hg' Hid. eapply HB; [|done]. by eapply list_elem_of_delete_inv.
Qed.

Lemma awaitingTimeout_forEach_awaitings (n k : nat) (msg : Msg) :
  keeps I (forEach_awaitings n k msg).
Proof.
  revert k. induction n as [|n IH]; intros k s HI; [done|].
  cbn [forEach_awaitings]. repeat wp_step.
  - eapply wp_mono; [apply awaitingTimeout_awaiting_call; [done|]| |done].
    + by eapply list_elem_of_lookup_2.
    + cbv beta. intros _ s' HI'. by apply IH.
  - by apply IH.
Qed.

Lemma awaitingTimeout_request (message : list Json) (h : Msg → Value) :
  keeps I (request (sendSignalingMessage message) h).
Proof.
  intros s ((f & Hf & Hfid) & HB & (rq & Hrq & Hin & Htm & Hout) & HD & HE & HF).
  assert (fresh (dom (requestStore s)) ≠ rid) as Hfresh.
  { intros Heq. apply (is_fresh (dom (requestStore s))). rewrite Heq.
    by eapply elem_of_dom_2. }
  unfold request, setTimeout. repeat wp_step.
  split_and!; conn_simpl.
  - exists f. split; [|done]. apply elem_of_app. by left.
  - intros g msg [Hg|Hg%list_elem_of_singleton]%elem_of_app Hid; [by eapply HB|].
    subst g. done.
  - exists rq. split_and!; [by rewrite lookup_insert_ne|done..|].
    by rewrite lookup_insert_ne by lia.
  - lia.
  - intros rid' rq' [[<- <-]|[_ Hold]]%lookup_insert_Some ?; conn_simpl; [lia|by eapply HE].
  - intros t ms [[_ Heq]|[_ Hold]]%lookup_insert_Some; [congruence|by eapply HF].
Qed.

Ltac at_step :=
  first
  [ wp_step
  | wp_readonly (awaitingTimeout rid timer)
  | lazymatch goal with
    | |- wp (setTimeout _ _) _ _ _ => wp_call awaitingTimeout_setTimeout
    | |- wp (forEach_awaitings _ _ _) _ _ _ => wp_call awaitingTimeout_forEach_awaitings
    | |- wp (request (sendSignalingMessage _) _) _ _ _ => wp_call awaitingTimeout_request
    | |- wp (forEach _ _) _ _ _ => wp_forEach_call (awaitingTimeout rid timer)
    end
  | wp_unfold
  | progress conn_simpl
  | eassumption
  | multimatch goal with H : I _ |- I _ => exact H end
  | done ].

Lemma awaitingTimeout_fireTimer (t : nat) : keeps I (fireTimer t).
Proof.
  intros s HI. unfold fireTimer. apply wp_bind, wp_get.
  destruct (timers s !! t) as [[ms task]|] eqn:Ht; [|done].
  destruct (decide (t = timer)) as [->|Hne].
  - destruct HI as (HA & HB & (rq & Hrq & Hin & Htm & Hout) & HD & HE & HF).
    destruct Hout as [[Hout Harmed]|[_ Hnone]]; [|congruence].
    rewrite Ht in Harmed. injection Harmed as -> ->.
    unfold clearTimeout, runTask, reject_outer. repeat wp_step.
    split_and!; conn_simpl; try done.
    + exists (mkRequest (rq_inner rq) (Rejected "promise timeout") (rq_timer rq)).
      rewrite lookup_alter_eq, Hrq. cbn. rewrite Hout. split_and!; try done.
      right. by rewrite lookup_delete_eq.
    + intros rid' rq' Hrq' Hne. rewrite lookup_alter_ne in Hrq' by done. by eapply HE.
    + intros t' ms' [_ Hold]%lookup_delete_Some. by eapply HF.
  - assert (∀ r, task = TPromiseTimeout r → r ≠ rid) as Htask.
    { intros r -> ->. destruct HI as (_ & _ & _ & _ & _ & HF). by apply Hne, (HF t ms). }
    apply wp_bind. wp_call awaitingTimeout_clearTimeout.
    destruct task; unfold runTask.
    + repeat at_step.
    + repeat at_step.
    + apply awaitingTimeout_reject_outer; [by apply Htask|done].
Qed.

Lemma awaitingTimeout_handle (ev : Event) : keeps I (handle ev).
Proof.
  intros s HI. destruct ev; unfold handle.
  all: try (apply awaitingTimeout_fireTimer; done).
  all: repeat at_step.
Qed.

Lemma awaitingTimeout_run (evs : list Event) (s : Conn) :
  I s → I (run s evs).
Proof.
  revert s. induction evs as [|ev evs IH]; intros s HI; [done|].
  cbn [run foldl]. apply IH. exact (keeps_state I _ s (awaitingTimeout_handle ev) HI).
Qed.

Lemma awaitingTimeout_fired (s : Conn) :
  I s →
  rq_outer <$> requestStore (step s (EvTimer timer)) !! rid
    = Some (Rejected "promise timeout").
Proof.
  intros (HA & HB & (rq & Hrq & Hin & Htm & Hout) & HD & HE & HF).
  unfold step, handle, fireTimer, bind, get.
  destruct Hout as [[Hout Harmed]|[Hout Hnone]].
  - rewrite Harmed. unfold clearTimeout, runTask, reject_outer, modify. conn_simpl.
    by rewrite lookup_alter_eq, Hrq; cbn; rewrite Hout.
  - rewrite Hnone. conn_simpl. unfold ret. conn_simpl. by rewrite Hrq; cbn; rewrite Hout.
Qed.

End AwaitingTimeout.

Lemma request_run (s : Conn) (message : list Json) (h : Msg → Value) :
  request (sendSignalingMessage message) h s =
    (Ok (fresh (dom (requestStore s))),
     set_requestStore
       (insert (fresh (dom (requestStore s))) (mkRequest Pending Pending (nextTimer s)))
       (set_nextTimer S
          (set_timers
             (insert (nextTimer s) (3000%Z, TPromiseTimeout (fresh (dom (requestStore s)))))
             (set_signalingMessageAwaitings
                (fun l => l ++ [mkAwaiting (fresh (dom (requestStore s))) h]) s))),
     [SendSignaling message]).
Proof. done. Qed.

Lemma request_awaitingTimeout (s : Conn) (message : list Json) (h : Msg → Value) :
  (∀ msg, h msg = notAcceptedResponse) →
  requestsWf s →
  awaitingTimeout (fresh (dom (requestStore s))) (nextTimer s)
    (state_of (request (sendSignalingMessage message) h s)).
Proof.
  intros Hnever (Hw1 & Hw2 & Hw3). rewrite request_run. conn_simpl.
  set (rid := fresh (dom (requestStore s))).
  assert (rid ∉ dom (requestStore s)) as Hfresh by apply is_fresh.
  unfold awaitingTimeout. conn_simpl. split_and!.
  - exists (mkAwaiting rid h). split; [|done]. apply elem_of_app. right. left.
  - intros g msg [Hg|Hg%list_elem_of_singleton]%elem_of_app Hid.
    + destruct Hfresh. rewrite <- Hid. by apply Hw1.
    + subst g. apply Hnever.
  - eexists. rewrite lookup_insert_eq. split_and!; [done..|]. left.
    by rewrite lookup_insert_eq.
  - lia.
  - intros rid' rq' [[? _]|[_ Hold]]%lookup_insert_Some Hne; [done|].
    apply Hw2 in Hold. lia.
  - intros t ms [[? _]|[_ Hold]]%lookup_insert_Some; [done|].
    destruct Hfresh. by eapply Hw3.
Qed.

(** What the code does with a request whose matcher accepts no message, in
    a state where requests, matchers and timers fit together. The matcher
    is put at the end of the list and a timer of 3000 ms is armed. Whatever
    happens afterwards, the matcher is in the list and the promise that was
    returned is either pending with the timer armed or rejected by the
    timer; when the timer fires, the promise is rejected, and the matcher
    is in the list still: only the accepting branch of the matcher takes it
    out. *)
Lemma request_times_out_and_matcher_stays (s : Conn) (message : list Json)
    (h : Msg → Value) (evs : list Event) :
  (∀ msg, h msg = notAcceptedResponse) →
  requestsWf s →
  let rid := fresh (dom (requestStore s)) in
  let timer := nextTimer s in
  let s1 := state_of (request (sendSignalingMessage message) h s) in
  let s2 := run s1 evs in
  let s3 := step s2 (EvTimer timer) in
  request (sendSignalingMessage message) h s = (Ok rid, s1, [SendSignaling message]) ∧
  signalingMessageAwaitings s1 = signalingMessageAwaitings s ++ [mkAwaiting rid h] ∧
  timers s1 !! timer = Some (3000%Z, TPromiseTimeout rid) ∧
  awaitingTimeout rid timer s2 ∧
  rq_outer <$> requestStore s3 !! rid = Some (Rejected "promise timeout") ∧
  (∃ f, f ∈ signalingMessageAwaitings s3 ∧ aw_id f = rid).
Proof.
  intros Hnever Hwf rid timer s1 s2 s3.
  assert (awaitingTimeout rid timer s2) as Hs2
    by by apply awaitingTimeout_run, request_awaitingTimeout.
  split_and!; try done.
  - unfold s1. rewrite request_run. conn_simpl. by rewrite lookup_insert_eq.
  - by apply awaitingTimeout_fired.
  - assert (awaitingTimeout rid timer s3) as (Hreg & _); [|done].
    exact (keeps_state _ _ s2 (awaitingTimeout_handle rid timer (EvTimer timer)) Hs2).
Qed.

(** ** The role of a peer that has made an offer *)

Section Offering.

Variable peer : nat.

Local Abbreviation I := (offering peer).

Lemma offering_writePeer (q : nat) (f : Peer → Peer) :
  (∀ po, offered po → offered (f po)) → keeps I (writePeer q f).
Proof.
  intros Hf s (po & Hpo & Hoff). unfold writePeer. repeat wp_step.
  unfold I, offering. conn_simpl.
  destruct (decide (q = peer)) as [->|Hne].
  - exists (f po). rewrite lookup_alter_eq, Hpo. split; [done|]. by apply Hf.
  - exists po. by rewrite lookup_alter_ne.
Qed.

Lemma offering_createPeer (room : nat) (peerId publicKey : string) :
  keeps I (createPeer room peerId publicKey).
Proof.
  intros s HI. unfold createPeer. repeat wp_step; try done.
  destruct HI as (po & Hpo & Hoff). exists po. conn_simpl. split; [|done].
  rewrite lookup_insert_ne; [done|]. intros Heq.
  apply (is_fresh (dom (peerStore s))). rewrite Heq. by eapply elem_of_dom_2.
Qed.

Ltac offered_update :=
  let po := fresh "po" in
  let H := fresh "H" in
  intros po [H|H]; unfold offered; conn_simpl; rewrite ?H; auto.

Ltac off_step :=
  first
  [ wp_step
  | wp_readonly (offering peer)
  | lazymatch goal with
    | |- wp (writePeer _ _) _ _ _ =>
        eapply wp_mono;
        [ eapply offering_writePeer; [offered_update|wp_premise]
        | cbv beta; intros ? ? ?
        | cbv beta; intros ? ?; try eassumption ]
    | |- wp (createPeer _ _ _) _ _ _ => wp_call offering_createPeer
    | |- wp (forEach _ _) _ _ _ => wp_forEach_call (offering peer)
    end
  | wp_unfold
  | multimatch goal with H : I _ |- I _ => exact H end
  | done ].

Lemma offering_forEach_awaitings (n k : nat) (msg : Msg) :
  keeps I (forEach_awaitings n k msg).
Proof.
  revert k. induction n as [|n IH]; intros k s HI; [done|].
  cbn [forEach_awaitings]. repeat off_step.
  all: by apply IH.
Qed.

Lemma offering_handle (ev : Event) : keeps I (handle ev).
Proof.
  intros s HI. destruct ev; unfold handle.
  all: repeat
    first [ off_step
          | lazymatch goal with
            | |- wp (forEach_awaitings _ _ _) _ _ _ => wp_call offering_forEach_awaitings
            end ].
Qed.

Lemma offering_run (evs : list Event) (s : Conn) : I s → I (run s evs).
Proof.
  revert s. induction evs as [|ev evs IH]; intros s HI; [done|].
  cbn [run foldl]. apply IH. exact (keeps_state I _ s (offering_handle ev) HI).
Qed.

End Offering.

(** ** The registry of rooms and peers *)

Lemma wf_alter_room (s : Conn) (room : nat) (f : Room → Room) :
  wellFormed s →
  (∀ ro, roomStore s !! room = Some ro →
     name (f ro) = name ro ∧
     ∀ peerId peer, peers ro !! peerId = Some peer → peers (f ro) !! peerId = Some peer) →
  wellFormed (set_roomStore (alter f room) s).
Proof.
  intros [Hnames Htimers] Hf. split; conn_simpl.
  - intros n r Hr. destruct (Hnames n r Hr) as (ro & Hro & Hname).
    destruct (decide (room = r)) as [->|Hne].
    + exists (f ro). rewrite lookup_alter_eq, Hro. split; [done|].
      by destruct (Hf ro Hro) as [-> _].
    + exists ro. by rewrite lookup_alter_ne.
  - intros t ms p rn fp Ht. destruct (Htimers t ms p rn fp Ht) as (r & ro & Hr & Hro & Hp).
    unfold registered. conn_simpl. destruct (decide (room = r)) as [->|Hne].
    + exists r, (f ro). rewrite lookup_alter_eq, Hro. split_and!; [done..|].
      by apply (Hf ro Hro).
    + exists r, ro. by rewrite lookup_alter_ne.
Qed.

Lemma wf_new_room (s : Conn) (ro : Room) :
  wellFormed s →
  wellFormed (set_roomStore (insert (fresh (dom (roomStore s))) ro) s).
Proof.
  intros [Hnames Htimers].
  assert (∀ r ro', roomStore s !! r = Some ro' →
            <[fresh (dom (roomStore s)):=ro]> (roomStore s) !! r = Some ro') as Hold.
  { intros r ro' Hr. rewrite lookup_insert_ne; [done|]. intros Heq.
    apply (is_fresh (dom (roomStore s))). rewrite Heq. by eapply elem_of_dom_2. }
  split; conn_simpl.
  - intros n r Hr. destruct (Hnames n r Hr) as (ro' & Hro' & Hname). eauto.
  - intros t ms p rn fp Ht. destruct (Htimers t ms p rn fp Ht) as (r & ro' & Hr & Hro' & Hp).
    exists r, ro'. conn_simpl. eauto.
Qed.

Lemma wf_rooms_set (s : Conn) (roomName : string) (room : nat) (ro : Room) :
  wellFormed s →
  roomStore s !! room = Some ro →
  name ro = roomName →
  rooms s !! roomName = None ∨ rooms s !! roomName = Some room →
  wellFormed (set_rooms (insert roomName room) s).
Proof.
  intros [Hnames Htimers] Hro Hname Hreg. split; conn_simpl.
  - intros n r [[<- <-]|[_ Hr]]%lookup_insert_Some; [eauto|by apply Hnames].
  - intros t ms p rn fp Ht. destruct (Htimers t ms p rn fp Ht) as (r & ro' & Hr & Hro' & Hp).
    exists r, ro'. conn_simpl. split_and!; [|done..].
    destruct (decide (roomName = rn)) as [->|Hne]; [|by rewrite lookup_insert_ne].
    rewrite lookup_insert_eq. destruct Hreg; congruence.
Qed.

Lemma wf_timers_insert (s : Conn) (task : Task) (ms : Z) :
  wellFormed s →
  (∀ p rn fp, task = TReconnect p rn fp → registered s rn fp p) →
  wellFormed (set_nextTimer S (set_timers (insert (nextTimer s) (ms, task)) s)).
Proof.
  intros [Hnames Htimers] Htask. split; conn_simpl; [done|].
  intros t ms' p rn fp [[_ Heq]|[_ Hold]]%lookup_insert_Some.
  - injection Heq as _ ->. by apply Htask.
  - by eapply Htimers.
Qed.

Lemma wf_timers_delete (s : Conn) (timer : nat) :
  wellFormed s → wellFormed (set_timers (delete timer) s).
Proof.
  intros [Hnames Htimers]. split; conn_simpl; [done|].
  intros t ms p rn fp [_ Hold]%lookup_delete_Some. by eapply Htimers.
Qed.

Section WellFormed.

Local Abbreviation I := wellFormed.

Lemma wellFormed_writeRoom (room : nat) (f : Room → Room) :
  (∀ ro, name (f ro) = name ro ∧ peers (f ro) = peers ro) →
  keeps I (writeRoom room f).
Proof.
  intros Hf s HI. unfold writeRoom. repeat wp_step.
  apply wf_alter_room; [done|]. intros ro _. destruct (Hf ro) as [-> ->]. done.
Qed.

Lemma wellFormed_setTimeout (task : Task) (ms : Z) (s : Conn) :
  I s →
  (∀ p rn fp, task = TReconnect p rn fp → registered s rn fp p) →
  wp (setTimeout task ms) (fun _ => I) I s.
Proof.
  intros HI Htask. unfold setTimeout. repeat wp_step. by apply wf_timers_insert.
Qed.

Lemma wellFormed_clearTimeout (timer : nat) : keeps I (clearTimeout timer).
Proof. intros s HI. unfold clearTimeout. repeat wp_step. by apply wf_timers_delete. Qed.

Lemma wellFormed_createPeer (room : nat) (peerId publicKey : string) :
  keeps I (createPeer room peerId publicKey).
Proof.
  intros s HI. unfold createPeer. repeat wp_step; try done.
  apply wf_alter_room; [exact HI|]. conn_simpl. intros ro Hro. split; [done|].
  conn_simpl. intros k p Hk. rewrite lookup_insert_ne; [done|].
  intros ->. congruence.
Qed.

Ltac room_update := intros ?; split; reflexivity.

Ltac wf_step :=
  first
  [ wp_step
  | wp_readonly wellFormed
  | lazymatch goal with
    | |- wp (writeRoom _ _) _ _ _ =>
        eapply wp_mono;
        [ eapply wellFormed_writeRoom; [room_update|wp_premise]
        | cbv beta; intros ? ? ?
        | cbv beta; intros ? ?; try eassumption ]
    | |- wp (createPeer _ _ _) _ _ _ => wp_call wellFormed_createPeer
    | |- wp (clearTimeout _) _ _ _ => wp_call wellFormed_clearTimeout
    | |- wp (setTimeout _ _) _ _ _ =>
        eapply wp_mono;
        [ eapply wellFormed_setTimeout;
          [ wp_premise
          | first [ by intros ? ? ? ?
                  | intros ? ? ? [= <- <- <-]; do 2 eexists; split_and!; eassumption ] ]
        | cbv beta; intros ? ? ?
        | cbv beta; intros ? ?; try eassumption ]
    | |- wp (forEach _ _) _ _ _ => wp_forEach_call wellFormed
    end
  | wp_unfold
  | multimatch goal with H : I _ |- I _ => exact H end
  | done ].

Lemma wellFormed_requestEnterRoom (room : nat) : keeps I (requestEnterRoom room).
Proof. intros s HI. unfold requestEnterRoom. repeat wf_step. Qed.

Lemma wellFormed_forEach_awaitings (n k : nat) (msg : Msg) :
  keeps I (forEach_awaitings n k msg).
Proof.
  revert k. induction n as [|n IH]; intros k s HI; [done|].
  cbn [forEach_awaitings]. repeat wf_step.
  all: by apply IH.
Qed.

Lemma wellFormed_enter (room : nat) (enforce : bool) (roomName : string) (s : Conn) :
  I s → rooms s !! roomName = Some room → wp (enter room enforce) (fun _ => I) I s.
Proof.
  intros HI Hreg. destruct (proj1 HI roomName room Hreg) as (ro & Hro & Hname).
  assert (∀ s0 ro0, I s0 → roomStore s0 !! room = Some ro0 → name ro0 = roomName →
            rooms s0 !! roomName = Some room →
            wp (fun s1 =>
                  (if Js.truthy (identity s1) then requestEnterRoom room
                   else modify (set_pendingRooms (fun l => l ++ [room])) >>
                        sendSignalingMessage [[("type", "WANT_PROVE_IDENTITY")]])
                    (set_rooms (insert roomName room) s1))
               (fun _ => I) I s0) as Hrest.
  { intros s0 ro0 HI0 Hro0 Hname0 Hreg0.
    assert (I (set_rooms (insert roomName room) s0)) as HI1
      by (eapply wf_rooms_set; eauto).
    unfold wp at 1. conn_simpl.
    destruct (Js.truthy (identity s0)).
    - by apply wellFormed_requestEnterRoom.
    - repeat wf_step. }
  unfold wp. rewrite enter_cases. cbv zeta. rewrite Hro, Hname, Hreg, Hro.
  destruct (entered (state ro)); try by eapply Hrest.
  destruct enforce; [|done].
  eapply (Hrest _ (set_entered st_not ro)); conn_simpl; try done.
  - apply wf_alter_room; [done|]. by intros ? _.
  - by rewrite lookup_alter_eq, Hro.
Qed.

Lemma wellFormed_create (roomName : string) (members : list string) (s : Conn) :
  I s → rooms s !! roomName = None →
  wp (let! room := newRoom roomName members in
      let! room := setupRoom room in
      rooms_set roomName room >> ret room)
     (fun room s' => I s' ∧ rooms s' !! roomName = Some room) I s.
Proof.
  intros HI Hnone. unfold newRoom, setupRoom, writeRoom, rooms_set.
  repeat wp_step. conn_simpl. split; [|by rewrite lookup_insert_eq].
  eapply wf_rooms_set; conn_simpl.
  - apply wf_alter_room; [by apply wf_new_room|]. by intros ? _.
  - by rewrite lookup_alter_eq, lookup_insert_eq.
  - done.
  - by left.
Qed.

Lemma wellFormed_createRoomOnIncomingCall (roomName peerId : string) (s : Conn) :
  I s →
  wp (createRoomOnIncomingCall roomName peerId)
     (fun room s' => I s' ∧ rooms s' !! roomName = Some room) I s.
Proof.
  intros HI. unfold createRoomOnIncomingCall. apply wp_bind.
  unfold rooms_get. apply wp_bind, wp_get, wp_ret.
  destruct (rooms s !! roomName) as [room|] eqn:Hreg; [by apply wp_ret|].
  by apply wellFormed_create.
Qed.

Lemma wellFormed_enterRoom (peerId : string) : keeps I (enterRoom peerId).
Proof.
  intros s HI. unfold enterRoom. apply wp_bind, wp_get.
  destruct (_onlineStatus s); [|done].
  set (roomName := generateOneToOneRoomName (user_publicKey s) peerId).
  apply wp_bind. unfold rooms_get. apply wp_bind, wp_get, wp_ret.
  apply wp_bind.
  assert (wp (match rooms s !! roomName with
              | Some room => ret room
              | None =>
                  let! room := newRoom roomName [peerId] in
                  let! room := setupRoom room in
                  rooms_set roomName room >> ret room
              end) (fun room s' => I s' ∧ rooms s' !! roomName = Some room) I s) as Hroom.
  { destruct (rooms s !! roomName) as [room|] eqn:Hreg; [by apply wp_ret|].
    by apply wellFormed_create. }
  eapply wp_mono; [exact Hroom| |done].
  cbv beta. intros room s' [HI' Hreg']. repeat wp_step; try done.
  all: unfold Room_enter;
    (eapply wp_mono; [by eapply wellFormed_enter| |done]);
    cbv beta; intros; by repeat wp_step.
Qed.

Lemma wellFormed_getOneToOneRoom (peerId : string) (required : bool) :
  keeps I (getOneToOneRoom peerId required).
Proof.
  intros s HI. unfold getOneToOneRoom. apply wp_bind, wp_get.
  set (roomName := generateOneToOneRoomName (user_publicKey s) peerId).
  apply wp_bind. unfold rooms_get. apply wp_bind, wp_get, wp_ret.
  apply wp_bind.
  destruct (rooms s !! roomName) as [room|] eqn:Hreg.
  - repeat wf_step.
  - destruct required; [|by repeat wf_step].
    assert (wp (let! room := newRoom roomName [peerId] in
                let! room := setupRoom room in
                rooms_set roomName room >> ret (Some room))
              (fun _ => I) I s) as Hroom.
    { pose proof (wellFormed_create roomName [peerId] s HI Hreg) as Hcreate.
      unfold wp, bind in *.
      destruct (newRoom roomName [peerId] s) as [[[room|] s1] out1]; [|done].
      destruct (setupRoom room s1) as [[[room'|] s2] out2]; [|done].
      destruct (rooms_set roomName room' s2) as [[[[]|] s3] out3]; [|done].
      cbn in *. by destruct Hcreate. }
    eapply wp_mono; [exact Hroom| |done].
    cbv beta. intros room s' HI'. repeat wf_step.
Qed.

Lemma wellFormed_handle (ev : Event) : keeps I (handle ev).
Proof.
  intros s HI. destruct ev; unfold handle.
  - repeat wf_step.
  - repeat wf_step.
  - apply wp_bind. wp_call wellFormed_enterRoom. by apply wp_ret.
  - unfold P2PMessaging_call. apply wp_bind, wp_bind.
    wp_call wellFormed_enterRoom. repeat wf_step.
  - apply wp_bind. wp_call wellFormed_getOneToOneRoom. by apply wp_ret.
  - repeat wf_step.
  - repeat wf_step.
  - repeat wf_step.
  - repeat wf_step.
  - repeat first [ wf_step
                 | lazymatch goal with
                   | |- wp (forEach_awaitings _ _ _) _ _ _ =>
                       wp_call wellFormed_forEach_awaitings
                   end ].
  - repeat wf_step.
  - apply wp_bind.
    eapply wp_mono; [by apply wellFormed_createRoomOnIncomingCall| |done].
    cbv beta. intros room s' [HI' Hreg']. by eapply wellFormed_enter.
  - repeat wf_step.
  - repeat wf_step.
  - repeat wf_step.
  - repeat wf_step.
  - repeat wf_step.
  - repeat wf_step.
  - repeat wf_step.
  - repeat wf_step.
  - repeat wf_step.
  - repeat wf_step.
  - repeat wf_step.
  - repeat wf_step.
  - repeat wf_step.
  - repeat wf_step.
Qed.

Lemma wellFormed_run (evs : list Event) (s : Conn) : I s → I (run s evs).
Proof.
  revert s. induction evs as [|ev evs IH]; intros s HI; [done|].
  cbn [run foldl]. apply IH. exact (keeps_state I _ s (wellFormed_handle ev) HI).
Qed.

End WellFormed.

(** ** The reconnection heuristic *)

Lemma reconnects_spec (s : Conn) (ev : Event) (peer : nat) :
  reconnects s ev peer = true ↔
  ∃ timer ms roomName fromPeer po,
    ev = EvTimer timer ∧
    timers s !! timer = Some (ms, TReconnect peer roomName fromPeer) ∧
    peerStore s !! peer = Some po ∧
    isConnected po = false ∧ connectionRole po = Some role_answer.
Proof.
  unfold reconnects. split.
  - destruct ev; try done.
    destruct (timers s !! timer) as [[ms [|p rn fp|]]|] eqn:Ht; try done.
    intros [Hp Hpo]%andb_true_iff. apply bool_decide_eq_true in Hp as ->.
    destruct (peerStore s !! peer) as [po|] eqn:Hpeer; [|done].
    apply andb_true_iff in Hpo as [Hcon%negb_true_iff Hrole%bool_decide_eq_true].
    by exists timer, ms, rn, fp, po.
  - intros (timer & ms & rn & fp & po & -> & -> & -> & -> & ->).
    by rewrite bool_decide_eq_true_2.
Qed.

Lemma offering_reconnects (s : Conn) (ev : Event) (peer : nat) :
  offering peer s → reconnects s ev peer = false.
Proof.
  intros (po & Hpo & Hoff). apply not_true_is_false.
  intros (timer & ms & rn & fp & po' & _ & _ & Hpo' & _ & Hrole)%reconnects_spec.
  rewrite Hpo in Hpo'. injection Hpo' as <-.
  destruct Hoff as [Hoff|Hoff]; congruence.
Qed.

Lemma reoffered_writePeer (peer q : nat) (f : Peer → Peer) :
  (∀ po, connectionRole (f po) = connectionRole po ∧
         noNeedReconnect (f po) = noNeedReconnect po) →
  keeps (reoffered peer) (writePeer q f).
Proof.
  intros Hf s (po & Hpo & Hrole & Hflag). unfold writePeer. repeat wp_step.
  unfold reoffered. conn_simpl. destruct (decide (q = peer)) as [->|Hne].
  - exists (f po). rewrite lookup_alter_eq, Hpo. destruct (Hf po) as [-> ->]. done.
  - exists po. by rewrite lookup_alter_ne.
Qed.

Lemma reoffered_createDataChannel (peer : nat) (roomName peerId : string) (pc : option nat) :
  keeps (reoffered peer) (createDataChannel roomName peerId pc).
Proof.
  intros s HI. unfold createDataChannel, initDataChannel.
  repeat first
    [ wp_step
    | lazymatch goal with
      | |- wp (writePeer _ _) _ _ _ =>
          eapply wp_mono;
          [ eapply (reoffered_writePeer peer); [by intros ?|wp_premise]
          | cbv beta; intros ? ? ?
          | cbv beta; intros ? ?; try eassumption ]
      end
    | multimatch goal with H : reoffered _ _ |- reoffered _ _ => exact H end
    | done ].
Qed.

Lemma reconnect_fires (s : Conn) (timer : nat) (ms : Z) (peer : nat)
    (roomName fromPeer : string) (po : Peer) :
  wellFormed s →
  timers s !! timer = Some (ms, TReconnect peer roomName fromPeer) →
  peerStore s !! peer = Some po →
  isConnected po = false →
  connectionRole po = Some role_answer →
  reoffered peer (step s (EvTimer timer)).
Proof.
  intros [_ Hwf] Htimer Hpeer Hcon Hrole.
  destruct (Hwf _ _ _ _ _ Htimer) as (room & ro & Hroom & Hro & Hp).
  assert (wp (fireTimer timer) (fun _ => reoffered peer) (reoffered peer) s) as Hwp.
  { unfold fireTimer. apply wp_bind, wp_get. rewrite Htimer.
    unfold clearTimeout, runTask, reconnectTimeout, askPeerConnection, doOffer,
      rooms_get, getPeer, readRoom, readPeer, writePeer.
    repeat first
      [ wp_pure_step
      | progress conn_simpl
      | rewrite lookup_alter_eq
      | rewrite Hpeer | rewrite Hroom | rewrite Hro | rewrite Hp
      | rewrite Hcon | rewrite Hrole
      | rewrite bool_decide_eq_true_2 by done
      | progress cbn [negb andb fmap option_fmap option_map]
      | lazymatch goal with
        | |- wp (createDataChannel _ _ _) _ _ _ =>
            eapply wp_mono;
            [ apply (reoffered_createDataChannel peer); unfold reoffered; conn_simpl;
              rewrite ?lookup_alter_eq, Hpeer; eexists; split; [done|]; done
            | cbv beta; intros _ ? ?; by repeat wp_step
            | done ]
        | |- wp (match peerConnection po with _ => _ end) _ _ _ =>
            destruct (peerConnection po)
        | |- wp (if decide _ then _ else _) _ _ _ => case_decide
        | |- wp (if pcConstructorThrows s then _ else _) _ _ _ =>
            destruct (pcConstructorThrows s)
        end ]. }
  unfold step, state_of, handle. unfold wp in Hwp.
  by destruct (fireTimer timer s) as [[[[]|] ?] ?].
Qed.

Lemma candidate_arms (s : Conn) (data : string) (msg : Msg) (peer : nat)
    (po : Peer) (pc : nat) :
  _onlineStatus s = online →
  parseSignaling data = Some msg →
  msg_type msg = Some "candidate" →
  registered s (msg_room msg) (msg_fromPeer msg) peer →
  peerStore s !! peer = Some po →
  peerConnection po = Some pc →
  onSignalingMessage data s =
    (Ok tt,
     if noNeedReconnect po then s
     else set_nextTimer S
            (set_timers
               (insert (nextTimer s)
                  (2500%Z, TReconnect peer (msg_room msg) (msg_fromPeer msg))) s),
     [PcAddIceCandidate pc (msg_label msg) (msg_candidate msg)]).
Proof.
  intros Honline Hparse Htype (room & ro & Hroom & Hro & Hp) Hpeer Hpc.
  unfold onSignalingMessage. unfold bind at 1, get. rewrite Honline, Hparse.
  unfold bind at 1, ret. unfold is_type. rewrite Htype.
  rewrite !bool_decide_eq_false_2 by discriminate.
  rewrite bool_decide_eq_true_2 by done.
  unfold setTimeout. munfold. unfold getPeer. munfold. cbn.
  rewrite Hroom. cbn. rewrite Hro. cbn. rewrite Hp. cbn.
  rewrite Hpeer. cbn. rewrite Hpc. cbn.
  by destruct (noNeedReconnect po).
Qed.

(** * Further properties *)

(** ** Equations of the handlers *)

Lemma bind_ret {A B} (a : A) (k : A → M B) (s : Conn) : bind (ret a) k s = k a s.
Proof. unfold bind, ret. by destruct (k a s) as [[r s'] out]. Qed.

Lemma bind_get {B} (k : Conn → M B) (s : Conn) : bind get k s = k s s.
Proof. unfold bind, get. by destruct (k s s) as [[r s'] out]. Qed.

Lemma bind_modify {B} (f : Conn → Conn) (k : unit → M B) (s : Conn) :
  bind (modify f) k s = k tt (f s).
Proof. unfold bind, modify. by destruct (k tt (f s)) as [[r s'] out]. Qed.

Lemma bind_emit {B} (e : Effect) (k : unit → M B) (s : Conn) :
  bind (emit e) k s = match k tt s with (r, s', out) => (r, s', e :: out) end.
Proof. done. Qed.

Lemma bind_throw {A B} (err : string) (k : A → M B) (s : Conn) :
  bind (throw err) k s = (Throw err, s, []).
Proof. done. Qed.

Lemma bind_assoc {A B C} (m : M A) (k : A → M B) (h : B → M C) (s : Conn) :
  bind (bind m k) h s = bind m (fun a => bind (k a) h) s.
Proof.
  unfold bind. destruct (m s) as [[[a|e] s1] out1]; [|done].
  destruct (k a s1) as [[[b|e] s2] out2]; [|done].
  destruct (h b s2) as [[r s3] out3]. by rewrite app_assoc.
Qed.

Lemma bind_rooms_get {B} (roomName : string) (k : option nat → M B) (s : Conn) :
  bind (rooms_get roomName) k s = k (rooms s !! roomName) s.
Proof. unfold rooms_get. by rewrite bind_assoc, bind_get, bind_ret. Qed.

Lemma bind_readRoom {B} (room : nat) (ro : Room) (k : Room → M B) (s : Conn) :
  roomStore s !! room = Some ro → bind (readRoom room) k s = k ro s.
Proof. intros Hro. unfold readRoom. rewrite bind_assoc, bind_get, Hro. apply bind_ret. Qed.

Lemma bind_readPeer {B} (peer : nat) (po : Peer) (k : Peer → M B) (s : Conn) :
  peerStore s !! peer = Some po → bind (readPeer peer) k s = k po s.
Proof. intros Hpo. unfold readPeer. rewrite bind_assoc, bind_get, Hpo. apply bind_ret. Qed.

Lemma bind_getPeer {B} (room : nat) (ro : Room) (peerId : string)
    (k : option nat → M B) (s : Conn) :
  roomStore s !! room = Some ro → bind (getPeer room peerId) k s = k (peers ro !! peerId) s.
Proof.
  intros Hro. unfold getPeer. rewrite bind_assoc, (bind_readRoom _ ro) by done.
  apply bind_ret.
Qed.

Lemma bind_sign {B} (data : option string) (k : ProvingData → M B) (s : Conn) :
  bind (sign data) k s = k (signedBy s data) s.
Proof. unfold sign. by rewrite bind_assoc, bind_get, bind_ret. Qed.

Lemma bind_writeRoom {B} (room : nat) (f : Room → Room) (k : unit → M B) (s : Conn) :
  bind (writeRoom room f) k s = k tt (set_roomStore (alter f room) s).
Proof. apply bind_modify. Qed.

Lemma bind_writePeer {B} (peer : nat) (f : Peer → Peer) (k : unit → M B) (s : Conn) :
  bind (writePeer peer f) k s = k tt (set_peerStore (alter f peer) s).
Proof. apply bind_modify. Qed.

Lemma bind_deref {A B} (a : A) (k : A → M B) (s : Conn) : bind (deref (Some a)) k s = k a s.
Proof. apply bind_ret. Qed.

(** Runs the steps of a handler that read or change the state. *)
Ltac mrun :=
  repeat first
    [ rewrite bind_assoc
    | rewrite bind_get
    | rewrite bind_ret
    | rewrite bind_deref
    | rewrite bind_modify
    | rewrite bind_rooms_get
    | progress unfold newRoom, setupRoom, rooms_set, writeRoom, writePeer ].

(** [try { m } catch (e) { }] *)
Lemma try_catch_swallow (m : M unit) (s : Conn) :
  try_catch m (fun _ => ret tt) s =
    match m s with (_, s', out) => (Ok tt, s', out) end.
Proof.
  unfold try_catch, ret. destruct (m s) as [[[[]|e] s'] out]; by rewrite ?app_nil_r.
Qed.

Lemma sendInternal_run (s : Conn) (ch : nat) (data : Json) :
  sendInternal ch data s =
    (Ok (if decide (readyState s ch = rs_open)
         then if channelSendThrows ch data then 0 else 1
         else 0), s,
     if decide (readyState s ch = rs_open) then [ChannelSend ch data] else []).
Proof.
  unfold sendInternal. rewrite bind_get.
  case_decide as Hopen; [by rewrite Hopen|].
  by destruct (readyState s ch).
Qed.


(** ** Messages of a peer *)

(** [onMessage] up to the dispatch on the type. *)
Lemma onMessage_run (s : Conn) (roomName peerId : string) (ch : nat)
    (data : string) (msg : PeerMsg) :
  parsePeer data = Some msg →
  onMessage roomName peerId ch data s =
    match
      (if decide (pm_type msg = Some MSG_TYPE_CHECK_CHANNEL) then
         sendSignalingMessage
           [[("room", roomName)];
            peerMsg_json msg
              match rooms s !! roomName with
              | Some _ => [("fromPeerId", peerId); ("roomName", roomName)]
              | None => []
              end]
       else if decide (pm_type msg = Some MSG_TYPE_REQUEST_PROOF_IDENTITY) then
         let! signedData := sign (pm_data msg) in
         send roomName (proofResponse signedData) (Some ch) >> ret tt
       else if decide (pm_type msg = Some MSG_TYPE_RESPONSE_PROOF_IDENTITY) then
         onProofIdentity roomName peerId ch (rooms s !! roomName) msg
       else ret tt) s
    with
    | (_, s', out) => (Ok tt, s', handedToRoom s roomName peerId msg ++ out)
    end.
Proof.
  intros Hparse. unfold onMessage. rewrite try_catch_swallow, Hparse, bind_ret, bind_rooms_get.
  unfold handedToRoom.
  destruct (rooms s !! roomName) as [room|]; [rewrite bind_emit|rewrite bind_ret].
  all: repeat case_decide; unfold proofResponse.
  all: match goal with
       | |- context [match ?m ?s0 with _ => _ end] => by destruct (m s0) as [[r s'] out]
       end.
Qed.

(** X1. [onMessage] never throws, whatever arrives and in whatever state;
    data that cannot be parsed changes nothing and sends nothing. *)
Theorem onMessage_never_throws (s : Conn) (roomName peerId : string) (ch : nat)
    (data : string) :
  result_of (onMessage roomName peerId ch data s) = Ok tt ∧
  (parsePeer data = None → onMessage roomName peerId ch data s = (Ok tt, s, [])).
Proof.
  unfold onMessage. rewrite try_catch_swallow. split.
  - match goal with |- context [bind ?m ?k ?s0] => by destruct (bind m k s0) as [[r s'] out] end.
  - intros Hparse. by rewrite Hparse.
Qed.

(** X2. A proof request is answered on the channel it came on, when that
    channel is open: with the signature of the data the request carries,
    that data, and the public key of the user. The connector is unchanged,
    and nothing else in the request matters. *)
Theorem proof_request_answered (s : Conn) (roomName peerId : string) (ch : nat)
    (data : string) (msg : PeerMsg) :
  parsePeer data = Some msg →
  pm_type msg = Some MSG_TYPE_REQUEST_PROOF_IDENTITY →
  onMessage roomName peerId ch data s =
    (Ok tt, s,
     handedToRoom s roomName peerId msg ++
     if decide (readyState s ch = rs_open)
     then [ChannelSend ch (proofResponse (signedBy s (pm_data msg)))]
     else []).
Proof.
  intros Hparse Htype. rewrite (onMessage_run _ _ _ _ _ msg) by done.
  rewrite Htype. rewrite decide_False by done. rewrite decide_True by done.
  rewrite bind_sign. unfold send, bind. rewrite sendInternal_run. cbn.
  by rewrite app_nil_r.
Qed.

(** The branch of a proof, when the room and its challenges are there. *)
Lemma onProofIdentity_run (s : Conn) (roomName peerId : string) (ch room : nat)
    (msg : PeerMsg) (ro : Room) (sent : gmap string string) :
  Js.truthy (pm_rejected msg) = false →
  roomStore s !! room = Some ro →
  proofData ro = Some sent →
  onProofIdentity roomName peerId ch (Some room) msg s =
    match rejectedReason ro sent peerId msg with
    | Some reason => (sendInternal ch (rejection reason) >> channel_close ch) s
    | None =>
        if verifyBytes (pm_signature msg) (pm_data msg) (pm_publicKey msg) then
          let ro' := set_proofData (fmap (delete peerId)) ro in
          let s' := set_roomStore (alter (set_proofData (fmap (delete peerId))) room) s in
          if provenPublicKeyAllowed ro' peerId (pm_publicKey msg) then
            (Ok tt, s', [RoomProvenPublicKey room peerId (pm_publicKey msg)])
          else
            match
              (sendInternal ch (rejection "Public key owner is not allowed to connect") >>
               channel_close ch) s'
            with
            | (r, s'', out) =>
                (r, s'', RoomProvenPublicKey room peerId (pm_publicKey msg) :: out)
            end
        else (sendInternal ch invalidSignature >> channel_close ch) s
    end.
Proof.
  intros Hrej Hro Hsent. unfold onProofIdentity. rewrite Hrej.
  unfold deref at 1. rewrite bind_ret, (bind_readRoom _ ro) by done.
  rewrite Hsent. unfold deref. rewrite bind_ret.
  unfold rejectedReason. repeat case_decide; try done.
  destruct (verifyBytes _ _ _); [|done].
  rewrite bind_writeRoom.
  rewrite (bind_readRoom _ (set_proofData (fmap (delete peerId)) ro))
    by (cbn; by rewrite lookup_alter_eq, Hro).
  rewrite bind_emit. cbn zeta. by destruct (provenPublicKeyAllowed _ _ _).
Qed.

(** A notice or a rejection goes out on an open channel, which is then
    closed. *)
Lemma reject_run (s : Conn) (ch : nat) (notice : Json) :
  (sendInternal ch notice >> channel_close ch) s =
    (Ok tt, state_of (channel_close ch s),
     (if decide (readyState s ch = rs_open) then [ChannelSend ch notice] else [])
     ++ [ChannelClose ch]).
Proof. unfold bind. by rewrite sendInternal_run. Qed.

Lemma onMessage_proof_run (s : Conn) (roomName peerId : string) (ch : nat)
    (data : string) (msg : PeerMsg) :
  parsePeer data = Some msg →
  pm_type msg = Some MSG_TYPE_RESPONSE_PROOF_IDENTITY →
  onMessage roomName peerId ch data s =
    match onProofIdentity roomName peerId ch (rooms s !! roomName) msg s with
    | (_, s', out) => (Ok tt, s', handedToRoom s roomName peerId msg ++ out)
    end.
Proof.
  intros Hparse Htype. rewrite (onMessage_run _ _ _ _ _ msg) by done.
  rewrite Htype. by repeat (rewrite decide_False by done); rewrite decide_True by done.
Qed.

Lemma not_member_iff (members : list string) (publicKey : string) :
  Forall (fun member => Some member ≠ Some publicKey) members ↔ publicKey ∉ members.
Proof.
  rewrite Forall_forall. split.
  - intros Hall Hin. by apply (Hall publicKey).
  - intros Hnot member Hin [= ->]. done.
Qed.

(** A proof that passes the four checks. *)
Lemma proof_accepted (s : Conn) (roomName peerId : string) (ch : nat)
    (data : string) (msg : PeerMsg) (room : nat) (ro : Room) (sent : gmap string string) :
  parsePeer data = Some msg →
  pm_type msg = Some MSG_TYPE_RESPONSE_PROOF_IDENTITY →
  Js.truthy (pm_rejected msg) = false →
  rooms s !! roomName = Some room →
  roomStore s !! room = Some ro →
  proofData ro = Some sent →
  sent !! peerId = pm_data msg →
  pm_publicKey msg = Some peerId →
  peerId ∈ memberPublicKeys ro →
  verifyBytes (pm_signature msg) (pm_data msg) (pm_publicKey msg) = true →
  provenPublicKeyAllowed (set_proofData (fmap (delete peerId)) ro) peerId (Some peerId) = true →
  onMessage roomName peerId ch data s =
    (Ok tt, set_roomStore (alter (set_proofData (fmap (delete peerId))) room) s,
     [RoomOnMessageInternal room msg peerId roomName;
      RoomProvenPublicKey room peerId (Some peerId)]).
Proof.
  intros Hparse Htype Hrej Hroom Hro Hsent Hdata Hkey Hmember Hverify Hallowed.
  rewrite (onMessage_proof_run _ _ _ _ _ msg) by done. unfold handedToRoom. rewrite Hroom.
  rewrite (onProofIdentity_run _ _ _ _ _ _ ro sent) by done.
  unfold rejectedReason. rewrite decide_False by (by intros ?).
  rewrite decide_False by (by intros ?).
  rewrite decide_False by (rewrite Hkey, not_member_iff; by intros ?).
  rewrite Hverify. cbn zeta. rewrite Hkey, Hallowed. done.
Qed.

(** X3. The round trip of an identity proof. The channel of [A] with the
    peer [B] opens: [A] records a fresh challenge for [B] and sends the
    proof request that carries it. [B], which gets this request, answers
    with the challenge signed. [A], which gets this answer, accepts it when
    the signature verifies and the room admits the key: nothing is sent
    back, the channel is not closed, and the challenge is used up. *)
Theorem proof_round_trip (sA sB : Conn) (roomName : string) (room peer chA chB : nat)
    (ro : Room) (roomNameB peerIdB : string)
    (random1 random2 request response : string) (msg : PeerMsg) :
  let B := user_publicKey sB in
  let challenge := stringToHexString random2 in
  let proof := signedBy sB (Some challenge) in
  let sA' := state_of (onOpenDataChannel roomName B chA false random1 random2 sA) in
  rooms sA !! roomName = Some room →
  roomStore sA !! room = Some ro →
  peers ro !! B = Some peer →
  B ∈ memberPublicKeys ro →
  readyState sA chA = rs_open →
  readyState sB chB = rs_open →
  parsePeer request = Some msg →
  pm_type msg = Some MSG_TYPE_REQUEST_PROOF_IDENTITY →
  pm_data msg = Some challenge →
  parsePeer response = Some (proofOf proof) →
  verifyBytes (Some (signatureHex proof)) (Some challenge) (Some B) = true →
  (∀ ro', provenPublicKeyAllowed ro' B (Some B) = true) →
  (ChannelSend chA (proofRequest (signedBy sA (Some challenge)))
     ∈ effects_of (onOpenDataChannel roomName B chA false random1 random2 sA)) ∧
  challengeOf sA' roomName B = Some challenge ∧
  onMessage roomNameB peerIdB chB request sB =
    (Ok tt, sB,
     handedToRoom sB roomNameB peerIdB msg ++ [ChannelSend chB (proofResponse proof)]) ∧
  proofResponse proof = peerMsg_json (proofOf proof) [] ∧
  effects_of (onMessage roomName B chA response sA') =
    [RoomOnMessageInternal room (proofOf proof) B roomName;
     RoomProvenPublicKey room B (Some B)] ∧
  challengeOf (state_of (onMessage roomName B chA response sA')) roomName B = None ∧
  readyStates (state_of (onMessage roomName B chA response sA')) = readyStates sA.
Proof.
  intros B challenge proof sA' Hroom Hro Hpeer Hmember HopenA HopenB
    Hrequest Htype Hdata Hresponse Hverify Hallowed.
  assert (onOpenDataChannel roomName B chA false random1 random2 sA =
    (Ok tt,
     set_roomStore
       (alter (set_proofData (fun pd => Some (<[B := challenge]> (default ∅ pd)))) room)
       (set_peerStore (alter (set_dataChannel (fun _ => Some chA)) peer) sA),
     (if onOpenDataChannelHook ro then [RoomOnOpenDataChannel room B] else []) ++
     [ChannelSend chA (proofRequest (signedBy sA (Some challenge)))])) as Hopen.
  { unfold onOpenDataChannel, when. rewrite bind_ret, bind_rooms_get, Hroom.
    unfold deref at 1. rewrite bind_ret, (bind_readRoom _ ro) by done.
    assert (∀ (k : unit → M unit),
      k tt sA = (Ok tt, set_roomStore
         (alter (set_proofData (fun pd => Some (<[B := challenge]> (default ∅ pd)))) room)
         (set_peerStore (alter (set_dataChannel (fun _ => Some chA)) peer) sA),
         [ChannelSend chA (proofRequest (signedBy sA (Some challenge)))]) →
      bind (if onOpenDataChannelHook ro then emit (RoomOnOpenDataChannel room B) else ret tt)
        k sA =
      (Ok tt, set_roomStore
         (alter (set_proofData (fun pd => Some (<[B := challenge]> (default ∅ pd)))) room)
         (set_peerStore (alter (set_dataChannel (fun _ => Some chA)) peer) sA),
       (if onOpenDataChannelHook ro then [RoomOnOpenDataChannel room B] else []) ++
       [ChannelSend chA (proofRequest (signedBy sA (Some challenge)))])) as Hhook.
    { intros k Hk. destruct (onOpenDataChannelHook ro).
      - by rewrite bind_emit, Hk.
      - by rewrite bind_ret, Hk. }
    apply Hhook.
    rewrite (bind_getPeer _ ro), Hpeer by done. unfold deref. rewrite bind_ret.
    rewrite bind_writePeer, bind_writeRoom, bind_sign.
    unfold send, bind. rewrite sendInternal_run.
    rewrite decide_True by done. done. }
  assert (challengeOf sA' roomName B = Some challenge) as Hchallenge.
  { unfold sA', challengeOf. rewrite Hopen. cbn. rewrite Hroom. cbn.
    rewrite lookup_alter_eq, Hro. cbn. by rewrite lookup_insert_eq. }
  assert (onMessage roomName B chA response sA' =
    (Ok tt, set_roomStore (alter (set_proofData (fmap (delete B))) room) sA',
     [RoomOnMessageInternal room (proofOf proof) B roomName;
      RoomProvenPublicKey room B (Some B)])) as Haccept.
  { unfold sA'. rewrite Hopen. cbn [state_of fst snd].
    apply (proof_accepted _ _ _ _ _ _ _
             (set_proofData (fun pd => Some (<[B := challenge]> (default ∅ pd))) ro)
             (<[B := challenge]> (default ∅ (proofData ro)))); try done; cbn.
    - by rewrite lookup_alter_eq, Hro.
    - by rewrite lookup_insert_eq. }
  split_and!.
  - rewrite Hopen. cbn. apply elem_of_app. right. by left.
  - done.
  - rewrite (onMessage_run _ _ _ _ _ msg) by done.
    rewrite Htype. rewrite decide_False by done. rewrite decide_True by done.
    rewrite bind_sign. unfold send, bind. rewrite sendInternal_run. cbn.
    by rewrite app_nil_r, decide_True, Hdata by done.
  - done.
  - by rewrite Haccept.
  - rewrite Haccept. unfold challengeOf in *. cbn.
    destruct (rooms sA' !! roomName) as [room'|] eqn:Hroom'; [|done]. cbn in *.
    assert (room' = room) as -> by (unfold sA' in Hroom'; rewrite Hopen in Hroom'; cbn in *; congruence).
    rewrite lookup_alter_eq.
    destruct (roomStore sA' !! room) as [ro'|]; [|done]. cbn in *.
    destruct (proofData ro') as [sent|]; [|done]. cbn. by rewrite lookup_delete_eq.
  - rewrite Haccept. unfold sA'. by rewrite Hopen.
Qed.

(** X4. A proof is good for one acceptance. When the proof that was just
    accepted arrives a second time on the channel, it is rejected as not
    matching the data that was sent, and the channel is closed. *)
Theorem proof_replay_rejected (s : Conn) (roomName peerId : string) (ch : nat)
    (data : string) (msg : PeerMsg) (room : nat) (ro : Room) (sent : gmap string string)
    (challenge : string) :
  let s' := state_of (onMessage roomName peerId ch data s) in
  parsePeer data = Some msg →
  pm_type msg = Some MSG_TYPE_RESPONSE_PROOF_IDENTITY →
  Js.truthy (pm_rejected msg) = false →
  rooms s !! roomName = Some room →
  roomStore s !! room = Some ro →
  proofData ro = Some sent →
  sent !! peerId = Some challenge →
  pm_data msg = Some challenge →
  pm_publicKey msg = Some peerId →
  peerId ∈ memberPublicKeys ro →
  verifyBytes (pm_signature msg) (pm_data msg) (pm_publicKey msg) = true →
  provenPublicKeyAllowed (set_proofData (fmap (delete peerId)) ro) peerId (Some peerId) = true →
  readyState s ch = rs_open →
  effects_of (onMessage roomName peerId ch data s) =
    [RoomOnMessageInternal room msg peerId roomName;
     RoomProvenPublicKey room peerId (Some peerId)] ∧
  onMessage roomName peerId ch data s' =
    (Ok tt, state_of (channel_close ch s'),
     [RoomOnMessageInternal room msg peerId roomName;
      ChannelSend ch (rejection "Received data does not match the sent data");
      ChannelClose ch]).
Proof.
  intros s' Hparse Htype Hrej Hroom Hro Hsent Hchallenge Hdata Hkey Hmember Hverify
    Hallowed Hopen.
  assert (onMessage roomName peerId ch data s =
    (Ok tt, set_roomStore (alter (set_proofData (fmap (delete peerId))) room) s,
     [RoomOnMessageInternal room msg peerId roomName;
      RoomProvenPublicKey room peerId (Some peerId)])) as Haccept.
  { apply (proof_accepted _ _ _ _ _ _ _ ro sent); try done. by rewrite Hdata. }
  split; [by rewrite Haccept|].
  unfold s'. rewrite Haccept. cbn [state_of fst snd].
  rewrite (onMessage_proof_run _ _ _ _ _ msg) by done. unfold handedToRoom. cbn.
  rewrite Hroom.
  rewrite (onProofIdentity_run _ _ _ _ _ _ (set_proofData (fmap (delete peerId)) ro)
             (delete peerId sent)); [|done| |].
  - unfold rejectedReason. rewrite decide_True.
    + by rewrite reject_run, decide_True by done.
    + by rewrite lookup_delete_eq, Hdata.
  - cbn. by rewrite lookup_alter_eq, Hro.
  - cbn. by rewrite Hsent.
Qed.

(** X5. A proof with the right challenge and the key of the peer is
    rejected when the key is not in the member list of the room (an empty
    list admits nobody): the rejection goes to the peer, the channel is
    closed, and the challenge stays recorded. *)
Theorem proof_of_non_member_rejected (s : Conn) (roomName peerId : string) (ch : nat)
    (data : string) (msg : PeerMsg) (room : nat) (ro : Room) (sent : gmap string string) :
  parsePeer data = Some msg →
  pm_type msg = Some MSG_TYPE_RESPONSE_PROOF_IDENTITY →
  Js.truthy (pm_rejected msg) = false →
  rooms s !! roomName = Some room →
  roomStore s !! room = Some ro →
  proofData ro = Some sent →
  sent !! peerId = pm_data msg →
  pm_publicKey msg = Some peerId →
  peerId ∉ memberPublicKeys ro →
  readyState s ch = rs_open →
  onMessage roomName peerId ch data s =
    (Ok tt, state_of (channel_close ch s),
     [RoomOnMessageInternal room msg peerId roomName;
      ChannelSend ch (rejection "Received public key is not allowed");
      ChannelClose ch]) ∧
  roomStore (state_of (channel_close ch s)) = roomStore s.
Proof.
  intros Hparse Htype Hrej Hroom Hro Hsent Hdata Hkey Hmember Hopen.
  rewrite (onMessage_proof_run _ _ _ _ _ msg) by done. unfold handedToRoom. rewrite Hroom.
  rewrite (onProofIdentity_run _ _ _ _ _ _ ro sent) by done.
  unfold rejectedReason. rewrite decide_False by (by intros ?).
  rewrite decide_False by (by intros ?).
  rewrite decide_True by (by rewrite Hkey, not_member_iff).
  by rewrite reject_run, decide_True by done.
Qed.

(** X6. A proof that passes the checks of the challenge, of the key and of
    the member list, but whose signature does not verify, is turned down:
    the notice ["Invalid signature"] goes to the peer, with the type of a
    proof request, the channel is closed, the room is not asked about the
    key, and the challenge stays recorded. *)
Theorem proof_with_bad_signature_rejected (s : Conn) (roomName peerId : string) (ch : nat)
    (data : string) (msg : PeerMsg) (room : nat) (ro : Room) (sent : gmap string string) :
  parsePeer data = Some msg →
  pm_type msg = Some MSG_TYPE_RESPONSE_PROOF_IDENTITY →
  Js.truthy (pm_rejected msg) = false →
  rooms s !! roomName = Some room →
  roomStore s !! room = Some ro →
  proofData ro = Some sent →
  sent !! peerId = pm_data msg →
  pm_publicKey msg = Some peerId →
  peerId ∈ memberPublicKeys ro →
  verifyBytes (pm_signature msg) (pm_data msg) (pm_publicKey msg) = false →
  readyState s ch = rs_open →
  onMessage roomName peerId ch data s =
    (Ok tt, state_of (channel_close ch s),
     [RoomOnMessageInternal room msg peerId roomName;
      ChannelSend ch invalidSignature;
      ChannelClose ch]) ∧
  roomStore (state_of (channel_close ch s)) = roomStore s.
Proof.
  intros Hparse Htype Hrej Hroom Hro Hsent Hdata Hkey Hmember Hverify Hopen.
  rewrite (onMessage_proof_run _ _ _ _ _ msg) by done. unfold handedToRoom. rewrite Hroom.
  rewrite (onProofIdentity_run _ _ _ _ _ _ ro sent) by done.
  unfold rejectedReason. rewrite decide_False by (by intros ?).
  rewrite decide_False by (by intros ?).
  rewrite decide_False by (rewrite Hkey, not_member_iff; by intros ?).
  rewrite Hverify. by rewrite reject_run, decide_True by done.
Qed.

(** X7. A proof message that carries a rejection is the notice that the
    peer turned this side down: the room's [onRejected] hook, when one is
    bound, gets the peer and the reason, the channel is closed, and nothing
    is sent. *)
Theorem rejection_notice_closes_channel (s : Conn) (roomName peerId : string) (ch : nat)
    (data : string) (msg : PeerMsg) (room : nat) (ro : Room) (reason : string) :
  parsePeer data = Some msg →
  pm_type msg = Some MSG_TYPE_RESPONSE_PROOF_IDENTITY →
  pm_rejected msg = Some reason →
  reason ≠ "" →
  rooms s !! roomName = Some room →
  roomStore s !! room = Some ro →
  onMessage roomName peerId ch data s =
    (Ok tt, state_of (channel_close ch s),
     RoomOnMessageInternal room msg peerId roomName ::
     (if onRejectedHook ro then [RoomOnRejected room peerId reason] else []) ++
     [ChannelClose ch]) ∧
  roomStore (state_of (channel_close ch s)) = roomStore s.
Proof.
  intros Hparse Htype Hrej Hreason Hroom Hro.
  rewrite (onMessage_proof_run _ _ _ _ _ msg) by done. unfold handedToRoom. rewrite Hroom.
  unfold onProofIdentity. rewrite Hrej.
  assert (Js.truthy (Some reason) = true) as -> by by destruct reason.
  unfold deref. rewrite bind_ret, (bind_readRoom _ ro) by done.
  unfold when. destruct (onRejectedHook ro).
  - by rewrite bind_emit.
  - by rewrite bind_ret.
Qed.

(** X8. A proof message for which no challenge can be looked up is dropped
    silently. When no room is registered under the name of the channel, the
    message does nothing at all; when the room has never recorded a
    challenge, the room is handed the message and that is all. The peer
    gets no rejection and the channel is not closed. *)
Theorem proof_without_challenge_ignored (s : Conn) (roomName peerId : string) (ch : nat)
    (data : string) (msg : PeerMsg) :
  parsePeer data = Some msg →
  pm_type msg = Some MSG_TYPE_RESPONSE_PROOF_IDENTITY →
  (rooms s !! roomName = None →
   onMessage roomName peerId ch data s = (Ok tt, s, [])) ∧
  (∀ room ro,
     rooms s !! roomName = Some room →
     roomStore s !! room = Some ro →
     proofData ro = None →
     Js.truthy (pm_rejected msg) = false →
     onMessage roomName peerId ch data s =
       (Ok tt, s, [RoomOnMessageInternal room msg peerId roomName])).
Proof.
  intros Hparse Htype. rewrite (onMessage_proof_run _ _ _ _ _ msg) by done.
  unfold handedToRoom. split.
  - intros ->. unfold onProofIdentity. by destruct (Js.truthy (pm_rejected msg)).
  - intros room ro -> Hro Hnone Hrej. unfold onProofIdentity. rewrite Hrej.
    unfold deref at 1. rewrite bind_ret, (bind_readRoom _ ro) by done.
    by rewrite Hnone.
Qed.

(** ** The web socket *)

(** A live keepalive interval is the one the connector has on record. *)
Lemma keepalive_handle (ev : Signaling.Event) (l : Signaling.Link) :
  (∀ j, j ∈ Signaling.intervals l → Signaling.pingSignalingInterval l = Some j) →
  ∀ j, j ∈ Signaling.intervals (Signaling.handle ev l).1 →
       Signaling.pingSignalingInterval (Signaling.handle ev l).1 = Some j.
Proof.
  intros Hinv.
  assert (∀ message l', (∀ j, j ∈ Signaling.intervals l' →
              Signaling.pingSignalingInterval l' = Some j) →
            ∀ j, j ∈ Signaling.intervals (Signaling.sendSignalingMessage message l').1 →
              Signaling.pingSignalingInterval (Signaling.sendSignalingMessage message l').1
                = Some j) as Hsend.
  { intros message l' Hinv'.
    unfold Signaling.sendSignalingMessage, Signaling.getWebSocket, Signaling.newWebSocket,
      Signaling.then_.
    repeat (case_match; simplify_eq/=); try done.
    all: repeat match goal with
         | H : context [(<[_ := _]> _) !! _] |- _ => rewrite lookup_insert_eq in H
         end; simplify_eq/=; done. }
  destruct ev; cbn.
  - by apply Hsend.
  - unfold Signaling.close, Signaling.getWebSocket, Signaling.newWebSocket, Signaling.then_.
    repeat (case_match; simplify_eq/=); try done.
  - unfold Signaling.onopen.
    assert ((match Signaling.pingSignalingInterval l with
             | Some old => Signaling.intervals l ∖ {[old]}
             | None => Signaling.intervals l
             end) = ∅) as Hnone.
    { apply set_eq. intros j. split; [|set_solver].
      destruct (Signaling.pingSignalingInterval l) as [old|] eqn:Hold.
      - intros [Hj Hne]%elem_of_difference. specialize (Hinv j Hj). set_solver.
      - intros Hj. by specialize (Hinv j Hj). }
    destruct (Signaling.promises l !! socket) as [[]|]; cbn; [..|done]; rewrite Hnone;
      intros j Hj;
      apply elem_of_union in Hj as [Hj%elem_of_singleton|Hj%elem_of_empty]; by subst.
  - unfold Signaling.onerror. repeat (case_match; simplify_eq/=); done.
  - unfold Signaling.onclose, Signaling.onSignalingChannelClosed.
    case_decide; [|done]. cbn. intros j Hj.
    destruct (Signaling.pingSignalingInterval l) as [old|] eqn:Hold; [|by apply Hinv].
    apply elem_of_difference in Hj as [Hj Hne]. specialize (Hinv j Hj). set_solver.
  - case_decide; [|done]. unfold Signaling.pingSignalingServer.
    destruct (Signaling.signalingReady l) as [[]|]; try done. by apply Hsend.
  - done.
Qed.

(** X9. At most one keepalive interval is alive, whatever happens to the
    sockets: every interval that has not been cancelled is the one the
    connector has on record. *)
Theorem keepalive_single (evs : list Signaling.Event) :
  let l := (Signaling.run Signaling.initial evs).1 in
  (∀ j, j ∈ Signaling.intervals l → Signaling.pingSignalingInterval l = Some j) ∧
  (size (Signaling.intervals l) ≤ 1)%nat.
Proof.
  assert (∀ l, (∀ j, j ∈ Signaling.intervals l → Signaling.pingSignalingInterval l = Some j) →
               ∀ j, j ∈ Signaling.intervals (Signaling.run l evs).1 →
                    Signaling.pingSignalingInterval (Signaling.run l evs).1 = Some j) as Hrun.
  { induction evs as [|ev evs IH]; intros l Hinv; [done|].
    cbn [Signaling.run]. pose proof (keepalive_handle ev l Hinv) as Hstep.
    destruct (Signaling.handle ev l) as [l1 out1]. specialize (IH l1 Hstep).
    by destruct (Signaling.run l1 evs) as [l2 out2]. }
  cbn zeta. specialize (Hrun Signaling.initial).
  assert (∀ j, j ∈ Signaling.intervals (Signaling.run Signaling.initial evs).1 →
            Signaling.pingSignalingInterval (Signaling.run Signaling.initial evs).1 = Some j)
    as Hinv by (apply Hrun; cbn; set_solver).
  split; [done|].
  destruct (Signaling.pingSignalingInterval (Signaling.run Signaling.initial evs).1)
    as [j|] eqn:Hj.
  - assert (Signaling.intervals (Signaling.run Signaling.initial evs).1 ⊆ {[j]}) as Hsub.
    { intros i Hi. specialize (Hinv i Hi). set_solver. }
    apply subseteq_size in Hsub. by rewrite size_singleton in Hsub.
  - assert (Signaling.intervals (Signaling.run Signaling.initial evs).1 = ∅) as ->.
    { apply set_eq. intros i. split; [|set_solver]. intros Hi. by specialize (Hinv i Hi). }
    rewrite size_empty. lia.
Qed.

Lemma signaling_run_app (l : Signaling.Link) (evs1 evs2 : list Signaling.Event) :
  Signaling.run l (evs1 ++ evs2) =
    let '(l1, out1) := Signaling.run l evs1 in
    let '(l2, out2) := Signaling.run l1 evs2 in
    (l2, out1 ++ out2).
Proof.
  revert l. induction evs1 as [|ev evs1 IH]; intros l; cbn [Signaling.run app].
  - by destruct (Signaling.run l evs2).
  - destruct (Signaling.handle ev l) as [l1 out1]. rewrite IH.
    destruct (Signaling.run l1 evs1) as [l2 out2].
    destruct (Signaling.run l2 evs2) as [l3 out3]. by rewrite app_assoc.
Qed.

(** Messages that are sent while the socket is being opened wait on its
    promise, in the order of the calls. *)
Lemma signaling_sends_wait (messages : list (list Json)) (l : Signaling.Link) (p : nat)
    (callbacks : list Signaling.Callback) :
  Signaling.webSocketPromise l = Some p →
  Signaling.signalingReady l ≠ Some false →
  Signaling.promises l !! p = Some (Signaling.Connecting callbacks) →
  ∃ l',
    Signaling.run l (Signaling.Send <$> messages) = (l', []) ∧
    Signaling.webSocketPromise l' = Some p ∧
    Signaling.signalingReady l' = Signaling.signalingReady l ∧
    Signaling.promises l' !! p =
      Some (Signaling.Connecting (callbacks ++ (Signaling.ThenSend <$> messages))).
Proof.
  revert l callbacks. induction messages as [|message messages IH];
    intros l callbacks Hp Hready Hwait.
  - exists l. by rewrite app_nil_r.
  - cbn [fmap list_fmap Signaling.run Signaling.handle].
    unfold Signaling.sendSignalingMessage, Signaling.getWebSocket. rewrite Hp.
    rewrite decide_False by done. unfold Signaling.then_. rewrite Hwait. cbn.
    fold (@fmap list _ _ _ Signaling.Send messages).
    match goal with
    | |- context [Signaling.run ?l1 (Signaling.Send <$> messages)] =>
        destruct (IH l1 (callbacks ++ [Signaling.ThenSend message]))
          as (l' & Hrun & ? & ? & Hl'); [done..| |]
    end.
    { cbn. by rewrite lookup_insert_eq. }
    exists l'. rewrite Hrun.
    split_and!; try done. by rewrite Hl', <- app_assoc.
Qed.

(** Messages that are sent once the socket is open go out at once. *)
Lemma signaling_sends_go (messages : list (list Json)) (l : Signaling.Link) (p : nat) :
  Signaling.webSocketPromise l = Some p →
  Signaling.signalingReady l ≠ Some false →
  Signaling.promises l !! p = Some Signaling.Fulfilled →
  Signaling.run l (Signaling.Send <$> messages) =
    (l, Signaling.WsSend p "webrtc" <$> messages).
Proof.
  intros Hp Hready Hopen. induction messages as [|message messages IH]; [done|].
  cbn [fmap list_fmap Signaling.run Signaling.handle].
  unfold Signaling.sendSignalingMessage, Signaling.getWebSocket. rewrite Hp.
  rewrite decide_False by done. unfold Signaling.then_. rewrite Hopen.
  fold (@fmap list _ _ _ Signaling.Send messages). by rewrite IH.
Qed.

(** The first batch makes the socket. *)
Lemma signaling_first_send (message : list Json) (l : Signaling.Link) :
  Signaling.webSocketPromise l = None →
  Signaling.webSocketThrows l = false →
  ∃ l',
    Signaling.handle (Signaling.Send message) l = (l', [Signaling.WsNew (Signaling.nextSocket l)]) ∧
    Signaling.webSocketPromise l' = Some (Signaling.nextSocket l) ∧
    Signaling.signalingReady l' = Signaling.signalingReady l ∧
    Signaling.promises l' !! Signaling.nextSocket l =
      Some (Signaling.Connecting [Signaling.ThenSend message]) ∧
    Signaling.listening l' = Signaling.listening l ∧
    Signaling.intervals l' = Signaling.intervals l.
Proof.
  intros Hnone Hthrows. cbn.
  unfold Signaling.sendSignalingMessage, Signaling.getWebSocket, Signaling.newWebSocket.
  rewrite Hnone, Hthrows. unfold Signaling.then_. cbn. rewrite lookup_insert_eq. cbn.
  eexists. split; [done|]. cbn. by rewrite lookup_insert_eq.
Qed.

(** X10. The first connection is shared. Whatever is sent before the socket
    has opened makes one socket; when it opens, the waiting batches go out
    on it in the order in which they were sent, each with the tag
    ["webrtc"] in front, and what is sent later follows on the same
    socket. *)
Theorem first_connection_is_shared (first : list Json) (waiting later : list (list Json)) :
  (Signaling.run Signaling.initial
     ((Signaling.Send <$> first :: waiting) ++ [Signaling.Open 0]
      ++ (Signaling.Send <$> later))).2 =
  Signaling.WsNew 0 :: (Signaling.WsSend 0 "webrtc" <$> first :: waiting ++ later).
Proof.
  rewrite signaling_run_app.
  cbn [fmap list_fmap Signaling.run].
  fold (@fmap list _ _ _ Signaling.Send waiting).
  destruct (signaling_first_send first Signaling.initial)
    as (l0 & -> & Hp0 & Hready0 & Hwait0 & _); [done..|].
  destruct (signaling_sends_wait waiting l0 0 [Signaling.ThenSend first])
    as (l1 & -> & Hp1 & Hready1 & Hwait1); [done|by rewrite Hready0|done|].
  rewrite signaling_run_app. cbn [Signaling.run Signaling.handle].
  unfold Signaling.onopen. rewrite Hwait1.
  match goal with
  | |- context [Signaling.run ?l (Signaling.Send <$> later)] =>
      rewrite (signaling_sends_go later l 0)
        by (cbn; try done; by rewrite lookup_insert_eq)
  end.
  cbn. rewrite app_nil_r, fmap_app. by rewrite <- list_fmap_compose.
Qed.

(** No socket is open or opening, and the promise on record is rejected. *)
Lemma signaling_dead_handle (ev : Signaling.Event) (l : Signaling.Link) (p : nat) :
  ¬ Signaling.isOpen ev →
  Signaling.webSocketPromise l = Some p →
  Signaling.promises l !! p = Some Signaling.Broken →
  Signaling.signalingReady l = None →
  Signaling.listening l = ∅ →
  Signaling.intervals l = ∅ →
  ∃ l', Signaling.handle ev l = (l', []) ∧
    Signaling.webSocketPromise l' = Some p ∧
    Signaling.promises l' !! p = Some Signaling.Broken ∧
    Signaling.signalingReady l' = None ∧
    Signaling.listening l' = ∅ ∧
    Signaling.intervals l' = ∅.
Proof.
  intros Hev Hp Hbroken Hready Hlistening Hintervals.
  destruct ev; cbn in *; try done.
  - unfold Signaling.sendSignalingMessage, Signaling.getWebSocket. rewrite Hp, Hready.
    rewrite decide_False by done. unfold Signaling.then_. rewrite Hbroken.
    by exists l.
  - unfold Signaling.close. rewrite Hready. by exists l.
  - unfold Signaling.onerror.
    destruct (Signaling.promises l !! socket) as [[]|] eqn:Hsocket; try by exists l.
    eexists. split; [done|]. cbn. split_and!; try done.
    rewrite lookup_insert_ne; [done|]. intros ->. congruence.
  - unfold Signaling.onclose. rewrite Hlistening. rewrite decide_False by set_solver.
    by exists l.
  - rewrite Hintervals. rewrite decide_False by set_solver. by exists l.
  - eexists. by split.
Qed.

Lemma signaling_dead_run (evs : list Signaling.Event) (l : Signaling.Link) (p : nat) :
  Forall (fun ev => ¬ Signaling.isOpen ev) evs →
  Signaling.webSocketPromise l = Some p →
  Signaling.promises l !! p = Some Signaling.Broken →
  Signaling.signalingReady l = None →
  Signaling.listening l = ∅ →
  Signaling.intervals l = ∅ →
  (Signaling.run l evs).2 = [].
Proof.
  intros Hevs. revert l.
  induction Hevs as [|ev evs Hev Hevs IH]; intros l Hp Hbroken Hready Hlistening Hintervals;
    [done|].
  cbn [Signaling.run].
  destruct (signaling_dead_handle ev l p) as (l1 & -> & ? & ? & ? & ? & ?); [done..|].
  specialize (IH l1). destruct (Signaling.run l1 evs) as [l2 out2]. cbn in *. by apply IH.
Qed.

(** X11. A first connection that fails is final. When the first socket
    reports an error before it has opened, the batch that waited for it is
    lost, and as long as no socket opens nothing that is sent later goes
    out and no other socket is made. *)
Theorem failed_first_connection_is_final (message : list Json)
    (evs : list Signaling.Event) :
  Forall (fun ev => ¬ Signaling.isOpen ev) evs →
  (Signaling.run Signaling.initial
     (Signaling.Send message :: Signaling.Error 0 :: evs)).2 = [Signaling.WsNew 0].
Proof.
  intros Hevs. cbn [Signaling.run].
  destruct (signaling_first_send message Signaling.initial)
    as (l0 & -> & Hp0 & Hready0 & Hwait0 & Hlistening0 & Hintervals0); [done..|].
  cbn [Signaling.handle]. unfold Signaling.onerror. cbn in Hwait0. rewrite Hwait0.
  match goal with
  | |- context [Signaling.run ?l evs] =>
      pose proof (signaling_dead_run evs l 0 Hevs) as Hdead;
      destruct (Signaling.run l evs) as [l' out]
  end.
  cbn in *. rewrite Hdead; try done. by rewrite lookup_insert_eq.
Qed.

Lemma signaling_sends_after_close (messages : list (list Json)) (l : Signaling.Link) :
  Signaling.signalingReady l = Some false →
  Signaling.webSocketThrows l = false →
  (Signaling.run l (Signaling.Send <$> messages)).2 =
    Signaling.WsNew <$> seq (Signaling.nextSocket l) (length messages) ∧
  (∀ i message, messages !! i = Some message →
     Signaling.promises (Signaling.run l (Signaling.Send <$> messages)).1
       !! (Signaling.nextSocket l + i)
     = Some (Signaling.Connecting [Signaling.ThenSend message])) ∧
  (∀ q, q < Signaling.nextSocket l →
     Signaling.promises (Signaling.run l (Signaling.Send <$> messages)).1 !! q
     = Signaling.promises l !! q).
Proof.
  revert l. induction messages as [|message messages IH]; intros l Hready Hthrows.
  - split_and!; [done| |done]. intros i m. by rewrite lookup_nil.
  - cbn [fmap list_fmap Signaling.run Signaling.handle length seq].
    fold (@fmap list _ _ _ Signaling.Send messages).
    assert (Signaling.getWebSocket l = Signaling.newWebSocket l) as Hnew.
    { unfold Signaling.getWebSocket. destruct (Signaling.webSocketPromise l); [|done].
      by rewrite decide_True. }
    unfold Signaling.sendSignalingMessage. rewrite Hnew.
    unfold Signaling.newWebSocket. rewrite Hthrows.
    unfold Signaling.then_. cbn [Signaling.promises]. rewrite lookup_insert_eq.
    match goal with
    | |- context [Signaling.run ?l1 (Signaling.Send <$> messages)] =>
        destruct (IH l1) as (Hout & Hwait & Hkeep); [done..|];
        destruct (Signaling.run l1 (Signaling.Send <$> messages)) as [l2 out2]
    end.
    cbn in *. split_and!.
    + by rewrite Hout.
    + intros [|i] m Hm; simplify_eq/=.
      * rewrite Nat.add_0_r, Hkeep by lia. by rewrite lookup_insert_eq.
      * rewrite <- Nat.add_succ_comm. by apply Hwait.
    + intros q Hq. rewrite Hkeep by lia. by rewrite !lookup_insert_ne by lia.
Qed.

(** X12. After the socket has closed, the connection is not shared: until a
    socket opens, every batch that is sent makes a socket of its own and
    waits for that one. *)
Theorem sends_after_close_make_sockets (messages : list (list Json)) (l : Signaling.Link) :
  Signaling.signalingReady l = Some false →
  Signaling.webSocketThrows l = false →
  (Signaling.run l (Signaling.Send <$> messages)).2 =
    Signaling.WsNew <$> seq (Signaling.nextSocket l) (length messages) ∧
  ∀ i message, messages !! i = Some message →
    Signaling.promises (Signaling.run l (Signaling.Send <$> messages)).1
      !! (Signaling.nextSocket l + i)
    = Some (Signaling.Connecting [Signaling.ThenSend message]).
Proof.
  intros Hready Hthrows.
  destruct (signaling_sends_after_close messages l) as (Hout & Hwait & _); done.
Qed.

(** ** The popup of a new message *)

Lemma substring_0_length (n : nat) (text : string) :
  String.length (substring 0 n text) = (n `min` String.length text)%nat.
Proof.
  revert n. induction text as [|a text IH]; intros [|n]; cbn; try done.
  by rewrite IH.
Qed.

Lemma substring_0_all (n : nat) (text : string) :
  (String.length text ≤ n)%nat → substring 0 n text = text.
Proof.
  revert n. induction text as [|a text IH]; intros [|n] Hn; cbn in *; try done; try lia.
  rewrite IH; [done|lia].
Qed.

Lemma substring_0_substring (k n : nat) (text : string) :
  (k ≤ n)%nat → substring 0 k (substring 0 n text) = substring 0 k text.
Proof.
  revert k n. induction text as [|a text IH]; intros [|k] [|n] Hk; cbn; try done; try lia.
  rewrite IH; [done|lia].
Qed.

Lemma get_substring_0 (i n : nat) (text : string) :
  (i < n)%nat → String.get i (substring 0 n text) = String.get i text.
Proof.
  revert i n. induction text as [|a text IH]; intros [|i] [|n] Hi; cbn; try done; try lia.
  apply IH. lia.
Qed.

Lemma string_length_app (text1 text2 : string) :
  String.length (text1 ++ text2)%string = (String.length text1 + String.length text2)%nat.
Proof. induction text1 as [|a text1 IH]; [done|]. exact (f_equal S IH). Qed.

Lemma lastIndexOf_spec (c : ascii) (text : string) :
  (lastIndexOf c text = (-1)%Z ∧ ∀ j, String.get j text ≠ Some c) ∨
  (∃ i : nat, lastIndexOf c text = Z.of_nat i ∧ (i < String.length text)%nat ∧
     String.get i text = Some c ∧ ∀ j, (i < j)%nat → String.get j text ≠ Some c).
Proof.
  induction text as [|a text IH]; cbn [lastIndexOf].
  - left. split; [done|]. by intros [|j].
  - destruct IH as [[-> Hnone]|(i & -> & Hi & Hget & Hlast)].
    + case_decide as Hac.
      * right. exists 0. cbn. split_and!; [done|lia|by subst|].
        intros [|j] Hj; [lia|]. apply Hnone.
      * left. split; [done|]. intros [|j]; cbn; [congruence|apply Hnone].
    + right. exists (S i). split_and!.
      * destruct (Z.of_nat i) eqn:Hz; lia.
      * cbn. lia.
      * done.
      * intros [|j] Hj; [lia|]. cbn. apply Hlast. lia.
Qed.

(** X13. The excerpt of a message in the popup. A text of at most 50
    characters is shown whole. A longer one is cut: what is shown is the
    first [k] characters followed by [" ..."], where [k] is between 30 and
    49; when [k] is more than 30 the text is cut in front of a space, and in
    either case the characters after the cut, up to the 50th, hold no
    space. The excerpt is never longer than 53 characters. *)
Theorem popup_excerpt_bounds (text : string) :
  ((String.length text ≤ 50)%nat → popupExcerpt text = text) ∧
  ((50 < String.length text)%nat →
   ∃ k, (30 ≤ k ≤ 49)%nat ∧
     popupExcerpt text = (substring 0 k text ++ " ...")%string ∧
     ((30 < k)%nat → String.get k text = Some " "%char) ∧
     (∀ j, (k < j < 50)%nat → String.get j text ≠ Some " "%char)) ∧
  (String.length (popupExcerpt text) ≤ 53)%nat.
Proof.
  unfold popupExcerpt.
  destruct (Nat.ltb_spec 50 (String.length text)) as [Hlong|Hshort].
  - assert (∃ k, (30 ≤ k ≤ 49)%nat ∧
      Z.to_nat (Z.max (lastIndexOf " " (substring 0 50 text)) 30) = k ∧
      ((30 < k)%nat → String.get k text = Some " "%char) ∧
      (∀ j, (k < j < 50)%nat → String.get j text ≠ Some " "%char)) as (k & Hk & Hcut & Hspace & Hlast).
    { pose proof (substring_0_length 50 text) as Hlen.
      destruct (lastIndexOf_spec " " (substring 0 50 text))
        as [[-> Hnone]|(i & -> & Hi & Hget & Hafter)].
      - exists 30. split_and!; [lia..|lia|].
        intros j Hj. rewrite <- (get_substring_0 j 50) by lia. apply Hnone.
      - exists (i `max` 30). split_and!; [lia..| |].
        + intros Hgt. assert (i `max` 30 = i) as -> by lia.
          by rewrite <- (get_substring_0 i 50) by lia.
        + intros j Hj. rewrite <- (get_substring_0 j 50) by lia. apply Hafter. lia. }
    rewrite Hcut, substring_0_substring by lia. split_and!.
    + lia.
    + intros _. by exists k.
    + rewrite string_length_app, substring_0_length. cbn. lia.
  - split_and!.
    + intros _. by apply substring_0_all.
    + lia.
    + rewrite substring_0_length. lia.
Qed.

(** ** Queries of the application layer *)

Lemma bind_pure {A B} (m : M A) (k : A → M B) (a : A) (s : Conn) :
  m s = (Ok a, s, []) → bind m k s = k a s.
Proof. intros Hm. unfold bind. rewrite Hm. by destruct (k a s) as [[r s'] out]. Qed.

Lemma bind_thrown {A B} (m : M A) (k : A → M B) (e : string) (s s' : Conn)
    (out : list Effect) :
  m s = (Throw e, s', out) → bind m k s = (Throw e, s', out).
Proof. intros Hm. unfold bind. by rewrite Hm. Qed.

Lemma bind_Ok {A B} (m : M A) (k : A → M B) (a : A) (s s' : Conn) (out : list Effect) :
  m s = (Ok a, s', out) →
  bind m k s = match k a s' with (r, s'', out') => (r, s'', out ++ out') end.
Proof. intros Hm. unfold bind. by rewrite Hm. Qed.

Lemma getOneToOneRoom_query (s : Conn) (peerId : string) :
  getOneToOneRoom peerId false s =
    match rooms s !! generateOneToOneRoomName (user_publicKey s) peerId with
    | Some room =>
        match roomStore s !! room with
        | Some ro => (Ok (if Nat.leb (size (peers ro)) 1 then Some room else None), s, [])
        | None => (Throw TypeError, s, [])
        end
    | None => (Ok None, s, [])
    end.
Proof.
  unfold getOneToOneRoom. rewrite bind_get, bind_rooms_get.
  destruct (rooms s !! _) as [room|]; rewrite bind_ret; [|done].
  unfold readRoom. rewrite bind_assoc, bind_get.
  destruct (roomStore s !! room) as [ro|]; [|done].
  unfold deref. rewrite bind_ret. by destruct (Nat.leb _ _).
Qed.

Lemma isPeerConnected_query (s : Conn) (peerId : string) :
  isPeerConnected peerId s =
    match getOneToOneRoom peerId false s with
    | (Ok (Some room), _, _) =>
        match roomStore s !! room with
        | Some ro => (connectedPeer s ro peerId, s, [])
        | None => (Throw TypeError, s, [])
        end
    | (Ok None, _, _) => (Ok (Some false), s, [])
    | (Throw e, _, _) => (Throw e, s, [])
    end.
Proof.
  unfold isPeerConnected. pose proof (getOneToOneRoom_query s peerId) as Hquery.
  destruct (rooms s !! _) as [room|]; [|by rewrite (bind_pure _ _ _ _ Hquery), Hquery].
  destruct (roomStore s !! room) as [ro|] eqn:Hro;
    [|by rewrite (bind_thrown _ _ _ _ _ _ Hquery), Hquery].
  rewrite (bind_pure _ _ _ _ Hquery), Hquery.
  destruct (Nat.leb _ _); [|done]. rewrite Hro.
  rewrite (bind_getPeer _ ro) by done. unfold connectedPeer.
  destruct (peers ro !! peerId) as [peer|]; [|done].
  unfold readPeer. rewrite !bind_assoc, !bind_get.
  by destruct (peerStore s !! peer) as [po|].
Qed.

Lemma p2pStatus_query (s : Conn) (publicKey : string) :
  p2pStatus publicKey s =
    match getOneToOneRoom publicKey false s with
    | (Ok (Some room), _, _) =>
        match roomStore s !! room with
        | Some ro =>
            (match connectedPeer s ro publicKey with
             | Ok (Some true) => Ok (Some "channelOpened")
             | Ok _ =>
                 if decide (entered (state ro) ≠ st_not) then Ok (Some "roomRegistered")
                 else Ok None
             | Throw e => Throw e
             end, s, [])
        | None => (Throw TypeError, s, [])
        end
    | (Ok None, _, _) => (Ok None, s, [])
    | (Throw e, _, _) => (Throw e, s, [])
    end.
Proof.
  unfold p2pStatus. pose proof (getOneToOneRoom_query s publicKey) as Hquery.
  destruct (rooms s !! _) as [room|]; [|by rewrite (bind_pure _ _ _ _ Hquery), Hquery].
  destruct (roomStore s !! room) as [ro|] eqn:Hro;
    [|by rewrite (bind_thrown _ _ _ _ _ _ Hquery), Hquery].
  rewrite (bind_pure _ _ _ _ Hquery), Hquery.
  destruct (Nat.leb _ _); [|done]. rewrite Hro.
  rewrite (bind_getPeer _ ro) by done. unfold connectedPeer.
  destruct (peers ro !! publicKey) as [peer|].
  - unfold readPeer. rewrite !bind_assoc, !bind_get.
    destruct (peerStore s !! peer) as [po|]; [|done].
    unfold deref. rewrite !bind_ret. destruct (isConnected po); [done|].
    rewrite (bind_readRoom _ ro) by done. by case_decide.
  - rewrite bind_ret, (bind_readRoom _ ro) by done. by case_decide.
Qed.

(** X14. The queries of the contact list read and do nothing else:
    [getOneToOneRoom] without [required], [isPeerConnected] and [p2pStatus]
    leave the connector as it is and send nothing, in every state. The two
    status queries agree: a contact is shown with an open channel exactly
    when [isPeerConnected] says so. *)
Theorem status_queries_only_read (s : Conn) (peerId : string) :
  (state_of (getOneToOneRoom peerId false s) = s ∧
   effects_of (getOneToOneRoom peerId false s) = []) ∧
  (state_of (isPeerConnected peerId s) = s ∧ effects_of (isPeerConnected peerId s) = []) ∧
  (state_of (p2pStatus peerId s) = s ∧ effects_of (p2pStatus peerId s) = []) ∧
  (result_of (isPeerConnected peerId s) = Ok (Some true) ↔
   result_of (p2pStatus peerId s) = Ok (Some "channelOpened")).
Proof.
  rewrite isPeerConnected_query, p2pStatus_query, getOneToOneRoom_query.
  destruct (rooms s !! _) as [room|]; [|by repeat split].
  destruct (roomStore s !! room) as [ro|] eqn:Hro; [|by repeat split].
  destruct (Nat.leb _ _); [|by repeat split]. rewrite Hro.
  destruct (connectedPeer s ro peerId) as [[[]|]|]; cbn; repeat split; try done;
    case_decide; done.
Qed.

(** ** The handshake with the relay and the online status *)

Ltac signaling_branch Honline Hparse Htype :=
  unfold onSignalingMessage; rewrite bind_get, Honline, Hparse, bind_ret;
  unfold is_type; rewrite Htype;
  rewrite ?bool_decide_eq_false_2 by discriminate;
  rewrite bool_decide_eq_true_2 by done.

Lemma setOnlineStatus_run (s : Conn) (status : OnlineStatus) :
  setOnlineStatus status s =
    (Ok tt,
     (match status with
      | offline => set_identity (fun _ => None)
      | online => fun s' => s'
      end)
       (set_onlineStatus (fun _ => status)
          (if Js.truthy (identity s) then s
           else set_pendingOnlineStatus (fun _ => Some status) s)),
     [if Js.truthy (identity s) then setOnlineStatusMessage status
      else wantProveIdentity]).
Proof.
  unfold setOnlineStatus. rewrite bind_get.
  destruct (Js.truthy (identity s)); destruct status; done.
Qed.

(** X15. The handshake with the relay. A connector without an attached
    identity goes online: it asks to prove its identity and keeps the
    status for later. The challenge of the relay is answered with its
    signature, the challenge and the public key of the user, and changes
    nothing. The approval attaches the pending identity and then sends the
    status that was kept. *)
Theorem relay_handshake (s : Conn) (prove approved : string) (challenge approval : Msg) :
  let s1 := step s (EvSetOnlineStatus online) in
  let s2 := step s1 (EvSignalingMessage prove) in
  let s3 := step s2 (EvSignalingMessage approved) in
  Js.truthy (identity s) = false →
  pendingRooms s = [] →
  parseSignaling prove = Some challenge →
  msg_type challenge = Some "PROVE_IDENTITY" →
  parseSignaling approved = Some approval →
  msg_type approval = Some "APPROVED_IDENTITY" →
  output s (EvSetOnlineStatus online) = [wantProveIdentity] ∧
  output s1 (EvSignalingMessage prove) = [relayProof (signedBy s (msg_data challenge))] ∧
  s2 = s1 ∧
  output s2 (EvSignalingMessage approved) = [setOnlineStatusMessage online] ∧
  identity s3 = pendingIdentity s ∧
  pendingOnlineStatus s3 = None ∧
  _onlineStatus s3 = online.
Proof.
  intros s1 s2 s3 Hid Hqueue Hprove Htype1 Happroved Htype2.
  assert (handle (EvSetOnlineStatus online) s =
    (Ok tt, set_onlineStatus (fun _ => online)
              (set_pendingOnlineStatus (fun _ => Some online) s),
     [wantProveIdentity])) as Hstep1.
  { cbn [handle]. by rewrite setOnlineStatus_run, Hid. }
  assert (s1 = set_onlineStatus (fun _ => online)
                 (set_pendingOnlineStatus (fun _ => Some online) s)) as Hs1
    by (unfold s1, step; by rewrite Hstep1).
  assert (_onlineStatus s1 = online) as Honline by by rewrite Hs1.
  assert (handle (EvSignalingMessage prove) s1 =
    (Ok tt, s1, [relayProof (signedBy s (msg_data challenge))])) as Hstep2.
  { cbn [handle]. signaling_branch Honline Hprove Htype1.
    rewrite bind_sign. by rewrite Hs1. }
  assert (s2 = s1) as Hs2 by (unfold s2, step; by rewrite Hstep2).
  assert (handle (EvSignalingMessage approved) s1 =
    (Ok tt,
     set_pendingOnlineStatus (fun _ => None)
       (set_pendingRooms (fun _ => []) (set_identity (fun _ => pendingIdentity s1) s1)),
     [setOnlineStatusMessage online])) as Hstep3.
  { cbn [handle]. signaling_branch Honline Happroved Htype2.
    rewrite bind_get, bind_modify.
    assert (pendingRooms s1 = []) as -> by by rewrite Hs1.
    cbn [forEach]. rewrite bind_ret, bind_modify, bind_get.
    assert (pendingOnlineStatus s1 = Some online) as Hpending by by rewrite Hs1.
    cbn [pendingOnlineStatus set_pendingRooms set_identity]. rewrite Hpending.
    unfold sendOnlineStatus, sendSignalingMessage. by rewrite bind_emit. }
  split_and!.
  - unfold output. by rewrite Hstep1.
  - unfold output. by rewrite Hstep2.
  - done.
  - unfold output. by rewrite Hs2, Hstep3.
  - unfold s3, step. rewrite Hs2, Hstep3. cbn. by rewrite Hs1.
  - unfold s3, step. by rewrite Hs2, Hstep3.
  - unfold s3, step. rewrite Hs2, Hstep3. cbn. by rewrite Hs1.
Qed.

(** X16. Going offline detaches the identity, so that going online again
    needs a new approval: the relay is asked for a challenge, and the
    status is kept until the approval comes. The rooms are not touched by
    either call. *)
Theorem online_again_needs_approval (s : Conn) :
  let s1 := step s (EvSetOnlineStatus offline) in
  let s2 := step s1 (EvSetOnlineStatus online) in
  output s (EvSetOnlineStatus offline) =
    [if Js.truthy (identity s) then setOnlineStatusMessage offline else wantProveIdentity] ∧
  identity s1 = None ∧
  output s1 (EvSetOnlineStatus online) = [wantProveIdentity] ∧
  (identity s2 = None ∧ pendingOnlineStatus s2 = Some online ∧ _onlineStatus s2 = online) ∧
  (rooms s2 = rooms s ∧ roomStore s2 = roomStore s ∧ peerStore s2 = peerStore s ∧
   pendingRooms s2 = pendingRooms s).
Proof.
  cbn zeta. unfold step, output. cbn [handle]. rewrite !setOnlineStatus_run.
  cbn. by destruct (Js.truthy (identity s)).
Qed.

(** ** Rooms *)

Lemma generateOneToOneRoomName_comm (A B : string) :
  generateOneToOneRoomName A B = generateOneToOneRoomName B A.
Proof.
  unfold generateOneToOneRoomName.
  rewrite !sort_pair, (String.compare_antisym (getAccountIdFromPublicKey B)).
  destruct (String.compare _ _) eqn:Hab; try done.
  by apply String.compare_eq_iff in Hab as ->.
Qed.

(** [enterRoom] for a peer with whom there is no room yet. *)
Lemma enterRoom_fresh (s : Conn) (peerId : string) :
  let roomName := generateOneToOneRoomName (user_publicKey s) peerId in
  let room := fresh (dom (roomStore s)) in
  _onlineStatus s = online →
  Js.truthy (identity s) = true →
  rooms s !! roomName = None →
  ∃ s',
    enterRoom peerId s = (Ok (Some room), s', [joinRequest roomName]) ∧
    rooms s' = <[roomName := room]> (rooms s) ∧
    roomStore s' =
      <[room := set_entered st_entering (set_approved true (freshRoom roomName peerId))]>
        (roomStore s) ∧
    timers s' = <[nextTimer s := (4000%Z, TEnterTimeout room)]> (timers s) ∧
    nextTimer s' = S (nextTimer s) ∧
    identity s' = identity s ∧ _onlineStatus s' = online ∧
    user_publicKey s' = user_publicKey s ∧ peerStore s' = peerStore s ∧
    pendingRooms s' = pendingRooms s.
Proof.
  intros roomName room Honline Hid Hnone.
  assert (roomStore s !! room = None) as Hfresh.
  { apply not_elem_of_dom. apply is_fresh. }
  unfold enterRoom. rewrite bind_get, Honline. fold roomName.
  rewrite bind_rooms_get, Hnone. mrun. fold room.
  match goal with |- ∃ s', bind _ _ ?st = _ ∧ _ => set (s1 := st) end.
  assert (roomStore s1 = <[room := freshRoom roomName peerId]> (roomStore s)) as Hstore.
  { cbn. by rewrite alter_insert_eq. }
  assert (roomStore s1 !! room = Some (freshRoom roomName peerId)) as Hro
    by by rewrite Hstore, lookup_insert_eq.
  rewrite (bind_readRoom _ _ _ _ Hro). cbn [entered state freshRoom].
  unfold Room_enter.
  assert (enter room false s1 =
    (Ok tt,
     set_nextTimer S
       (set_timers (insert (nextTimer s) (4000%Z, TEnterTimeout room))
          (set_roomStore (alter (set_entered st_entering) room)
             (set_roomStore (alter (set_approved true) room)
                (set_rooms (insert roomName room) s1)))),
     [joinRequest roomName])) as Henter.
  { rewrite (enter_run s1 room (freshRoom roomName peerId)); try done.
    - rewrite requestEnterRoom_run by (cbn [roomStore set_rooms]; by rewrite Hro).
      unfold requestedEntry, awaitsEntry, enteredOf, roomNameOf.
      cbn [roomStore set_rooms name freshRoom]. rewrite Hro. cbn. by bdec.
    - right. cbn. by rewrite lookup_insert_eq. }
  rewrite (bind_Ok _ _ _ _ _ _ Henter). cbn [ret].
  eexists. split; [done|]. cbn. split_and!; try done.
  - by rewrite insert_insert_eq.
  - by rewrite !alter_insert_eq.
Qed.

(** X17. [P2PMessaging.call] while offline does not return [null] like
    [enterRoom]: the connector is handed the [null] room and throws a
    [TypeError] on its name. Nothing is sent and nothing changes. *)
Theorem call_offline_throws (s : Conn) (peerId : string) :
  _onlineStatus s = offline →
  P2PMessaging_call peerId s = (Throw TypeError, s, []).
Proof.
  intros Hoff. unfold P2PMessaging_call.
  assert (enterRoom peerId s = (Ok None, s, [])) as Henter
    by (unfold enterRoom; by rewrite bind_get, Hoff).
  rewrite (bind_pure _ _ _ _ Henter), bind_get. unfold call. by rewrite bind_assoc.
Qed.

(** X18. A first call, by a connector that is online with its identity
    attached: the room with the canonical name is made and registered, the
    join request leaves first and the call, which names the peer, the
    caller and the room, second. *)
Theorem call_joins_then_calls (s : Conn) (peerId : string) :
  let roomName := generateOneToOneRoomName (user_publicKey s) peerId in
  _onlineStatus s = online →
  Js.truthy (identity s) = true →
  rooms s !! roomName = None →
  ∃ room s',
    P2PMessaging_call peerId s =
      (Ok (Some room), s',
       [joinRequest roomName; callMessage peerId (user_publicKey s) roomName]) ∧
    rooms s' !! roomName = Some room ∧
    roomStore s !! room = None ∧
    roomStore s' !! room =
      Some (set_entered st_entering (set_approved true (freshRoom roomName peerId))).
Proof.
  intros roomName Honline Hid Hnone.
  destruct (enterRoom_fresh s peerId Honline Hid Hnone)
    as (s' & Henter & Hrooms & Hstore & _ & _ & _ & _ & Hkey & _).
  exists (fresh (dom (roomStore s))), s'. unfold P2PMessaging_call.
  rewrite (bind_Ok _ _ _ _ _ _ Henter), bind_get. unfold call, deref. mrun.
  assert (roomStore s' !! fresh (dom (roomStore s)) =
    Some (set_entered st_entering (set_approved true (freshRoom roomName peerId)))) as Hro
    by by rewrite Hstore, lookup_insert_eq.
  rewrite (bind_readRoom _ _ _ _ Hro). unfold sendSignalingMessage.
  rewrite bind_emit, Hkey. cbn. split_and!; try done.
  - by rewrite Hrooms, lookup_insert_eq.
  - apply not_elem_of_dom, is_fresh.
Qed.

(** X19. Two users who enter the room with each other ask the relay for the
    same room: the join requests of both carry one name. *)
Theorem both_sides_join_the_same_room (sA sB : Conn) :
  let A := user_publicKey sA in
  let B := user_publicKey sB in
  _onlineStatus sA = online → Js.truthy (identity sA) = true →
  rooms sA !! generateOneToOneRoomName A B = None →
  _onlineStatus sB = online → Js.truthy (identity sB) = true →
  rooms sB !! generateOneToOneRoomName B A = None →
  ∃ roomName,
    effects_of (enterRoom B sA) = [joinRequest roomName] ∧
    effects_of (enterRoom A sB) = [joinRequest roomName].
Proof.
  intros A B HonlineA HidA HnoneA HonlineB HidB HnoneB.
  destruct (enterRoom_fresh sA B HonlineA HidA HnoneA) as (sA' & -> & _).
  destruct (enterRoom_fresh sB A HonlineB HidB HnoneB) as (sB' & -> & _).
  exists (generateOneToOneRoomName A B). split; [done|].
  by rewrite (generateOneToOneRoomName_comm A B).
Qed.

(** X20. Entering is not repeated. [enter] of a room that is registered and
    entered does nothing, unless it is enforced: then the room is entered
    anew, with a join request and the timer. [enterRoom] for a peer whose
    room is being entered or is entered returns that room and does
    nothing. *)
Theorem entered_room_is_not_entered_again (s : Conn) (room : nat) (ro : Room) :
  roomStore s !! room = Some ro →
  rooms s !! name ro = Some room →
  (entered (state ro) = st_entered → enter room false s = (Ok tt, s, [])) ∧
  (entered (state ro) = st_entered → Js.truthy (identity s) = true →
   ∃ s', enter room true s = (Ok tt, s', [joinRequest (name ro)]) ∧
         enteredOf s' room = Some st_entering ∧
         timers s' !! nextTimer s = Some (4000%Z, TEnterTimeout room)) ∧
  (∀ peerId,
     entered (state ro) ≠ st_not →
     _onlineStatus s = online →
     name ro = generateOneToOneRoomName (user_publicKey s) peerId →
     enterRoom peerId s = (Ok (Some room), s, [])).
Proof.
  intros Hro Hreg. split_and!.
  - intros Hentered. rewrite enter_cases. cbn zeta. by rewrite Hro, Hreg, Hro, Hentered.
  - intros Hentered Hid. rewrite enter_cases. cbn zeta. rewrite Hro, Hreg, Hro, Hentered.
    cbn [identity set_rooms set_roomStore]. rewrite Hid.
    rewrite requestEnterRoom_run by (cbn; by rewrite lookup_alter_eq, Hro).
    unfold requestedEntry, awaitsEntry, enteredOf, roomNameOf. cbn.
    rewrite lookup_alter_eq, Hro. cbn. bdec. cbn.
    eexists. split; [done|]. cbn. rewrite !lookup_alter_eq, Hro. cbn.
    by rewrite lookup_insert_eq.
  - intros peerId Hentered Honline Hname. unfold enterRoom.
    rewrite bind_get, Honline, bind_rooms_get, <- Hname, Hreg, bind_ret.
    rewrite (bind_readRoom _ _ _ _ Hro). by destruct (entered (state ro)).
Qed.

(** ** The confirmation of an entry *)






(** ** An incoming call *)

(** [enter] of a registered room by a connector with its identity
    attached. *)
Lemma enter_registered (s : Conn) (room : nat) (ro : Room) (enforce : bool) :
  roomStore s !! room = Some ro →
  rooms s !! name ro = Some room →
  Js.truthy (identity s) = true →
  (entered (state ro) = st_entered → enforce = true) →
  ∃ s',
    enter room enforce s =
      (Ok tt, s',
       if decide (entered (state ro) = st_entering) then [] else [joinRequest (name ro)]) ∧
    rooms s' !! name ro = Some room ∧
    enteredOf s' room = Some st_entering.
Proof.
  intros Hro Hreg Hid Henforce. rewrite enter_cases. cbn zeta. rewrite Hro, Hreg, Hro.
  assert (∀ s0 ro0, roomStore s0 !! room = Some ro0 → name ro0 = name ro →
    Js.truthy (identity s0) = true →
    entered (state ro0) ≠ st_entered →
    ∃ s',
      (if Js.truthy (identity s0) then requestEnterRoom room
       else modify (set_pendingRooms (fun l => l ++ [room])) >>
            sendSignalingMessage [[("type", "WANT_PROVE_IDENTITY")]])
        (set_rooms (insert (name ro) room) s0) =
        (Ok tt, s',
         if decide (entered (state ro0) = st_entering) then [] else [joinRequest (name ro)]) ∧
      rooms s' !! name ro = Some room ∧
      enteredOf s' room = Some st_entering) as Hrest.
  { intros s0 ro0 Hro0 Hname Hid0 Hne. rewrite Hid0.
    rewrite requestEnterRoom_run by (cbn; by rewrite Hro0).
    unfold requestedEntry, awaitsEntry, enteredOf, roomNameOf. cbn. rewrite Hro0. cbn.
    destruct (entered (state ro0)) eqn:Hentered; try done; bdec; cbn;
      (eexists; split; [by rewrite ?Hname|]); cbn;
      rewrite ?lookup_alter_eq, ?Hro0, lookup_insert_eq; cbn; by rewrite ?Hentered. }
  destruct (entered (state ro)) eqn:Hentered.
  - destruct (Hrest s ro) as (s' & Hrun & ?); try done; [by rewrite Hentered|].
    exists s'. by rewrite Hrun, Hentered.
  - destruct (Hrest s ro) as (s' & Hrun & ?); try done; [by rewrite Hentered|].
    exists s'. by rewrite Hrun, Hentered.
  - rewrite Henforce by done.
    destruct (Hrest (set_roomStore (alter (set_entered st_not) room) s)
                (set_entered st_not ro)) as (s' & Hrun & ?); try done.
    { cbn. by rewrite lookup_alter_eq, Hro. }
    exists s'. by rewrite Hrun.
Qed.

(** X22. An incoming call. The [CALL] of the relay only asks the
    application to confirm the caller: no room is made and nothing is sent.
    When the call is confirmed and the identity is attached, the room is
    registered under the name the call gave (a new room when there was
    none) and is entered by force: it ends up being entered, and a join
    request goes out unless the room was already being entered. *)
Theorem incoming_call_enters_when_confirmed (s : Conn) (data : string) (msg : Msg) :
  let roomName := msg_room msg in
  let caller := msg_caller msg in
  let s' := step s (EvCallConfirmed roomName caller) in
  _onlineStatus s = online →
  parseSignaling data = Some msg →
  msg_type msg = Some "CALL" →
  onSignalingMessage data s = (Ok tt, s, [ConfirmIncomingCall caller roomName]) ∧
  (Js.truthy (identity s) = true →
   (∀ room, rooms s !! roomName = Some room →
            ∃ ro, roomStore s !! room = Some ro ∧ name ro = roomName) →
   output s (EvCallConfirmed roomName caller) =
     (if decide (entryOf s roomName = Some st_entering) then [] else [joinRequest roomName]) ∧
   entryOf s' roomName = Some st_entering ∧
   (∀ room, rooms s !! roomName = Some room → rooms s' !! roomName = Some room)).
Proof.
  intros roomName caller s' Honline Hparse Htype. split.
  { signaling_branch Honline Hparse Htype. done. }
  intros Hid Hwf. unfold s', output, step. cbn [handle].
  unfold createRoomOnIncomingCall. rewrite bind_assoc, bind_rooms_get.
  unfold entryOf.
  destruct (rooms s !! roomName) as [room|] eqn:Hroom.
  - destruct (Hwf room eq_refl) as (ro & Hro & Hname). rewrite bind_ret.
    destruct (enter_registered s room ro true) as (s1 & -> & Hreg1 & Hentering1);
      try done; [by rewrite Hname|].
    assert (enteredOf s room = Some (entered (state ro))) as Hentry
      by (unfold enteredOf; by rewrite Hro).
    cbn. rewrite Hname in *. rewrite Hreg1. cbn. split_and!; [|done|by intros ? [= <-]].
    repeat case_decide; try done; congruence.
  - mrun.
    match goal with |- context [enter ?room true ?s1] =>
      destruct (enter_registered s1 room (freshRoom roomName caller) true)
        as (s2 & -> & Hreg2 & Hentering2); try done
    end.
    { cbn. by rewrite alter_insert_eq, lookup_insert_eq. }
    { cbn. by rewrite lookup_insert_eq. }
    cbn in *. rewrite Hreg2. cbn. by split_and!.
Qed.

(** ** Negotiation *)

(** A reconnection timer of a peer that is connected, or whose role is
    not ['answer'], emits nothing. *)
Lemma reoffer_idle (s : Conn) (ev : Event) (peer : nat) :
  reconnects s ev peer = false → reoffer s ev peer = [].
Proof.
  unfold reconnects, reoffer. destruct ev; try done.
  destruct (timers s !! timer) as [[ms [|p roomName fromPeer|]]|] eqn:Htimer; try done.
  case_decide as Hp; [|done]. subst p. rewrite bool_decide_eq_true_2 by done.
  cbn [andb]. intros Hguard.
  unfold output. cbn [handle]. unfold fireTimer. rewrite bind_get, Htimer.
  unfold clearTimeout. rewrite bind_modify. cbn [runTask]. unfold reconnectTimeout, readPeer.
  rewrite bind_assoc, bind_get. cbn [peerStore set_timers].
  destruct (peerStore s !! peer) as [po|]; [|done].
  unfold deref. rewrite bind_ret. by rewrite Hguard.
Qed.

Lemma offering_reoffers (evs : list Event) (s : Conn) (peer : nat) :
  offering peer s → reoffers s evs peer = [].
Proof.
  revert s. induction evs as [|ev evs IH]; intros s Hoff; [done|].
  cbn [reoffers]. rewrite reoffer_idle by by apply offering_reconnects.
  apply IH. exact (keeps_state _ _ s (offering_handle peer ev) Hoff).
Qed.

(** X23. Answering a peer that already has a role ends the reconnection
    heuristic for it. The role becomes ['no need'], and from then on the
    reconnection timers of that peer emit nothing, whatever happens and
    however many of them fire: no connection is closed or created and no
    offer is made to that peer by a timer. *)
Theorem answered_again_never_reoffered (s : Conn) (roomName peerId : string)
    (pc peer : nat) (po : Peer) (evs : list Event) :
  let s' := step s (EvRemoteDescriptionSet roomName peerId pc) in
  registered s roomName peerId peer →
  peerStore s !! peer = Some po →
  is_Some (connectionRole po) →
  output s (EvRemoteDescriptionSet roomName peerId pc) = [PcCreateAnswer pc roomName peerId] ∧
  connectionRole <$> peerStore s' !! peer = Some (Some role_no_need) ∧
  reoffers s' evs peer = [].
Proof.
  intros s' (room & ro & Hroom & Hro & Hpeer) Hpo [role Hrole].
  assert (handle (EvRemoteDescriptionSet roomName peerId pc) s =
    (Ok tt,
     set_peerStore
       (alter (set_connectionRole (fun role =>
                 match role with
                 | Some _ => Some role_no_need
                 | None => Some role_answer
                 end)) peer) s,
     [PcCreateAnswer pc roomName peerId])) as Hrun.
  { cbn [handle]. unfold doAnswer. rewrite bind_rooms_get, Hroom. unfold deref.
    rewrite bind_ret, (bind_getPeer _ ro), Hpeer, bind_ret by done.
    by rewrite bind_writePeer. }
  assert (peerStore s' !! peer = Some (set_connectionRole (fun _ => Some role_no_need) po))
    as Hpo'.
  { unfold s', step. rewrite Hrun. cbn. rewrite lookup_alter_eq, Hpo. cbn.
    unfold set_connectionRole. by rewrite Hrole. }
  split_and!.
  - unfold output. by rewrite Hrun.
  - by rewrite Hpo'.
  - apply offering_reoffers. eexists. split; [done|]. by right.
Qed.

(** X24. Negotiation messages for a room or a peer that the connector does
    not know. An [offer], an [answer] or a [candidate] that names a room
    which is not registered makes the handler throw, and so does a
    [candidate] from a peer that the room does not have or that has no
    connection; an [answer] from a peer that the room does not have is
    ignored. In each case nothing is sent, no timer is armed and the
    connector is unchanged. *)
Theorem negotiation_for_unknown_peer (s : Conn) (data : string) (msg : Msg) :
  _onlineStatus s = online →
  parseSignaling data = Some msg →
  (rooms s !! msg_room msg = None →
   msg_type msg = Some "offer" ∨ msg_type msg = Some "answer" ∨
   msg_type msg = Some "candidate" →
   onSignalingMessage data s = (Throw TypeError, s, [])) ∧
  (∀ room ro,
     rooms s !! msg_room msg = Some room →
     roomStore s !! room = Some ro →
     peers ro !! msg_fromPeer msg = None →
     (msg_type msg = Some "answer" → onSignalingMessage data s = (Ok tt, s, [])) ∧
     (msg_type msg = Some "candidate" →
      onSignalingMessage data s = (Throw TypeError, s, []))) ∧
  (∀ room ro peer po,
     rooms s !! msg_room msg = Some room →
     roomStore s !! room = Some ro →
     peers ro !! msg_fromPeer msg = Some peer →
     peerStore s !! peer = Some po →
     peerConnection po = None →
     msg_type msg = Some "candidate" →
     onSignalingMessage data s = (Throw TypeError, s, [])).
Proof.
  intros Honline Hparse. split_and!.
  - intros Hnone [Htype|[Htype|Htype]]; signaling_branch Honline Hparse Htype;
      by rewrite bind_rooms_get, Hnone.
  - intros room ro Hroom Hro Hnone. split; intros Htype;
      signaling_branch Honline Hparse Htype;
      rewrite bind_rooms_get, Hroom; unfold deref at 1;
      rewrite bind_ret, (bind_getPeer _ ro), Hnone by done; done.
  - intros room ro peer po Hroom Hro Hpeer Hpo Hpc Htype.
    signaling_branch Honline Hparse Htype.
    rewrite bind_rooms_get, Hroom. unfold deref at 1.
    rewrite bind_ret, (bind_getPeer _ ro), Hpeer by done. unfold deref at 1.
    rewrite bind_ret, (bind_readPeer _ po), Hpc by done. done.
Qed.

(** ** Requests and their responses *)






(** ** The identity in every run *)

Lemma statusInvariant_roomStore (s : Conn) (f : gmap nat Room → gmap nat Room) :
  (∀ room, is_Some (roomStore s !! room) → is_Some (f (roomStore s) !! room)) →
  statusInvariant s → statusInvariant (set_roomStore f s).
Proof.
  intros Hf (H1 & H2 & H3). split_and!; [done..|]. conn_simpl.
  eapply Forall_impl; [exact H3|]. intros room. apply Hf.
Qed.

Lemma statusInvariant_writeRoom (room : nat) (f : Room → Room) :
  keeps statusInvariant (writeRoom room f).
Proof.
  intros s HI. unfold writeRoom. apply wp_modify. apply statusInvariant_roomStore; [|done].
  intros x. by rewrite lookup_alter_is_Some.
Qed.

Lemma statusInvariant_newRoom (roomName : string) (members : list string) :
  keeps statusInvariant (newRoom roomName members).
Proof.
  intros s HI. unfold newRoom. repeat wp_step.
  apply statusInvariant_roomStore; [|done].
  intros x Hx. rewrite lookup_insert_is_Some. destruct (decide (fresh (dom (roomStore s)) = x)); auto.
Qed.

Lemma statusInvariant_requestEnterRoom (room : nat) :
  keeps statusInvariant (requestEnterRoom room).
Proof.
  intros s HI. unfold requestEnterRoom.
  assert (∀ s0 f, statusInvariant s0 →
            wp (writeRoom room f) (fun _ => statusInvariant) statusInvariant s0) as Hwrite
    by (intros s0 f; apply statusInvariant_writeRoom).
  apply wp_bind. eapply wp_mono; [by apply Hwrite| |done]. cbv beta. intros _ s1 HI1.
  repeat wp_step; try done.
  eapply wp_mono; [by apply Hwrite| |done]. cbv beta. intros _ s2 HI2.
  unfold setTimeout. repeat wp_step. done.
Qed.

Lemma statusInvariant_enter (room : nat) (enforce : bool) :
  keeps statusInvariant (enter room enforce).
Proof.
  intros s HI. unfold wp. rewrite enter_cases. cbn zeta.
  assert (∀ ro s0, statusInvariant s0 → is_Some (roomStore s0 !! room) →
    match
      (if Js.truthy (identity s0) then requestEnterRoom room
       else modify (set_pendingRooms (fun l => l ++ [room])) >>
            sendSignalingMessage [[("type", "WANT_PROVE_IDENTITY")]])
        (set_rooms (insert (name ro) room) s0)
    with
    | (Ok _, s', _) => statusInvariant s'
    | (Throw _, s', _) => statusInvariant s'
    end) as Hrest.
  { intros ro s0 HI0 Hroom. destruct (Js.truthy (identity s0)) eqn:Hid.
    - by apply (statusInvariant_requestEnterRoom room (set_rooms (insert (name ro) room) s0)).
    - cbn. destruct HI0 as (H1 & H2 & H3). split_and!; conn_simpl; [done|congruence|].
      apply Forall_app. split; [done|]. by apply Forall_singleton. }
  destruct (roomStore s !! room) as [ro|] eqn:Hro; [|done].
  destruct (rooms s !! name ro) as [existing|]; [|by apply Hrest].
  destruct (roomStore s !! existing) as [ero|]; [|done].
  destruct (entered (state ero)); try by apply Hrest.
  destruct enforce; [|done]. apply Hrest.
  - apply statusInvariant_roomStore; [|done]. intros x. by rewrite lookup_alter_is_Some.
  - cbn. by rewrite lookup_alter_is_Some, Hro.
Qed.

Lemma statusInvariant_setOnlineStatus (status : OnlineStatus) :
  keeps statusInvariant (setOnlineStatus status).
Proof.
  intros s (H1 & H2 & H3). unfold wp. rewrite setOnlineStatus_run.
  destruct (Js.truthy (identity s)) eqn:Hid; destruct status; split_and!; conn_simpl;
    try done; try congruence; auto.
Qed.

Lemma flushed_status (queue : list nat) (s : Conn) :
  _onlineStatus (foldl (fun acc room => requestedEntry room acc) s queue) = _onlineStatus s.
Proof.
  revert s. induction queue as [|room queue IH]; intros s; [done|].
  cbn [foldl]. rewrite IH. apply requestedEntry_frame.
Qed.

Lemma statusInvariant_forEach_awaitings (n k : nat) (msg : Msg) :
  keeps statusInvariant (forEach_awaitings n k msg).
Proof.
  revert k. induction n as [|n IH]; intros k s HI; [done|].
  cbn [forEach_awaitings].
  repeat first [ wp_step | wp_unfold
               | multimatch goal with H : statusInvariant _ |- statusInvariant _ => exact H end ].
  all: by apply IH.
Qed.

Ltac status_step :=
  first
  [ wp_step
  | wp_readonly statusInvariant
  | lazymatch goal with
    | |- wp (writeRoom _ _) _ _ _ => wp_call statusInvariant_writeRoom
    | |- wp (newRoom _ _) _ _ _ => wp_call statusInvariant_newRoom
    | |- wp (requestEnterRoom _) _ _ _ => wp_call statusInvariant_requestEnterRoom
    | |- wp (enter _ _) _ _ _ => wp_call statusInvariant_enter
    | |- wp (setOnlineStatus _) _ _ _ => wp_call statusInvariant_setOnlineStatus
    | |- wp (forEach_awaitings _ _ _) _ _ _ => wp_call statusInvariant_forEach_awaitings
    | |- wp (forEach _ _) _ _ _ => wp_forEach_call statusInvariant
    end
  | wp_unfold
  | multimatch goal with H : statusInvariant _ |- statusInvariant _ => exact H end
  | done ].

Lemma statusInvariant_onSignalingMessage (data : string) :
  keeps statusInvariant (onSignalingMessage data).
Proof.
  intros s HI. unfold onSignalingMessage.
  apply wp_bind, wp_get. destruct (_onlineStatus s) eqn:Honline; [|done].
  apply wp_bind. destruct (parseSignaling data) as [msg|]; [|done]. apply wp_ret.
  destruct (is_type msg "PONG"); [done|].
  destruct (is_type msg "PROVE_IDENTITY"); [repeat status_step|].
  destruct (is_type msg "APPROVED_IDENTITY").
  { unfold wp. rewrite bind_get, bind_modify.
    destruct HI as (H1 & H2 & H3).
    rewrite (bind_Ok _ _ _ _ _ _
               (flush_run (pendingRooms s) (set_identity (fun _ => pendingIdentity s) s) H3)).
    rewrite bind_modify, bind_get. cbn [pendingOnlineStatus set_pendingRooms].
    rewrite (flushed_requestedEntry _ (set_identity (fun _ => pendingIdentity s) s)) by done.
    set (flushed := foldl _ _ _).
    assert (_onlineStatus flushed = online) as Hflushed
      by (unfold flushed; by rewrite flushed_status).
    destruct (pendingOnlineStatus flushed); cbn; split_and!; conn_simpl;
      try done; congruence. }
  repeat status_step.
Qed.

Lemma statusInvariant_close : keeps statusInvariant close.
Proof.
  intros s HI. unfold close.
  do 4 (apply wp_bind, wp_modify).
  match goal with
  | |- wp _ _ _ ?s1 =>
      assert (statusInvariant s1) as HI1
        by (destruct HI as (H1 & H2 & H3); split_and!; conn_simpl; by try done)
  end.
  clear HI. repeat status_step.
Qed.

Lemma statusInvariant_handle (ev : Event) : keeps statusInvariant (handle ev).
Proof.
  intros s HI. destruct ev; unfold handle.
  all: try (by apply statusInvariant_close).
  all: try (by apply statusInvariant_onSignalingMessage).
  all: repeat status_step.
Qed.

(** X27. In every run of a connector, from the moment it is constructed:
    while it is offline no identity is attached to it, and once an identity
    is attached no entry of a room and no online status waits for the
    approval. *)
Theorem identity_in_every_run (publicKey secretPhrase : string) (evs : list Event) :
  let s := run (initial publicKey secretPhrase) evs in
  (_onlineStatus s = offline → identity s = None) ∧
  (Js.truthy (identity s) = true → pendingRooms s = [] ∧ pendingOnlineStatus s = None).
Proof.
  assert (∀ s, statusInvariant s → statusInvariant (run s evs)) as Hrun.
  { induction evs as [|ev evs IH]; intros s HI; [done|].
    cbn [run foldl]. apply IH. exact (keeps_state _ _ s (statusInvariant_handle ev) HI). }
  destruct (Hrun (initial publicKey secretPhrase)) as (H1 & H2 & _); [|done].
  split_and!; done.
Qed.

(** ** Sending to a room, and closing *)

Lemma sendAll_run (channels : list nat) (data : Json) (count : nat) (s : Conn) :
  sendAll channels data count s =
    (Ok (count + length (filter (delivers s data) channels)), s,
     (fun channel => ChannelSend channel data)
       <$> filter (fun channel => readyState s channel = rs_open) channels).
Proof.
  revert count. induction channels as [|channel channels IH]; intros count.
  - cbn. by rewrite Nat.add_0_r.
  - cbn [sendAll]. rewrite (bind_Ok _ _ _ _ _ _ (sendInternal_run s channel data)), IH.
    rewrite !filter_cons.
    destruct (decide (delivers s data channel)) as [[Hopen Hok]|Hnot].
    + rewrite !decide_True, Hok by done. cbn. by rewrite <- Nat.add_assoc.
    + destruct (decide (readyState s channel = rs_open)) as [Hopen|Hclosed].
      * assert (channelSendThrows channel data = true) as ->
          by (destruct (channelSendThrows channel data) eqn:Hthrows; [done|by destruct Hnot]).
        cbn. by rewrite Nat.add_0_r.
      * cbn. by rewrite Nat.add_0_r.
Qed.

(** X28. [sendMessage] sends to the channels of the room that are open, in
    the order in which the room lists them, and to no other; it returns the
    number of channels on which [send] went through, and it changes
    nothing. For a name under which no room is registered it returns 0,
    and so it does for the empty name, for which the room is not looked
    up. *)
Theorem broadcast_reaches_open_channels (s : Conn) (roomName : string) (data : Json) :
  send "" data None s = (Ok 0, s, []) ∧
  (rooms s !! roomName = None → send roomName data None s = (Ok 0, s, [])) ∧
  (∀ room channels,
     roomName ≠ "" →
     rooms s !! roomName = Some room →
     getDataChannels room s = (Ok channels, s, []) →
     send roomName data None s =
       (Ok (length (filter (delivers s data) channels)), s,
        (fun channel => ChannelSend channel data)
          <$> filter (fun channel => readyState s channel = rs_open) channels)).
Proof.
  split_and!.
  - done.
  - intros Hnone. unfold send. destruct (Js.truthy_str roomName); [|done].
    by rewrite bind_rooms_get, Hnone.
  - intros room channels Hname Hroom Hchannels. unfold send.
    destruct roomName as [|c roomName]; [done|]. cbn [Js.truthy_str].
    by rewrite bind_rooms_get, Hroom, (bind_pure _ _ _ _ Hchannels), sendAll_run.
Qed.







(** ** The offer to the peers of a room *)

Lemma createPeer_new (s : Conn) (room : nat) (ro : Room) (peerId publicKey : string) :
  roomStore s !! room = Some ro →
  peers ro !! peerId = None →
  memberPublicKeys ro = [] ∨ publicKey ∈ memberPublicKeys ro →
  createPeer room peerId publicKey s =
    (Ok (Some (fresh (dom (peerStore s)))),
     set_roomStore (alter (set_peers (insert peerId (fresh (dom (peerStore s))))) room)
       (set_peerStore
          (insert (fresh (dom (peerStore s))) (mkPeer None None None false false)) s),
     []).
Proof.
  intros Hro Hnone Hmember. unfold createPeer.
  rewrite (bind_readRoom _ ro), Hnone by done.
  rewrite bool_decide_eq_true_2 by done. by mrun.
Qed.

Lemma askPeerConnection_run (s : Conn) (roomName peerId : string) (room peer : nat)
    (ro : Room) (po : Peer) :
  rooms s !! roomName = Some room →
  roomStore s !! room = Some ro →
  peers ro !! peerId = Some peer →
  peerStore s !! peer = Some po →
  askPeerConnection roomName peerId s =
    (Ok (if pcConstructorThrows s then None else Some (nextPc s)),
     if pcConstructorThrows s then s
     else set_peerStore (alter (set_peerConnection (fun _ => Some (nextPc s))) peer)
            (set_nextPc S s),
     match peerConnection po with
     | Some old => if decide (old ∈ iceConnected s) then [] else [PcClose old]
     | None => []
     end ++ if pcConstructorThrows s then [] else [PcCreate (nextPc s) roomName peerId]).
Proof.
  intros Hroom Hro Hpeer Hpo. unfold askPeerConnection.
  rewrite bind_rooms_get, Hroom. unfold deref at 1.
  rewrite bind_ret, (bind_getPeer _ ro), Hpeer by done. unfold deref at 1.
  rewrite bind_ret, (bind_readPeer _ po), bind_get by done.
  assert (∀ (k : unit → M (option nat)) r s' out,
    k tt s = (r, s', out) →
    bind (match peerConnection po with
          | Some pc => if decide (pc ∈ iceConnected s) then ret tt else emit (PcClose pc)
          | None => ret tt
          end) k s =
    (r, s',
     match peerConnection po with
     | Some old => if decide (old ∈ iceConnected s) then [] else [PcClose old]
     | None => []
     end ++ out)) as Hold.
  { intros k r s' out Hk. destruct (peerConnection po) as [old|].
    - case_decide; [by rewrite bind_ret, Hk|by rewrite bind_emit, Hk].
    - by rewrite bind_ret, Hk. }
  apply Hold. destruct (pcConstructorThrows s); [done|].
  by rewrite bind_modify, bind_emit, bind_writePeer.
Qed.

Lemma doOffer_run (s : Conn) (roomName peerId : string) (room peer pc : nat) (ro : Room) :
  rooms s !! roomName = Some room →
  roomStore s !! room = Some ro →
  peers ro !! peerId = Some peer →
  createDataChannelThrows s = false →
  doOffer roomName peerId (Some pc) s =
    (Ok tt,
     set_peerStore (alter (set_dataChannel (fun _ => Some (nextChannel s))) peer)
       (set_readyStates (insert (nextChannel s) rs_connecting)
          (set_nextChannel S
             (set_peerStore (alter (set_connectionRole (fun _ => Some role_offer)) peer) s))),
     [PcCreateDataChannel pc (nextChannel s) (roomName ++ ":" ++ peerId)%string;
      PcCreateOffer pc roomName peerId]).
Proof.
  intros Hroom Hro Hpeer Hdc. unfold doOffer.
  mrun. rewrite Hroom. mrun. rewrite (bind_getPeer _ ro), Hpeer by done. mrun.
  unfold createDataChannel. mrun.
  cbn [createDataChannelThrows set_peerStore]. rewrite Hdc. mrun. rewrite bind_emit.
  unfold initDataChannel. mrun.
  cbn [rooms set_readyStates set_nextChannel set_peerStore]. rewrite Hroom. mrun.
  rewrite (bind_getPeer _ ro), Hpeer by done. mrun. done.
Qed.

(** X30. The roster of a room. [WELCOME] for a registered room that lists
    one peer whom the room admits and does not have yet: the room is
    entered, the peer is made, and this side makes the offer to it. A
    connection is created for the peer, then a data channel on that
    connection, labelled with the room and the peer, then the offer; the
    peer has the role ['offer'] and holds the connection and the
    channel. *)
Theorem welcome_offers_to_listed_peer (s : Conn) (data : string) (msg : Msg)
    (room : nat) (ro : Room) (peerId : string) :
  let roomName := msg_room msg in
  let peer := fresh (dom (peerStore s)) in
  let pc := nextPc s in
  let channel := nextChannel s in
  let s' := step s (EvSignalingMessage data) in
  _onlineStatus s = online →
  parseSignaling data = Some msg →
  msg_type msg = Some "WELCOME" →
  msg_remotePeerIds msg = Some [peerId] →
  rooms s !! roomName = Some room →
  roomStore s !! room = Some ro →
  peers ro !! peerId = None →
  memberPublicKeys ro = [] ∨ peerId ∈ memberPublicKeys ro →
  pcConstructorThrows s = false →
  createDataChannelThrows s = false →
  onSignalingMessage data s =
    (Ok tt, s',
     [PcCreate pc roomName peerId;
      PcCreateDataChannel pc channel (roomName ++ ":" ++ peerId)%string;
      PcCreateOffer pc roomName peerId]) ∧
  enteredOf s' room = Some st_entered ∧
  registered s' roomName peerId peer ∧
  peerStore s' !! peer = Some (mkPeer (Some pc) (Some channel) (Some role_offer) false false) ∧
  readyState s' channel = rs_connecting.
Proof.
  intros roomName peer pc channel s' Honline Hparse Htype Hlist Hroom Hro Hnone Hmember
    Hpc Hdc.
  set (ro1 := set_peers (insert peerId peer) (set_entered st_entered ro)).
  assert (∃ s1, onSignalingMessage data s =
    (Ok tt, s1,
     [PcCreate pc roomName peerId;
      PcCreateDataChannel pc channel (roomName ++ ":" ++ peerId)%string;
      PcCreateOffer pc roomName peerId]) ∧
    rooms s1 = rooms s ∧
    roomStore s1 !! room = Some ro1 ∧
    peerStore s1 !! peer =
      Some (mkPeer (Some pc) (Some channel) (Some role_offer) false false) ∧
    readyStates s1 !! channel = Some rs_connecting)
    as (s1 & Hrun & Hrooms1 & HroomStore1 & HpeerStore1 & Hready1).
  { signaling_branch Honline Hparse Htype. fold roomName.
    mrun. rewrite Hroom. mrun. rewrite Hlist. mrun. cbn [forEach]. mrun.
    set (s0 := set_roomStore (alter (set_entered st_entered) room) s).
    assert (roomStore s0 !! room = Some (set_entered st_entered ro)) as Hro0
      by (cbn; by rewrite lookup_alter_eq, Hro).
    rewrite (bind_Ok _ _ _ _ _ _
               (createPeer_new s0 room _ peerId peerId Hro0 Hnone Hmember)).
    change (fresh (dom (peerStore s0))) with peer.
    set (s1 := set_roomStore _ (set_peerStore _ s0)).
    assert (roomStore s1 !! room = Some ro1) as Hro1
      by (cbn; by rewrite !lookup_alter_eq, Hro).
    assert (peers ro1 !! peerId = Some peer) as Hpeer1 by (cbn; by rewrite lookup_insert_eq).
    assert (peerStore s1 !! peer = Some (mkPeer None None None false false)) as Hpo1
      by (cbn; by rewrite lookup_insert_eq).
    rewrite bind_assoc, (bind_readPeer _ _ _ _ Hpo1). cbn [isConnected]. rewrite bind_assoc.
    rewrite (bind_Ok _ _ _ _ _ _
               (askPeerConnection_run s1 roomName peerId room peer ro1 _ Hroom Hro1 Hpeer1 Hpo1)).
    change (pcConstructorThrows s1) with (pcConstructorThrows s). rewrite Hpc.
    change (nextPc s1) with pc.
    set (s2 := set_peerStore _ (set_nextPc S s1)).
    assert (roomStore s2 !! room = Some ro1) as Hro2 by done.
    rewrite (bind_Ok _ _ _ _ _ _
               (doOffer_run s2 roomName peerId room peer pc ro1 Hroom Hro2 Hpeer1 Hdc)).
    unfold ret. cbn [app peerConnection].
    eexists. split; [done|]. split_and!; try done.
    - cbn. by rewrite !lookup_alter_eq, lookup_insert_eq.
    - cbn. by rewrite lookup_insert_eq. }
  assert (s' = s1) as -> by (unfold s', step; cbn [handle]; by rewrite Hrun).
  split_and!.
  - done.
  - unfold enteredOf. by rewrite HroomStore1.
  - exists room, ro1. rewrite Hrooms1. split_and!; try done.
    unfold ro1. cbn. by rewrite lookup_insert_eq.
  - done.
  - unfold readyState. by rewrite Hready1.
Qed.

(** ** The reconnection heuristic *)

Lemma offersIn_app (out1 out2 : list Effect) :
  offersIn (out1 ++ out2) = offersIn out1 + offersIn out2.
Proof. induction out1 as [|[] out1 IH]; cbn; by rewrite ?IH. Qed.

Lemma offersIn_closedConnection (s : Conn) (po : Peer) : offersIn (closedConnection s po) = 0.
Proof. unfold closedConnection. destruct (peerConnection po); [by case_decide|done]. Qed.

(** [doOffer] without a connection, and with a connection that cannot
    make a data channel. *)
Lemma doOffer_faults (s : Conn) (roomName peerId : string) (room peer : nat) (ro : Room)
    (pc : option nat) :
  rooms s !! roomName = Some room →
  roomStore s !! room = Some ro →
  peers ro !! peerId = Some peer →
  pc = None ∨ createDataChannelThrows s = true →
  doOffer roomName peerId pc s =
    (match pc with Some _ => Ok tt | None => Throw TypeError end,
     set_peerStore (alter (set_connectionRole (fun _ => Some role_offer)) peer) s,
     match pc with Some pc => [PcCreateOffer pc roomName peerId] | None => [] end).
Proof.
  intros Hroom Hro Hpeer Hfault. unfold doOffer.
  mrun. rewrite Hroom. mrun. rewrite (bind_getPeer _ ro), Hpeer by done. mrun.
  unfold createDataChannel. mrun.
  destruct pc as [pc|]; [|by mrun].
  destruct Hfault as [?|Hthrows]; [done|].
  cbn [createDataChannelThrows set_peerStore]. rewrite Hthrows. by mrun.
Qed.

(** The turn of a reconnection timer that finds its peer not connected and
    in the role ['answer'], with what the WebRTC constructors do. *)
Lemma reconnect_run (s : Conn) (timer : nat) (ms : Z) (peer : nat)
    (roomName fromPeer : string) (po : Peer) :
  registered s roomName fromPeer peer →
  timers s !! timer = Some (ms, TReconnect peer roomName fromPeer) →
  peerStore s !! peer = Some po →
  isConnected po = false →
  connectionRole po = Some role_answer →
  let pc := nextPc s in
  let channel := nextChannel s in
  let flagged :=
    set_peerStore (alter (set_noNeedReconnect (fun _ => true)) peer)
      (set_timers (delete timer) s) in
  let connected :=
    set_peerStore (alter (set_peerConnection (fun _ => Some pc)) peer)
      (set_nextPc S flagged) in
  let offering := set_peerStore (alter (set_connectionRole (fun _ => Some role_offer)) peer) in
  handle (EvTimer timer) s =
    if pcConstructorThrows s then
      (Throw TypeError, offering flagged, closedConnection s po)
    else if createDataChannelThrows s then
      (Ok tt, offering connected,
       closedConnection s po ++
       [PcCreate pc roomName fromPeer; PcCreateOffer pc roomName fromPeer])
    else
      (Ok tt,
       set_peerStore (alter (set_dataChannel (fun _ => Some channel)) peer)
         (set_readyStates (insert channel rs_connecting)
            (set_nextChannel S (offering connected))),
       closedConnection s po ++
       [PcCreate pc roomName fromPeer;
        PcCreateDataChannel pc channel (roomName ++ ":" ++ fromPeer)%string;
        PcCreateOffer pc roomName fromPeer]).
Proof.
  intros (room & ro & Hroom & Hro & Hpeer) Htimer Hpo Hcon Hrole pc channel flagged
    connected offering.
  cbn [handle]. unfold fireTimer. rewrite bind_get, Htimer.
  unfold clearTimeout. rewrite bind_modify. cbn [runTask]. unfold reconnectTimeout.
  rewrite (bind_readPeer _ po) by done. rewrite Hcon, Hrole.
  rewrite bool_decide_eq_true_2 by done. cbn [negb andb].
  rewrite bind_writePeer. fold flagged.
  assert (peerStore flagged !! peer = Some (set_noNeedReconnect (fun _ => true) po))
    as Hflagged by (cbn; by rewrite lookup_alter_eq, Hpo).
  rewrite (bind_Ok _ _ _ _ _ _
             (askPeerConnection_run flagged roomName fromPeer room peer ro _
                Hroom Hro Hpeer Hflagged)).
  change (pcConstructorThrows flagged) with (pcConstructorThrows s).
  change (match peerConnection (set_noNeedReconnect (fun _ => true) po) with
          | Some old => if decide (old ∈ iceConnected flagged) then [] else [PcClose old]
          | None => []
          end) with (closedConnection s po).
  destruct (pcConstructorThrows s).
  - rewrite (doOffer_faults flagged roomName fromPeer room peer ro None) by auto.
    by rewrite !app_nil_r.
  - change (nextPc flagged) with pc. fold connected.
    destruct (createDataChannelThrows s) eqn:Hchannel.
    + rewrite (doOffer_faults connected roomName fromPeer room peer ro (Some pc)) by auto.
      by rewrite <- app_assoc.
    + rewrite (doOffer_run connected roomName fromPeer room peer pc ro) by done.
      by rewrite <- app_assoc.
Qed.

(** One firing creates one offer at most. *)
Lemma reconnect_offers_once (s : Conn) (ev : Event) (peer : nat) :
  wellFormed s → (offersIn (reoffer s ev peer) ≤ 1)%nat.
Proof.
  intros Hwf. destruct (reconnects s ev peer) eqn:Hfire;
    [|rewrite reoffer_idle by done; cbn; lia].
  apply reconnects_spec in Hfire
    as (timer & ms & roomName & fromPeer & po & -> & Htimer & Hpo & Hcon & Hrole).
  unfold reoffer. rewrite Htimer, decide_True by done. unfold output.
  rewrite (reconnect_run s timer ms peer roomName fromPeer po)
    by (try done; by eapply Hwf).
  destruct (pcConstructorThrows s); [|destruct (createDataChannelThrows s)];
    cbn [effects_of snd]; rewrite ?offersIn_app, offersIn_closedConnection; cbn; lia.
Qed.

Lemma reoffers_at_most_once (evs : list Event) (s : Conn) (peer : nat) :
  wellFormed s → (offersIn (reoffers s evs peer) ≤ 1)%nat.
Proof.
  revert s. induction evs as [|ev evs IH]; intros s Hwf; [cbn; lia|].
  cbn [reoffers]. rewrite offersIn_app.
  destruct (reconnects s ev peer) eqn:Hfire.
  - pose proof (reconnect_offers_once s ev peer Hwf) as Honce.
    apply reconnects_spec in Hfire
      as (timer & ms & rn & fp & po & -> & Htimer & Hpeer & Hcon & Hrole).
    destruct (reconnect_fires s timer ms peer rn fp po Hwf Htimer Hpeer Hcon Hrole)
      as (po' & Hpo' & Hrole' & _).
    rewrite (offering_reoffers evs); [cbn [offersIn]; by rewrite Nat.add_0_r|].
    exists po'. split; [done|]. by left.
  - rewrite reoffer_idle by done. cbn.
    apply IH. exact (keeps_state _ _ s (wellFormed_handle ev) Hwf).
Qed.

(** C8. In a connector whose registry is well formed, for every peer
    object:

    - in every run, whatever the events are and however many candidates
      arrive and timers fire, the reconnection timers of the peer create
      one offer at most;
    - a candidate that is applied for the peer arms a timer of 2500 ms
      when the one-shot flag of the peer is not set, and none once it is;
    - when such a timer finds the peer not connected and in the role
      ['answer'], the flag is set and the local side makes the offer: the
      connection of the peer is closed unless it is connected, a new one is
      created, a data channel is created on it and the offer is created;
      the peer then has the role ['offer'] (also when a WebRTC constructor
      fails);
    - when the timer finds the peer connected, or in another role, it does
      nothing. *)
Theorem reconnection_at_most_once (s : Conn) (evs : list Event) (peer : nat) :
  wellFormed s →
  (offersIn (reoffers s evs peer) ≤ 1)%nat ∧
  (∀ data msg po pc,
     _onlineStatus s = online →
     parseSignaling data = Some msg →
     msg_type msg = Some "candidate" →
     registered s (msg_room msg) (msg_fromPeer msg) peer →
     peerStore s !! peer = Some po →
     peerConnection po = Some pc →
     onSignalingMessage data s =
       (Ok tt,
        if noNeedReconnect po then s
        else set_nextTimer S
               (set_timers
                  (insert (nextTimer s)
                     (2500%Z, TReconnect peer (msg_room msg) (msg_fromPeer msg))) s),
        [PcAddIceCandidate pc (msg_label msg) (msg_candidate msg)])) ∧
  (∀ timer ms roomName fromPeer po,
     timers s !! timer = Some (ms, TReconnect peer roomName fromPeer) →
     peerStore s !! peer = Some po →
     (isConnected po = false → connectionRole po = Some role_answer →
      reoffered peer (step s (EvTimer timer)) ∧
      (pcConstructorThrows s = false → createDataChannelThrows s = false →
       output s (EvTimer timer) =
         closedConnection s po ++
         [PcCreate (nextPc s) roomName fromPeer;
          PcCreateDataChannel (nextPc s) (nextChannel s) (roomName ++ ":" ++ fromPeer)%string;
          PcCreateOffer (nextPc s) roomName fromPeer] ∧
       peerStore (step s (EvTimer timer)) !! peer =
         Some (mkPeer (Some (nextPc s)) (Some (nextChannel s)) (Some role_offer) true false))) ∧
     (isConnected po = true ∨ connectionRole po ≠ Some role_answer →
      handle (EvTimer timer) s = (Ok tt, set_timers (delete timer) s, []))).
Proof.
  intros Hwf. split_and!.
  - by apply reoffers_at_most_once.
  - intros. by apply candidate_arms.
  - intros timer ms roomName fromPeer po Htimer Hpo. split.
    + intros Hcon Hrole. split; [by eapply reconnect_fires|].
      intros Hpc Hchannel.
      assert (registered s roomName fromPeer peer) as Hreg by by eapply Hwf.
      unfold output, step.
      rewrite (reconnect_run s timer ms peer roomName fromPeer po) by done.
      rewrite Hpc, Hchannel. split; [done|]. cbn.
      rewrite !lookup_alter_eq, Hpo. cbn. destruct po; cbn in *. by subst.
    + intros Hidle. cbn [handle]. unfold fireTimer. rewrite bind_get, Htimer.
      unfold clearTimeout. rewrite bind_modify. cbn [runTask]. unfold reconnectTimeout.
      rewrite (bind_readPeer _ po) by done.
      destruct Hidle as [->|Hrole]; [done|].
      rewrite (bool_decide_eq_false_2 _ Hrole). by rewrite andb_false_r.
Qed.

End Properties.

(** ** Concrete runs *)

(** C6, as the specification words it, fails. Requests for the status of
    ["B"], of ["C"] and of ["B"] again are pending, and the answer for
    ["B"] arrives: the first matcher accepts and is removed, the second
    does not accept, and the third accepts and is removed as well, its
    request resolved; the matcher that stays is the second alone. *)
Lemma dispatch_resolves_a_later_matcher :
  ¬ @removesExactlyFirst demo threePending "B online" (demo_status "B" "online").
Proof.
  unfold removesExactlyFirst. intros [Hlist _].
  vm_compute in Hlist. discriminate.
Qed.

(** C5. The code at the failing input. ["A"], online and approved, has no
    request pending; it makes a request whose matcher accepts nothing, and
    nothing answers. The timer is armed with 3000 ms, and when it fires
    the promise is rejected with ["promise timeout"]: so far the claim. The
    matcher, however, is in the list still, and after a second request of
    the kind and its timeout the list holds both matchers: what the claim
    says of the list (the matcher is removed on the timeout) does not hold
    of the code. *)
Theorem timed_out_matcher_is_not_removed :
  let message := [[("type", "GET_ONLINE_STATUS"); ("peerId", "B")]] in
  let never := fun _ : Msg => notAcceptedResponse in
  let s1 := state_of (request (sendSignalingMessage message) never approvedA) in
  let s2 := @step demo s1 (EvTimer (nextTimer approvedA)) in
  let s3 := state_of (request (sendSignalingMessage message) never s2) in
  let s4 := @step demo s3 (EvTimer (nextTimer s2)) in
  signalingMessageAwaitings approvedA = [] ∧
  timers s1 !! nextTimer approvedA = Some (3000%Z, TPromiseTimeout 0) ∧
  rq_outer <$> requestStore s2 !! 0 = Some (Rejected "promise timeout") ∧
  aw_id <$> signalingMessageAwaitings s2 = [0] ∧
  rq_outer <$> requestStore s4 !! 1 = Some (Rejected "promise timeout") ∧
  aw_id <$> signalingMessageAwaitings s4 = [0; 1] ∧
  ¬ @deregisteredOnTimeout demo approvedA message never.
Proof.
  cbv zeta. split_and!; try (vm_compute; reflexivity).
  unfold deregisteredOnTimeout. intros [_ Hgone]. apply Hgone.
  vm_compute. left.
Qed.

Lemma wellFormed_initial (publicKey secretPhrase : string) :
  wellFormed (initial publicKey secretPhrase).
Proof. split; intros *; unfold initial; cbn; by rewrite lookup_empty. Qed.


(** The proof of ["C"], correctly signed, arrives on the channel that was
    opened for ["B"]. *)
Lemma proof_with_foreign_key_rejected_witness :
  ∃ reason,
    @onMessage demo "A-B" "B" 7 "proof of C" channelOpen =
      (Ok tt, state_of (channel_close 7 channelOpen),
       [RoomOnMessageInternal 0 (demo_proof "signed:C" "challenge" "C") "B" "A-B";
        ChannelSend 7 (rejection reason);
        ChannelClose 7]).
Proof.
  destruct (@proof_with_foreign_key_rejected demo channelOpen "A-B" "B" 7 "proof of C"
              (demo_proof "signed:C" "challenge" "C") 0
              (mkRoom "A-B" (mkRoomState st_entering true) ["B"] {["B" := 0]}
                 (Some {["B" := "challenge"]}) true true false false)
              {["B" := "challenge"]})
    as (reason & Hrun & _); try (vm_compute; reflexivity).
  - vm_compute. discriminate.
  - exists reason. exact Hrun.
Defined.

(** A proof of ["B"] that echoes an old challenge arrives. *)
Lemma proof_with_wrong_challenge_rejected_witness :
  @onMessage demo "A-B" "B" 7 "stale proof of B" channelOpen =
    (Ok tt, state_of (channel_close 7 channelOpen),
     [RoomOnMessageInternal 0 (demo_proof "signed:B" "old" "B") "B" "A-B";
      ChannelSend 7 (rejection "Received data does not match the sent data");
      ChannelClose 7]).
Proof.
  apply (@proof_with_wrong_challenge_rejected demo channelOpen "A-B" "B" 7
           "stale proof of B" (demo_proof "signed:B" "old" "B") 0
           (mkRoom "A-B" (mkRoomState st_entering true) ["B"] {["B" := 0]}
              (Some {["B" := "challenge"]}) true true false false)
           {["B" := "challenge"]});
    try (vm_compute; reflexivity).
  vm_compute. discriminate.
Defined.

(** The room with ["B"] is entered three times, the timer firing before the
    third. *)
Lemma enter_twice_one_join_request_witness :
  ∃ s1 s2 s3 s4,
    enter 0 false roomCreated = (Ok tt, s1, [joinRequest "A-B"]) ∧
    enter 0 false s1 = (Ok tt, s2, []) ∧
    fireTimer (nextTimer roomCreated) s2 = (Ok tt, s3, []) ∧
    enter 0 false s3 = (Ok tt, s4, [joinRequest "A-B"]).
Proof.
  destruct (enter_twice_one_join_request roomCreated 0
              (mkRoom "A-B" (mkRoomState st_not false) ["B"] ∅ None true true false false)
              false false false)
    as [(s1 & s2 & s3 & s4 & H1 & _ & _ & H2 & _ & H3 & _ & H4 & _) _];
    try (vm_compute; reflexivity).
  - right. vm_compute. reflexivity.
  - exists s1, s2, s3, s4. auto.
Defined.

(** The answer for ["B"] reaches the three pending requests: the third
    matcher, which stands behind the one for ["C"], is removed and its
    request is resolved. *)
Lemma dispatch_removes_first_accepting_witness :
  ∃ s', @onSignalingMessage demo "B online" threePending = (Ok tt, s', []) ∧
        (2 ∉ aw_id <$> signalingMessageAwaitings s') ∧
        rq_inner <$> requestStore s' !! 2 = Some (Resolved (VStr "online")).
Proof.
  destruct (@dispatch_removes_first_accepting demo threePending "B online"
              (demo_status "B" "online"))
    as (s' & Hrun & _ & _ & Hlater & _).
  - vm_compute. reflexivity.
  - vm_compute. reflexivity.
  - apply (bool_decide_unpack _). vm_compute. exact Logic.I.
  - apply (bool_decide_unpack _). vm_compute. exact Logic.I.
  - exists s'. split; [exact Hrun|].
    destruct (Hlater (take 2 (signalingMessageAwaitings threePending))
                (mkAwaiting 2 (fun msg =>
                   if decide (msg_type msg = Some "ONLINE_STATUS" ∧ msg_peerId msg = Some "B")
                   then match msg_status msg with Some st => VStr st | None => VUndefined end
                   else notAcceptedResponse))
                [])
      as [Hgone Hsettled].
    + vm_compute. reflexivity.
    + vm_compute. discriminate.
    + intros p Hp. vm_compute in Hp. injection Hp as <-.
      vm_compute. intros Hno. apply Hno. reflexivity.
    + split; [exact Hgone|]. cbn [aw_id] in Hsettled. rewrite Hsettled.
      vm_compute. reflexivity.
Defined.


(** Three candidates arrive for the peer that answered; the three timers
    fire. *)
Lemma reconnection_at_most_once_witness :
  (offersIn (@reoffers demo (@run demo (initial "A" "secret") answering) candidates 0) ≤ 1)%nat ∧
  @reoffers demo (@run demo (initial "A" "secret") answering) candidates 0 =
    [PcClose 0; PcCreate 1 "A-B" "B"; PcCreateDataChannel 1 0 "A-B:B";
     PcCreateOffer 1 "A-B" "B"].
Proof.
  destruct (@reconnection_at_most_once demo
              (@run demo (initial "A" "secret") answering) candidates 0)
    as [Honce _].
  - apply (@wellFormed_run demo), wellFormed_initial.
  - split; [exact Honce|]. vm_compute. reflexivity.
Defined.

(** A connector that was just constructed is offline. *)
Lemma enterRoom_offline_witness :
  _onlineStatus (initial "A" "secret") = offline ∧
  @enterRoom demo "B" (initial "A" "secret") = (Ok None, initial "A" "secret", []).
Proof.
  split; [reflexivity|]. apply (@enterRoom_offline demo). reflexivity.
Defined.

(** A message that reaches a connector that was just constructed changes
    nothing. *)
Lemma onSignalingMessage_offline_witness :
  _onlineStatus (initial "A" "secret") = offline ∧
  @step demo (initial "A" "secret") (EvSignalingMessage "approved") = initial "A" "secret".
Proof.
  split; [reflexivity|].
  destruct (@onSignalingMessage_offline demo (initial "A" "secret") "approved")
    as (_ & Hstep & _); [reflexivity|exact Hstep].
Defined.

(** ** Further concrete runs *)

(** Noise arrives on the open channel of ["A"]. *)
Lemma onMessage_never_throws_witness :
  @onMessage scripted "A-B" "B" 0 "noise" proving = (Ok tt, proving, []).
Proof.
  apply (proj2 (@onMessage_never_throws scripted proving "A-B" "B" 0 "noise")).
  reflexivity.
Defined.

(** ["B"] gets the proof request of ["A"] on its channel 3. *)
Lemma proof_request_answered_witness :
  @onMessage scripted "A-B" "A" 3 "request" answerer =
    (Ok tt, answerer,
     [ChannelSend 3 (proofResponse (@signedBy scripted answerer (Some "challenge")))]).
Proof.
  pose proof (@proof_request_answered scripted answerer "A-B" "A" 3 "request"
                (scripted_request "challenge" "A") eq_refl eq_refl) as Hrun.
  vm_compute in Hrun. vm_compute. exact Hrun.
Defined.

(** The channel of ["A"] with ["B"] opens, ["B"] answers the request, and
    ["A"] accepts the proof. *)
Lemma proof_round_trip_witness :
  effects_of
    (@onMessage scripted "A-B" "B" 0 "proof"
       (state_of (@onOpenDataChannel scripted "A-B" "B" 0 false "0.5" "challenge" offerMade))) =
    [RoomOnMessageInternal 0
       (scripted_proof (scripted_signature (Some "challenge") "B") "challenge" "B") "B" "A-B";
     RoomProvenPublicKey 0 "B" (Some "B")].
Proof.
  destruct (@proof_round_trip scripted offerMade answerer "A-B" 0 0 0 3
               (mkRoom "A-B" (mkRoomState st_entered true) ["B"] {["B" := 0]} None true true false false)
               "A-B" "A"
               "0.5" "challenge" "request" "proof" (scripted_request "challenge" "A"))
    as (_ & _ & _ & _ & Haccepted & _).
  - vm_compute. reflexivity.
  - vm_compute. reflexivity.
  - vm_compute. reflexivity.
  - apply (bool_decide_unpack _). vm_compute. exact Logic.I.
  - vm_compute. reflexivity.
  - vm_compute. reflexivity.
  - vm_compute. reflexivity.
  - vm_compute. reflexivity.
  - vm_compute. reflexivity.
  - vm_compute. reflexivity.
  - vm_compute. reflexivity.
  - intros ro'. reflexivity.
  - exact Haccepted.
Defined.

(** The proof of ["B"] arrives twice. *)
Lemma proof_replay_rejected_witness :
  @onMessage scripted "A-B" "B" 0 "proof"
    (state_of (@onMessage scripted "A-B" "B" 0 "proof" proving)) =
    (Ok tt,
     state_of (channel_close 0 (state_of (@onMessage scripted "A-B" "B" 0 "proof" proving))),
     [RoomOnMessageInternal 0
        (scripted_proof (scripted_signature (Some "challenge") "B") "challenge" "B") "B" "A-B";
      ChannelSend 0 (rejection "Received data does not match the sent data");
      ChannelClose 0]).
Proof.
  destruct (@proof_replay_rejected scripted proving "A-B" "B" 0 "proof"
               (scripted_proof (scripted_signature (Some "challenge") "B") "challenge" "B")
               0 (mkRoom "A-B" (mkRoomState st_entered true) ["B"] {["B" := 0]}
                  (Some {["B" := "challenge"]}) true true false false)
               {["B" := "challenge"]} "challenge")
    as [_ Hsecond].
  - vm_compute. reflexivity.
  - vm_compute. reflexivity.
  - vm_compute. reflexivity.
  - vm_compute. reflexivity.
  - vm_compute. reflexivity.
  - vm_compute. reflexivity.
  - vm_compute. reflexivity.
  - vm_compute. reflexivity.
  - vm_compute. reflexivity.
  - apply (bool_decide_unpack _). vm_compute. exact Logic.I.
  - vm_compute. reflexivity.
  - vm_compute. reflexivity.
  - vm_compute. reflexivity.
  - exact Hsecond.
Defined.

(** The proof of ["B"] arrives at a room whose member list is empty. *)
Lemma proof_of_non_member_rejected_witness :
  @onMessage scripted "A-B" "B" 0 "proof" memberless =
    (Ok tt, state_of (channel_close 0 memberless),
     [RoomOnMessageInternal 0
        (scripted_proof (scripted_signature (Some "challenge") "B") "challenge" "B") "B" "A-B";
      ChannelSend 0 (rejection "Received public key is not allowed");
      ChannelClose 0]).
Proof.
  destruct (@proof_of_non_member_rejected scripted memberless "A-B" "B" 0 "proof"
               (scripted_proof (scripted_signature (Some "challenge") "B") "challenge" "B")
               0 (mkRoom "A-B" (mkRoomState st_entered true) [] {["B" := 0]}
                  (Some {["B" := "challenge"]}) true true false false)
               {["B" := "challenge"]})
    as [Hrun _].
  - vm_compute. reflexivity.
  - vm_compute. reflexivity.
  - vm_compute. reflexivity.
  - vm_compute. reflexivity.
  - vm_compute. reflexivity.
  - vm_compute. reflexivity.
  - vm_compute. reflexivity.
  - vm_compute. reflexivity.
  - apply (bool_decide_unpack _). vm_compute. exact Logic.I.
  - vm_compute. reflexivity.
  - exact Hrun.
Defined.

(** A proof of ["B"] with a signature that is not one arrives. *)
Lemma proof_with_bad_signature_rejected_witness :
  @onMessage scripted "A-B" "B" 0 "forged" proving =
    (Ok tt, state_of (channel_close 0 proving),
     [RoomOnMessageInternal 0 (scripted_proof "nonsense" "challenge" "B") "B" "A-B";
      ChannelSend 0 invalidSignature;
      ChannelClose 0]).
Proof.
  destruct (@proof_with_bad_signature_rejected scripted proving "A-B" "B" 0 "forged"
               (scripted_proof "nonsense" "challenge" "B") 0
               (mkRoom "A-B" (mkRoomState st_entered true) ["B"] {["B" := 0]}
                  (Some {["B" := "challenge"]}) true true false false)
               {["B" := "challenge"]})
    as [Hrun _].
  - vm_compute. reflexivity.
  - vm_compute. reflexivity.
  - vm_compute. reflexivity.
  - vm_compute. reflexivity.
  - vm_compute. reflexivity.
  - vm_compute. reflexivity.
  - vm_compute. reflexivity.
  - vm_compute. reflexivity.
  - apply (bool_decide_unpack _). vm_compute. exact Logic.I.
  - vm_compute. reflexivity.
  - vm_compute. reflexivity.
  - exact Hrun.
Defined.

(** ["B"] turns ["A"] down. *)
Lemma rejection_notice_closes_channel_witness :
  @onMessage scripted "A-B" "B" 0 "turned down" proving =
    (Ok tt, state_of (channel_close 0 proving),
     [RoomOnMessageInternal 0 (scripted_rejection "busy") "B" "A-B"; ChannelClose 0]).
Proof.
  destruct (@rejection_notice_closes_channel scripted proving "A-B" "B" 0 "turned down"
               (scripted_rejection "busy") 0
               (mkRoom "A-B" (mkRoomState st_entered true) ["B"] {["B" := 0]}
                  (Some {["B" := "challenge"]}) true true false false)
               "busy")
    as [Hrun _].
  - vm_compute. reflexivity.
  - vm_compute. reflexivity.
  - vm_compute. reflexivity.
  - discriminate.
  - vm_compute. reflexivity.
  - vm_compute. reflexivity.
  - exact Hrun.
Defined.

(** A proof arrives for a room that is not registered, and for a room
    whose channel has not opened. *)
Lemma proof_without_challenge_ignored_witness :
  @onMessage scripted "A-B" "B" 0 "proof" (scriptedOnline "A") =
    (Ok tt, scriptedOnline "A", []) ∧
  @onMessage scripted "A-B" "B" 0 "proof" entering =
    (Ok tt, entering,
     [RoomOnMessageInternal 0
        (scripted_proof (scripted_signature (Some "challenge") "B") "challenge" "B") "B" "A-B"]).
Proof.
  split.
  - apply (proj1 (@proof_without_challenge_ignored scripted (scriptedOnline "A") "A-B" "B" 0
                    "proof" _ eq_refl eq_refl)).
    vm_compute. reflexivity.
  - apply (proj2 (@proof_without_challenge_ignored scripted entering "A-B" "B" 0
                    "proof" _ eq_refl eq_refl) 0
             (mkRoom "A-B" (mkRoomState st_entering true) ["B"] ∅ None true true false false)).
    + vm_compute. reflexivity.
    + vm_compute. reflexivity.
    + vm_compute. reflexivity.
    + vm_compute. reflexivity.
Defined.

(** The first socket fails; more is sent, and the socket closes. *)
Lemma failed_first_connection_is_final_witness :
  (Signaling.run Signaling.initial
     [Signaling.Send [[("type", "WANT_PROVE_IDENTITY")]]; Signaling.Error 0;
      Signaling.Send [[("type", "ROOM"); ("room", "A-B")]]; Signaling.Closed 0;
      Signaling.Tick 0]).2 = [Signaling.WsNew 0].
Proof.
  apply (failed_first_connection_is_final [[("type", "WANT_PROVE_IDENTITY")]]
           [Signaling.Send [[("type", "ROOM"); ("room", "A-B")]]; Signaling.Closed 0;
            Signaling.Tick 0]).
  repeat constructor; simpl; intros [].
Defined.

(** Two batches are sent after the socket has closed. *)
Lemma sends_after_close_make_sockets_witness :
  (Signaling.run reconnecting
     (Signaling.Send <$> [[[("type", "WHO_ONLINE")]]; [[("type", "ROOM"); ("room", "A-B")]]])).2
  = [Signaling.WsNew 1; Signaling.WsNew 2].
Proof.
  destruct (sends_after_close_make_sockets
              [[[("type", "WHO_ONLINE")]]; [[("type", "ROOM"); ("room", "A-B")]]]
              reconnecting) as [Hsockets _].
  - vm_compute. reflexivity.
  - vm_compute. reflexivity.
  - exact Hsockets.
Defined.

(** A text of 60 characters is cut in front of a space. *)
Lemma popup_excerpt_bounds_witness :
  (50 < String.length longText)%nat ∧
  ∃ k, (30 ≤ k ≤ 49)%nat ∧ popupExcerpt longText = (substring 0 k longText ++ " ...")%string.
Proof.
  assert (50 < String.length longText)%nat as Hlong by (vm_compute; lia).
  split; [exact Hlong|].
  destruct (popup_excerpt_bounds longText) as (_ & Hcut & _).
  destruct (Hcut Hlong) as (k & Hk & Hexcerpt & _).
  exists k. split; [exact Hk|exact Hexcerpt].
Defined.

(** ["A"] goes online, is challenged and is approved. *)
Lemma relay_handshake_witness :
  @output scripted
    (@run scripted (initial "A" "A") [EvSetup (Some "A"); EvSetOnlineStatus online])
    (EvSignalingMessage "prove") =
    [relayProof (@signedBy scripted (initial "A" "A") (Some "nonce"))] ∧
  identity (scriptedOnline "A") = Some "A".
Proof.
  destruct (@relay_handshake scripted (@step scripted (initial "A" "A") (EvSetup (Some "A")))
              "prove" "approved" (scripted_challenge "nonce") (demo_msg "APPROVED_IDENTITY"))
    as (_ & Hproof & _ & _ & Hidentity & _).
  - vm_compute. reflexivity.
  - vm_compute. reflexivity.
  - vm_compute. reflexivity.
  - vm_compute. reflexivity.
  - vm_compute. reflexivity.
  - vm_compute. reflexivity.
  - split.
    + vm_compute in Hproof. vm_compute. exact Hproof.
    + vm_compute in Hidentity. vm_compute. exact Hidentity.
Defined.

(** A user who is offline calls. *)
Lemma call_offline_throws_witness :
  @P2PMessaging_call scripted "B" (initial "A" "A") = (Throw TypeError, initial "A" "A", []).
Proof. apply (@call_offline_throws scripted). reflexivity. Defined.

(** ["A"] calls ["B"]. *)
Lemma call_joins_then_calls_witness :
  ∃ room s',
    @P2PMessaging_call scripted "B" (scriptedOnline "A") =
      (Ok (Some room), s', [joinRequest "A-B"; callMessage "B" "A" "A-B"]).
Proof.
  destruct (@call_joins_then_calls scripted (scriptedOnline "A") "B")
    as (room & s' & Hrun & _).
  - vm_compute. reflexivity.
  - vm_compute. reflexivity.
  - vm_compute. reflexivity.
  - exists room, s'. exact Hrun.
Defined.

(** ["A"] enters the room with ["B"], and ["B"] the room with ["A"]. *)
Lemma both_sides_join_the_same_room_witness :
  ∃ roomName,
    effects_of (@enterRoom scripted "B" (scriptedOnline "A")) = [joinRequest roomName] ∧
    effects_of (@enterRoom scripted "A" (scriptedOnline "B")) = [joinRequest roomName].
Proof.
  apply (@both_sides_join_the_same_room scripted (scriptedOnline "A") (scriptedOnline "B"));
    vm_compute; reflexivity.
Defined.

(** The room with ["B"] is entered, and is entered again. *)
Lemma entered_room_is_not_entered_again_witness :
  enter 0 false proving = (Ok tt, proving, []) ∧
  @enterRoom scripted "B" proving = (Ok (Some 0), proving, []).
Proof.
  destruct (@entered_room_is_not_entered_again scripted proving 0
              (mkRoom "A-B" (mkRoomState st_entered true) ["B"] {["B" := 0]}
                 (Some {["B" := "challenge"]}) true true false false))
    as (Henter & _ & HenterRoom).
  - vm_compute. reflexivity.
  - vm_compute. reflexivity.
  - split.
    + apply Henter. reflexivity.
    + apply HenterRoom.
      * discriminate.
      * reflexivity.
      * vm_compute. reflexivity.
Defined.


(** ["B"] calls ["A"], and ["A"] confirms. *)
Lemma incoming_call_enters_when_confirmed_witness :
  @onSignalingMessage scripted "call" (scriptedOnline "A") =
    (Ok tt, scriptedOnline "A", [ConfirmIncomingCall "B" "A-B"]) ∧
  @output scripted (scriptedOnline "A") (EvCallConfirmed "A-B" "B") = [joinRequest "A-B"].
Proof.
  destruct (@incoming_call_enters_when_confirmed scripted (scriptedOnline "A") "call"
              (scripted_call "A-B" "B"))
    as [Hcall Hconfirmed].
  - vm_compute. reflexivity.
  - vm_compute. reflexivity.
  - vm_compute. reflexivity.
  - split; [exact Hcall|].
    destruct Hconfirmed as (Hout & _).
    + vm_compute. reflexivity.
    + intros room Hroom. vm_compute in Hroom. discriminate.
    + vm_compute in Hout. vm_compute. exact Hout.
Defined.

(** ["A"], which made the offer to ["B"], answers an offer of ["B"]; two
    candidates arrive and their timers fire. *)
Lemma answered_again_never_reoffered_witness :
  timers
    (@run scripted (@step scripted proving (EvRemoteDescriptionSet "A-B" "B" 0))
       [EvSignalingMessage "candidate"; EvSignalingMessage "candidate"]) !! 1
    = Some (2500%Z, TReconnect 0 "A-B" "B") ∧
  @reoffers scripted (@step scripted proving (EvRemoteDescriptionSet "A-B" "B" 0))
    [EvSignalingMessage "candidate"; EvSignalingMessage "candidate"; EvTimer 1; EvTimer 2] 0
    = [].
Proof.
  split; [vm_compute; reflexivity|].
  destruct (@answered_again_never_reoffered scripted proving "A-B" "B" 0 0
              (mkPeer (Some 0) (Some 0) (Some role_offer) false false)
              [EvSignalingMessage "candidate"; EvSignalingMessage "candidate";
               EvTimer 1; EvTimer 2])
    as (_ & _ & Hnever).
  - exists 0, (mkRoom "A-B" (mkRoomState st_entered true) ["B"] {["B" := 0]}
                 (Some {["B" := "challenge"]}) true true false false).
    split_and!; vm_compute; reflexivity.
  - vm_compute. reflexivity.
  - eexists. reflexivity.
  - exact Hnever.
Defined.

(** A candidate arrives for a room that ["A"] has not registered. *)
Lemma negotiation_for_unknown_peer_witness :
  @onSignalingMessage scripted "candidate" (scriptedOnline "A") =
    (Throw TypeError, scriptedOnline "A", []).
Proof.
  destruct (@negotiation_for_unknown_peer scripted (scriptedOnline "A") "candidate"
              (demo_candidate "A-B" "B"))
    as (Hunknown & _).
  - vm_compute. reflexivity.
  - vm_compute. reflexivity.
  - apply Hunknown.
    + vm_compute. reflexivity.
    + right. right. reflexivity.
Defined.



(** Once ["A"] is approved, nothing waits for the approval. *)
Lemma identity_in_every_run_witness :
  pendingRooms (scriptedOnline "A") = [] ∧ pendingOnlineStatus (scriptedOnline "A") = None.
Proof.
  apply (proj2 (@identity_in_every_run scripted "A" "A"
                  [EvSetup (Some "A"); EvSetOnlineStatus online; EvSignalingMessage "approved"])).
  vm_compute. reflexivity.
Defined.

(** ["A"] sends a chat message to the room with ["B"], and one to the
    room without a name. *)
Lemma broadcast_reaches_open_channels_witness :
  @send scripted "A-B" [("type", "chat"); ("text", "hello")] None proving =
    (Ok 1, proving, [ChannelSend 0 [("type", "chat"); ("text", "hello")]]) ∧
  @send scripted "" [("type", "chat"); ("text", "hello")] None proving = (Ok 0, proving, []).
Proof.
  destruct (@broadcast_reaches_open_channels scripted proving "A-B"
              [("type", "chat"); ("text", "hello")])
    as (Hempty & _ & Hsent).
  split; [|exact Hempty].
  rewrite (Hsent 0 [0]).
  - vm_compute. reflexivity.
  - discriminate.
  - vm_compute. reflexivity.
  - vm_compute. reflexivity.
Defined.


(** The relay welcomes ["A"] in the room where ["B"] is. *)
Lemma welcome_offers_to_listed_peer_witness :
  @onSignalingMessage scripted "welcome" entering =
    (Ok tt, @step scripted entering (EvSignalingMessage "welcome"),
     [PcCreate 0 "A-B" "B"; PcCreateDataChannel 0 0 "A-B:B"; PcCreateOffer 0 "A-B" "B"]).
Proof.
  destruct (@welcome_offers_to_listed_peer scripted entering "welcome"
              (scripted_welcome "A-B" ["B"]) 0
              (mkRoom "A-B" (mkRoomState st_entering true) ["B"] ∅ None true true false false)
              "B")
    as (Hrun & _).
  - vm_compute. reflexivity.
  - vm_compute. reflexivity.
  - vm_compute. reflexivity.
  - vm_compute. reflexivity.
  - vm_compute. reflexivity.
  - vm_compute. reflexivity.
  - vm_compute. reflexivity.
  - right. apply (bool_decide_unpack _). vm_compute. exact Logic.I.
  - vm_compute. reflexivity.
  - vm_compute. reflexivity.
  - exact Hrun.
Defined.
